(** * Visual editor: scene object model and interaction engine

    A shallow embedding of the editor's core (App.tsx, components/Canvas.tsx
    and the transform inputs of components/RightPropertiesPanel.tsx) and the
    properties of its geometry, erase-mask, merge, history and pointer
    handling code.

    Numbers.  A JavaScript [number] is modelled by a real number: [Math.min],
    [Math.max], [Math.sqrt], [Math.cos], [Math.sin], [Math.floor] are [Rmin],
    [Rmax], [sqrt], [cos], [sin], [Zfloor].  Rounding of IEEE doubles is
    outside this model; every concrete input used below is a small integer or
    a dyadic fraction, so the evaluated values are the ones the program
    computes.  Where rounding decides whether a statement holds of the
    program, the statement is given up to [roundingSlack], or for integer
    coordinates, on which the program's sums and differences are exact; the
    module [Double] evaluates the path rescaling of the resize branch in
    binary64 itself.  Where the program would throw (reading a property of
    [undefined] or [null]) or store a non-finite number (a bounding box over
    nothing), the model returns [None]; division by zero is kept out by the
    hypotheses of the statements that divide. *)

From Stdlib Require Import Reals Lra Lia List String Ascii Bool Arith ZArith.
From Stdlib Require Import DecimalString.
From Stdlib Require PrimFloat.
Import ListNotations.

#[local] Set Warnings "-register-all".
#[local] Open Scope R_scope.

(** ** Comparisons and JavaScript idioms *)

Definition Rleb (a b : R) : bool := if Rle_dec a b then true else false.
Definition Rltb (a b : R) : bool := if Rlt_dec a b then true else false.
Definition Rgeb (a b : R) : bool := Rleb b a.
Definition Rgtb (a b : R) : bool := Rltb b a.
Definition Reqb (a b : R) : bool := if Req_dec_T a b then true else false.

(** [v || d] on an optional number: [undefined] and [0] are falsy. *)
Definition orNumber (v : option R) (d : R) : R :=
  match v with
  | Some r => if Reqb r 0 then d else r
  | None => d
  end.

(** [v || d] on an optional array: every array is truthy. *)
Definition orList {A : Type} (v : option (list A)) (d : list A) : list A :=
  match v with
  | Some l => l
  | None => d
  end.

(** [s.includes(sub)] and [ids.includes(id)]. *)
Definition str_includes (s sub : string) : bool :=
  match String.index 0 sub s with
  | Some _ => true
  | None => false
  end.

Definition includes (ids : list string) (i : string) : bool :=
  existsb (String.eqb i) ids.

(** [Math.floor] of a non-negative quantity used as a loop bound. *)
Definition floorNat (r : R) : nat := Z.to_nat (Zfloor r).

(** [Math.atan2(dy, dx)]. *)
Definition atan2 (dy dx : R) : R :=
  if Rltb 0 dx then atan (dy / dx)
  else if Rltb dx 0 then
    (if Rleb 0 dy then atan (dy / dx) + PI else atan (dy / dx) - PI)
  else if Rltb 0 dy then PI / 2
  else if Rltb dy 0 then - (PI / 2)
  else 0.

(** The decimal rendering of [Date.now()] inside an id. *)
Definition showNat (n : nat) : string := NilZero.string_of_uint (Nat.to_uint n).

(** ** Data model (App.tsx) *)

Module Point.
Record t := mk { x : R; y : R }.
End Point.

(** A point of an erase stroke, normalised to the object it is stored on. *)
Module MaskPoint.
Record t := mk { x : R; y : R; size : R }.
End MaskPoint.

Module Particle.
Record t := mk { x : R; y : R; size : R; alpha : R }.
End Particle.

Module Transform.
Record t := mk { x : R; y : R; width : R; height : R; rotation : R }.
End Transform.

(** The value returned by [constrainToCanvas]. *)
Module Rect.
Record t := mk { x : R; y : R; width : R; height : R }.
End Rect.

(** The [parentTransform] argument of [applyEraserToObject]. *)
Module ParentTransform.
Record t := mk { x : R; y : R; rotation : R; scaleX : R; scaleY : R }.
End ParentTransform.

Module Style.
Record t := mk
    { strokeColor : string; fillColor : string; strokeWidth : R;
      opacity : option R }.
End Style.

Inductive Tool : Set :=
| select | brush | eraser | rectangle | circle | triangle | line | polygon
| star | merge.

Module ObjType.
Inductive t : Set :=
| drawn | rectangle | circle | triangle | line | polygon | star | merged
| image.
End ObjType.

Inductive BrushType : Set := normal | spray | marker.

(** [data: any]: the keys the program reads or writes, each possibly absent. *)
Module Data.
Record t := mk
    { path : option (list Point.t);
      brushType : option BrushType;
      sprayParticles : option (list Particle.t);
      erasedAreas : option (list (list MaskPoint.t));
      imageUrl : option string;
      originalWidth : option R;
      originalHeight : option R }.
End Data.

Inductive CanvasObject : Type := mkObj
  { id : string;
    type : ObjType.t;
    transform : Transform.t;
    style : Style.t;
    data : Data.t;
    children : option (list CanvasObject) }.

Record HistoryState := mkHistory { h_objects : list CanvasObject }.

Definition tool_eqb (a b : Tool) : bool :=
  match a, b with
  | select, select | brush, brush | eraser, eraser | rectangle, rectangle
  | circle, circle | triangle, triangle | line, line | polygon, polygon
  | star, star | merge, merge => true
  | _, _ => false
  end.

Definition isType (o : CanvasObject) (k : ObjType.t) : bool :=
  match type o, k with
  | ObjType.drawn, ObjType.drawn | ObjType.rectangle, ObjType.rectangle
  | ObjType.circle, ObjType.circle | ObjType.triangle, ObjType.triangle
  | ObjType.line, ObjType.line | ObjType.polygon, ObjType.polygon
  | ObjType.star, ObjType.star | ObjType.merged, ObjType.merged
  | ObjType.image, ObjType.image => true
  | _, _ => false
  end.

(** Object spreads [{...obj, k: v}]. *)
Definition withTransform (o : CanvasObject) (t : Transform.t) : CanvasObject :=
  mkObj (id o) (type o) t (style o) (data o) (children o).

Definition withStyle (o : CanvasObject) (s : Style.t) : CanvasObject :=
  mkObj (id o) (type o) (transform o) s (data o) (children o).

Definition withData (o : CanvasObject) (d : Data.t) : CanvasObject :=
  mkObj (id o) (type o) (transform o) (style o) d (children o).

Definition withChildren (o : CanvasObject) (cs : list CanvasObject)
  : CanvasObject :=
  mkObj (id o) (type o) (transform o) (style o) (data o) (Some cs).

Definition dataWithPath (d : Data.t) (p : list Point.t) : Data.t :=
  Data.mk (Some p) (Data.brushType d) (Data.sprayParticles d)
    (Data.erasedAreas d) (Data.imageUrl d) (Data.originalWidth d)
    (Data.originalHeight d).

Definition dataWithErasedAreas (d : Data.t) (e : list (list MaskPoint.t))
  : Data.t :=
  Data.mk (Data.path d) (Data.brushType d) (Data.sprayParticles d) (Some e)
    (Data.imageUrl d) (Data.originalWidth d) (Data.originalHeight d).

Definition transformWithXY (t : Transform.t) (nx ny : R) : Transform.t :=
  Transform.mk nx ny (Transform.width t) (Transform.height t)
    (Transform.rotation t).

Definition transformWithRotation (t : Transform.t) (a : R) : Transform.t :=
  Transform.mk (Transform.x t) (Transform.y t) (Transform.width t)
    (Transform.height t) a.

(** ** Geometry (Canvas.tsx) *)

Definition CANVAS_WIDTH : R := 1200.
Definition CANVAS_HEIGHT : R := 800.

Definition constrainToCanvas (x y width height : R) : Rect.t :=
  Rect.mk (Rmax 0 (Rmin x (CANVAS_WIDTH - width)))
          (Rmax 0 (Rmin y (CANVAS_HEIGHT - height)))
          (Rmin width CANVAS_WIDTH)
          (Rmin height CANVAS_HEIGHT).

(** [x >= ox && x <= ox + width && y >= oy && y <= oy + height]. *)
Definition inBox (x y ox oy width height : R) : bool :=
  Rgeb x ox && Rleb x (ox + width) && Rgeb y oy && Rleb y (oy + height).

(** The body of the segment loop of [isPointInObject]: is the point within the
    threshold of the segment from [p1] to [p2]? *)
Definition nearSegment (x y : R) (p1 p2 : Point.t) : bool :=
  let threshold := 15 in
  let x1 := Point.x p1 in
  let y1 := Point.y p1 in
  let x2 := Point.x p2 in
  let y2 := Point.y p2 in
  let A := x - x1 in
  let B := y - y1 in
  let C := x2 - x1 in
  let D := y2 - y1 in
  let dot := A * C + B * D in
  let lenSq := C * C + D * D in
  let param := if Reqb lenSq 0 then -1 else dot / lenSq in
  let xx := if Rltb param 0 then x1
            else if Rgtb param 1 then x2 else x1 + param * C in
  let yy := if Rltb param 0 then y1
            else if Rgtb param 1 then y2 else y1 + param * D in
  let dx := x - xx in
  let dy := y - yy in
  let distance := sqrt (dx * dx + dy * dy) in
  Rltb distance threshold.

(** [for (let i = 0; i < path.length - 1; i++)] over consecutive points,
    returning at the first segment that is near. *)
Fixpoint nearPath (x y : R) (path : list Point.t) : bool :=
  match path with
  | p1 :: ((p2 :: _) as rest) => nearSegment x y p1 p2 || nearPath x y rest
  | _ => false
  end.

Definition isPointInObject (x y : R) (obj : CanvasObject) : bool :=
  let ox := Transform.x (transform obj) in
  let oy := Transform.y (transform obj) in
  let width := Transform.width (transform obj) in
  let height := Transform.height (transform obj) in
  let rotation := Transform.rotation (transform obj) in
  match isType obj ObjType.drawn, Data.path (data obj) with
  | true, Some path =>
      if nearPath x y path then true
      else inBox x y ox oy width height
  | _, _ =>
      if Reqb rotation 0 then inBox x y ox oy width height
      else
        let centerX := ox + width / 2 in
        let centerY := oy + height / 2 in
        let rad := - (rotation * PI) / 180 in
        let dx := x - centerX in
        let dy := y - centerY in
        let rotatedX := dx * cos rad - dy * sin rad + centerX in
        let rotatedY := dx * sin rad + dy * cos rad + centerY in
        inBox rotatedX rotatedY ox oy width height
  end.

Definition transformPointToObjectSpace (x y : R) (obj : CanvasObject)
  : Point.t :=
  let ox := Transform.x (transform obj) in
  let oy := Transform.y (transform obj) in
  let width := Transform.width (transform obj) in
  let height := Transform.height (transform obj) in
  let rotation := Transform.rotation (transform obj) in
  let centerX := ox + width / 2 in
  let centerY := oy + height / 2 in
  let dx := x - centerX in
  let dy := y - centerY in
  let rad := - (rotation * PI) / 180 in
  let rotatedX := dx * cos rad - dy * sin rad in
  let rotatedY := dx * sin rad + dy * cos rad in
  Point.mk (rotatedX + width / 2) (rotatedY + height / 2).

(** ** Erase-mask engine: [applyEraserToObject] (Canvas.tsx) *)

(** The current/original size ratio of a merged object. *)
Definition groupScaleX (obj : CanvasObject) : R :=
  let width := Transform.width (transform obj) in
  let originalWidth := orNumber (Data.originalWidth (data obj)) width in
  width / originalWidth.

Definition groupScaleY (obj : CanvasObject) : R :=
  let height := Transform.height (transform obj) in
  let originalHeight := orNumber (Data.originalHeight (data obj)) height in
  height / originalHeight.

(** [absX, absY, absRotation, absScaleX, absScaleY] of a merged object: its
    own transform when there is no parent, composed with the parent's
    otherwise.  This record is what is handed down to the children. *)
Definition groupAbs (obj : CanvasObject)
    (parentTransform : option ParentTransform.t) : ParentTransform.t :=
  let x := Transform.x (transform obj) in
  let y := Transform.y (transform obj) in
  let rotation := Transform.rotation (transform obj) in
  let scaleX := groupScaleX obj in
  let scaleY := groupScaleY obj in
  match parentTransform with
  | Some pt =>
      ParentTransform.mk
        (ParentTransform.x pt + x * ParentTransform.scaleX pt)
        (ParentTransform.y pt + y * ParentTransform.scaleY pt)
        (ParentTransform.rotation pt + rotation)
        (ParentTransform.scaleX pt * scaleX)
        (ParentTransform.scaleY pt * scaleY)
  | None => ParentTransform.mk x y rotation scaleX scaleY
  end.

(** [localX, localY]: the eraser position in the merged object's original,
    unscaled coordinate space. *)
Definition groupLocal (obj : CanvasObject) (abs : ParentTransform.t)
    (currentPos : Point.t) : Point.t :=
  let width := Transform.width (transform obj) in
  let height := Transform.height (transform obj) in
  let originalWidth := orNumber (Data.originalWidth (data obj)) width in
  let originalHeight := orNumber (Data.originalHeight (data obj)) height in
  let centerX := ParentTransform.x abs + width / 2 in
  let centerY := ParentTransform.y abs + height / 2 in
  let dx := Point.x currentPos - centerX in
  let dy := Point.y currentPos - centerY in
  let rad := - (ParentTransform.rotation abs * PI) / 180 in
  let rotatedX := dx * cos rad - dy * sin rad in
  let rotatedY := dx * sin rad + dy * cos rad in
  Point.mk (rotatedX / ParentTransform.scaleX abs + originalWidth / 2)
           (rotatedY / ParentTransform.scaleY abs + originalHeight / 2).

(** [localX >= cx && localX <= cx + cw && localY >= cy && localY <= cy + ch]. *)
Definition childHit (loc : Point.t) (child : CanvasObject) : bool :=
  inBox (Point.x loc) (Point.y loc)
    (Transform.x (transform child)) (Transform.y (transform child))
    (Transform.width (transform child)) (Transform.height (transform child)).

(** One canvas point normalised onto a nested object (the source writes this
    computation twice, for the points of [currentPath] and for
    [currentPos]). *)
Definition nestedMaskPoint (pt : ParentTransform.t) (obj : CanvasObject)
    (eraserSize : R) (p : Point.t) : MaskPoint.t :=
  let px := ParentTransform.x pt in
  let py := ParentTransform.y pt in
  let prot := ParentTransform.rotation pt in
  let psx := ParentTransform.scaleX pt in
  let psy := ParentTransform.scaleY pt in
  let ox := Transform.x (transform obj) in
  let oy := Transform.y (transform obj) in
  let ow := Transform.width (transform obj) in
  let oh := Transform.height (transform obj) in
  let centerX := px + (ox + ow / 2) * psx in
  let centerY := py + (oy + oh / 2) * psy in
  let rad := - (prot * PI) / 180 in
  let dx := Point.x p - centerX in
  let dy := Point.y p - centerY in
  let rotatedX := dx * cos rad - dy * sin rad in
  let rotatedY := dx * sin rad + dy * cos rad in
  let localX := rotatedX / psx + ow / 2 in
  let localY := rotatedY / psy + oh / 2 in
  MaskPoint.mk (localX / ow) (localY / oh) (eraserSize / Rmin ow oh / psx).

(** One canvas point normalised onto a top-level object. *)
Definition topMaskPoint (obj : CanvasObject) (eraserSize : R) (p : Point.t)
  : MaskPoint.t :=
  let x := Transform.x (transform obj) in
  let y := Transform.y (transform obj) in
  let width := Transform.width (transform obj) in
  let height := Transform.height (transform obj) in
  MaskPoint.mk ((Point.x p - x) / width) ((Point.y p - y) / height)
               (eraserSize / Rmin width height).

(** [localPath]: the pending path followed by the current position. *)
Definition localPath (obj : CanvasObject) (currentPath : list Point.t)
    (currentPos : Point.t) (eraserSize : R)
    (parentTransform : option ParentTransform.t) : list MaskPoint.t :=
  match parentTransform with
  | Some pt =>
      map (nestedMaskPoint pt obj eraserSize) currentPath
        ++ [nestedMaskPoint pt obj eraserSize currentPos]
  | None =>
      map (topMaskPoint obj eraserSize) currentPath
        ++ [topMaskPoint obj eraserSize currentPos]
  end.

(** The branch for regular objects. *)
Definition eraseLeaf (obj : CanvasObject) (currentPath : list Point.t)
    (currentPos : Point.t) (eraserSize : R)
    (parentTransform : option ParentTransform.t) : CanvasObject :=
  let erasedAreas := orList (Data.erasedAreas (data obj)) [] in
  withData obj
    (dataWithErasedAreas (data obj)
       (erasedAreas
          ++ [localPath obj currentPath currentPos eraserSize
                parentTransform])).

Fixpoint applyEraserToObject (obj : CanvasObject)
    (currentPath : list Point.t) (currentPos : Point.t) (eraserSize : R)
    (parentTransform : option ParentTransform.t) {struct obj}
  : CanvasObject :=
  match isType obj ObjType.merged, children obj with
  | true, Some cs =>
      let abs := groupAbs obj parentTransform in
      let loc := groupLocal obj abs currentPos in
      withChildren obj
        (map (fun child =>
                if childHit loc child
                then applyEraserToObject child currentPath currentPos
                       eraserSize (Some abs)
                else child)
             cs)
  | _, _ => eraseLeaf obj currentPath currentPos eraserSize parentTransform
  end.

(** ** Spray particles: [generateSprayParticles] (Canvas.tsx)

    [random k] is the value returned by the [k]-th call of [Math.random()]
    counted from the start of the generation; every particle makes four
    calls, in the order offsetX, offsetY, size, alpha. *)

Definition sprayParticle (random : nat -> R) (x1 y1 x2 y2 strokeWidth : R)
    (particleCount j k : nat) : Particle.t :=
  let t := INR j / INR particleCount in
  let px := x1 + (x2 - x1) * t in
  let py := y1 + (y2 - y1) * t in
  let spread := strokeWidth * 1.5 in
  let offsetX := (random k - 0.5) * spread in
  let offsetY := (random (k + 1)%nat - 0.5) * spread in
  let size := random (k + 2)%nat * (strokeWidth / 3) + 1 in
  let alpha := random (k + 3)%nat * 0.5 + 0.3 in
  Particle.mk (px + offsetX) (py + offsetY) size alpha.

(** [for (let j = ...; j < particleCount; j++)], with [remaining] iterations
    left. *)
Fixpoint sprayInner (random : nat -> R) (x1 y1 x2 y2 strokeWidth : R)
    (particleCount remaining k : nat) : list Particle.t :=
  match remaining with
  | O => []
  | S r =>
      sprayParticle random x1 y1 x2 y2 strokeWidth particleCount
        (particleCount - remaining)%nat k
      :: sprayInner random x1 y1 x2 y2 strokeWidth particleCount r
           (k + 4)%nat
  end.

Definition segmentCount (strokeWidth x1 y1 x2 y2 : R) : nat :=
  let particleDensity := Nat.max 1 (floorNat (strokeWidth / 2)) in
  let dist := sqrt ((x2 - x1) ^ 2 + (y2 - y1) ^ 2) in
  Nat.max particleDensity (floorNat (dist / 2)).

(** [for (let i = 0; i < path.length - 1; i++)]. *)
Fixpoint sprayOuter (random : nat -> R) (path : list Point.t)
    (strokeWidth objectX objectY : R) (k : nat) : list Particle.t :=
  match path with
  | p1 :: ((p2 :: _) as rest) =>
      let x1 := Point.x p1 - objectX in
      let y1 := Point.y p1 - objectY in
      let x2 := Point.x p2 - objectX in
      let y2 := Point.y p2 - objectY in
      let particleCount := segmentCount strokeWidth x1 y1 x2 y2 in
      sprayInner random x1 y1 x2 y2 strokeWidth particleCount particleCount k
        ++ sprayOuter random rest strokeWidth objectX objectY
             (k + 4 * particleCount)%nat
  | _ => []
  end.

Definition generateSprayParticles (random : nat -> R) (path : list Point.t)
    (strokeWidth objectX objectY : R) : list Particle.t :=
  sprayOuter random path strokeWidth objectX objectY 0.

(** ** Application state and history (App.tsx) *)

Record AppState := mkApp
  { currentTool : Tool;
    objects : list CanvasObject;
    selectedIds : list string;
    zoom : R;
    history : list HistoryState;
    historyIndex : nat;
    eraserSize : R;
    brushSize : R;
    brushColor : string;
    brushType : BrushType;
    brushOpacity : R }.

Definition setObjects (a : AppState) (v : list CanvasObject) : AppState :=
  mkApp (currentTool a) v (selectedIds a) (zoom a) (history a)
    (historyIndex a) (eraserSize a) (brushSize a) (brushColor a)
    (brushType a) (brushOpacity a).

Definition setSelectedIds (a : AppState) (v : list string) : AppState :=
  mkApp (currentTool a) (objects a) v (zoom a) (history a) (historyIndex a)
    (eraserSize a) (brushSize a) (brushColor a) (brushType a)
    (brushOpacity a).

Definition setHistory (a : AppState) (v : list HistoryState) : AppState :=
  mkApp (currentTool a) (objects a) (selectedIds a) (zoom a) v
    (historyIndex a) (eraserSize a) (brushSize a) (brushColor a)
    (brushType a) (brushOpacity a).

Definition setHistoryIndex (a : AppState) (v : nat) : AppState :=
  mkApp (currentTool a) (objects a) (selectedIds a) (zoom a) (history a) v
    (eraserSize a) (brushSize a) (brushColor a) (brushType a)
    (brushOpacity a).

(** The initial state of the hooks of [App]. *)
Definition initialApp : AppState :=
  mkApp select [] [] 100 [mkHistory []] 0 20 5 "#000000" normal 1.

(** [history.slice(0, historyIndex + 1)], then [push]. *)
Definition addToHistory (a : AppState) (newObjects : list CanvasObject)
  : AppState :=
  let newHistory :=
    firstn (historyIndex a + 1) (history a) ++ [mkHistory newObjects] in
  setHistoryIndex (setHistory a newHistory) (List.length newHistory - 1).

Definition updateObjects (a : AppState) (newObjects : list CanvasObject)
  : AppState :=
  addToHistory (setObjects a newObjects) newObjects.

(** [None]: [history[historyIndex - 1]] is [undefined] and reading its
    [objects] throws. *)
Definition handleUndo (a : AppState) : option AppState :=
  if (0 <? historyIndex a)%nat then
    match nth_error (history a) (historyIndex a - 1) with
    | Some h =>
        Some (setSelectedIds
                (setObjects (setHistoryIndex a (historyIndex a - 1))
                   (h_objects h))
                [])
    | None => None
    end
  else Some a.

Definition handleRedo (a : AppState) : option AppState :=
  if (historyIndex a <? List.length (history a) - 1)%nat then
    match nth_error (history a) (historyIndex a + 1) with
    | Some h =>
        Some (setSelectedIds
                (setObjects (setHistoryIndex a (historyIndex a + 1))
                   (h_objects h))
                [])
    | None => None
    end
  else Some a.

Definition handleNew (a : AppState) : AppState :=
  setHistoryIndex
    (setHistory (setSelectedIds (setObjects a []) []) [mkHistory []]) 0.

(** [{ ...obj.style, ...styleUpdates }]: an absent [opacity] keeps the old
    one. *)
Definition mergeStyle (old upd : Style.t) : Style.t :=
  Style.mk (Style.strokeColor upd) (Style.fillColor upd)
    (Style.strokeWidth upd)
    (match Style.opacity upd with
     | Some o => Some o
     | None => Style.opacity old
     end).

Fixpoint updateObjectStyle (obj : CanvasObject) (styleUpdates : Style.t)
    {struct obj} : CanvasObject :=
  let newStyle := mergeStyle (style obj) styleUpdates in
  match isType obj ObjType.merged, children obj with
  | true, Some cs =>
      mkObj (id obj) (type obj) (transform obj) newStyle (data obj)
        (Some (map (fun child => updateObjectStyle child styleUpdates) cs))
  | _, _ => withStyle obj newStyle
  end.

(** [Partial<CanvasObject>]: the keys that are present. *)
Record Updates := mkUpdates
  { u_id : option string;
    u_type : option ObjType.t;
    u_transform : option Transform.t;
    u_style : option Style.t;
    u_data : option Data.t;
    u_children : option (list CanvasObject) }.

Definition noUpdates : Updates := mkUpdates None None None None None None.

(** [{ ...obj, ...updates }]. *)
Definition applyUpdates (obj : CanvasObject) (u : Updates) : CanvasObject :=
  mkObj (match u_id u with Some v => v | None => id obj end)
        (match u_type u with Some v => v | None => type obj end)
        (match u_transform u with Some v => v | None => transform obj end)
        (match u_style u with Some v => v | None => style obj end)
        (match u_data u with Some v => v | None => data obj end)
        (match u_children u with Some v => Some v | None => children obj end).

Definition handleObjectUpdate (a : AppState) (updates : Updates) : AppState :=
  match selectedIds a with
  | [sel] =>
      let newObjects :=
        map (fun obj =>
               if String.eqb (id obj) sel then
                 match u_style updates, isType obj ObjType.merged with
                 | Some s, true => updateObjectStyle obj s
                 | _, _ => applyUpdates obj updates
                 end
               else obj)
            (objects a) in
      updateObjects a newObjects
  | _ => a
  end.

(** The accumulators [minX = Infinity, ...] of a bounding-box loop: [None] is
    the initial infinity, for which [Math.min(Infinity, v)] is [v]. *)
Definition accMin (acc : option R) (v : R) : option R :=
  Some (match acc with Some m => Rmin m v | None => v end).

Definition accMax (acc : option R) (v : R) : option R :=
  Some (match acc with Some m => Rmax m v | None => v end).

Record Bounds := mkBounds
  { minX : option R; minY : option R; maxX : option R; maxY : option R }.

Definition noBounds : Bounds := mkBounds None None None None.

(** The [forEach] of [handleMerge] over the selected objects. *)
Definition mergeBounds (selectedObjects : list CanvasObject) : Bounds :=
  fold_left
    (fun b obj =>
       let x := Transform.x (transform obj) in
       let y := Transform.y (transform obj) in
       let width := Transform.width (transform obj) in
       let height := Transform.height (transform obj) in
       mkBounds (accMin (minX b) x) (accMin (minY b) y)
                (accMax (maxX b) (x + width)) (accMax (maxY b) (y + height)))
    selectedObjects noBounds.

(** A selected object re-expressed relative to the merged object's origin. *)
Definition mergeChild (constrainedX constrainedY : R) (obj : CanvasObject)
  : CanvasObject :=
  let relativeTransform :=
    transformWithXY (transform obj)
      (Transform.x (transform obj) - constrainedX)
      (Transform.y (transform obj) - constrainedY) in
  match isType obj ObjType.drawn, Data.path (data obj) with
  | true, Some path =>
      let relativePath :=
        map (fun point =>
               Point.mk (Point.x point - constrainedX)
                        (Point.y point - constrainedY))
            path in
      mkObj (id obj) (type obj) relativeTransform (style obj)
        (dataWithPath (data obj) relativePath) (children obj)
  | _, _ => withTransform obj relativeTransform
  end.

Definition mergedObject (now : nat) (selectedObjects : list CanvasObject)
    (bminX bminY bmaxX bmaxY : R) : CanvasObject :=
  let mergedWidth := bmaxX - bminX in
  let mergedHeight := bmaxY - bminY in
  let constrainedX := Rmax 0 (Rmin bminX (1200 - mergedWidth)) in
  let constrainedY := Rmax 0 (Rmin bminY (800 - mergedHeight)) in
  mkObj ("merged-" ++ showNat now) ObjType.merged
    (Transform.mk constrainedX constrainedY mergedWidth mergedHeight 0)
    (Style.mk "#000000" "transparent" 2 None)
    (Data.mk None None None None None (Some mergedWidth) (Some mergedHeight))
    (Some (map (mergeChild constrainedX constrainedY) selectedObjects)).

(** [now] is the value of [Date.now()].  [None]: no object carries a selected
    id, the bounds stay infinite and the merged transform is not a finite
    number. *)
Definition handleMerge (now : nat) (a : AppState) : option AppState :=
  if (List.length (selectedIds a) <? 2)%nat then Some a
  else
    let selectedObjects :=
      filter (fun obj => includes (selectedIds a) (id obj)) (objects a) in
    let remainingObjects :=
      filter (fun obj => negb (includes (selectedIds a) (id obj)))
        (objects a) in
    let b := mergeBounds selectedObjects in
    match minX b, minY b, maxX b, maxY b with
    | Some bminX, Some bminY, Some bmaxX, Some bmaxY =>
        let merged :=
          mergedObject now selectedObjects bminX bminY bmaxX bmaxY in
        let newObjects := remainingObjects ++ [merged] in
        Some (setSelectedIds (updateObjects a newObjects) [id merged])
    | _, _, _, _ => None
    end.

Definition handleDelete (a : AppState) : AppState :=
  match selectedIds a with
  | [] => a
  | _ =>
      let newObjects :=
        filter (fun obj => negb (includes (selectedIds a) (id obj)))
          (objects a) in
      setSelectedIds (updateObjects a newObjects) []
  end.

(** [selectedObject], the object the properties panel edits. *)
Definition selectedObject (a : AppState) : option CanvasObject :=
  match selectedIds a with
  | [sel] => find (fun obj => String.eqb (id obj) sel) (objects a)
  | _ => None
  end.

(** The panel is rendered for a selected object unless the tool is the
    eraser or merge. *)
Definition panelShown (a : AppState) : option CanvasObject :=
  match currentTool a with
  | eraser | merge => None
  | _ => selectedObject a
  end.

(** The [onChange] handlers of the four transform inputs of
    RightPropertiesPanel.tsx; [v] is [Number(e.target.value)]. *)
Definition panelSetX (a : AppState) (v : R) : AppState :=
  match panelShown a with
  | Some o =>
      let t := transform o in
      handleObjectUpdate a
        (mkUpdates None None
           (Some (Transform.mk v (Transform.y t) (Transform.width t)
                    (Transform.height t) (Transform.rotation t)))
           None None None)
  | None => a
  end.

Definition panelSetY (a : AppState) (v : R) : AppState :=
  match panelShown a with
  | Some o =>
      let t := transform o in
      handleObjectUpdate a
        (mkUpdates None None
           (Some (Transform.mk (Transform.x t) v (Transform.width t)
                    (Transform.height t) (Transform.rotation t)))
           None None None)
  | None => a
  end.

Definition panelSetWidth (a : AppState) (v : R) : AppState :=
  match panelShown a with
  | Some o =>
      let t := transform o in
      handleObjectUpdate a
        (mkUpdates None None
           (Some (Transform.mk (Transform.x t) (Transform.y t) (Rmax 10 v)
                    (Transform.height t) (Transform.rotation t)))
           None None None)
  | None => a
  end.

Definition panelSetHeight (a : AppState) (v : R) : AppState :=
  match panelShown a with
  | Some o =>
      let t := transform o in
      handleObjectUpdate a
        (mkUpdates None None
           (Some (Transform.mk (Transform.x t) (Transform.y t)
                    (Transform.width t) (Rmax 10 v) (Transform.rotation t)))
           None None None)
  | None => a
  end.

(** ** Pointer interaction (Canvas.tsx) *)

(** The hooks of the [Canvas] component. *)
Record CanvasState := mkCanvas
  { isDrawing : bool;
    currentPath : list Point.t;
    dragStart : option Point.t;
    dragOffset : option Point.t;
    resizeHandle : option string;
    rotateStart : option Point.t;
    initialRotation : R;
    marqueeStart : option Point.t;
    marqueeCurrent : option Point.t;
    mousePosition : option Point.t;
    shapeStart : option Point.t;
    shapeCurrent : option Point.t }.

Definition initialCanvas : CanvasState :=
  mkCanvas false [] None None None None 0 None None None None None.

Definition setIsDrawing (c : CanvasState) (v : bool) : CanvasState :=
  mkCanvas v (currentPath c) (dragStart c) (dragOffset c) (resizeHandle c)
    (rotateStart c) (initialRotation c) (marqueeStart c) (marqueeCurrent c)
    (mousePosition c) (shapeStart c) (shapeCurrent c).

Definition setCurrentPath (c : CanvasState) (v : list Point.t) : CanvasState :=
  mkCanvas (isDrawing c) v (dragStart c) (dragOffset c) (resizeHandle c)
    (rotateStart c) (initialRotation c) (marqueeStart c) (marqueeCurrent c)
    (mousePosition c) (shapeStart c) (shapeCurrent c).

Definition setDragStart (c : CanvasState) (v : option Point.t) : CanvasState :=
  mkCanvas (isDrawing c) (currentPath c) v (dragOffset c) (resizeHandle c)
    (rotateStart c) (initialRotation c) (marqueeStart c) (marqueeCurrent c)
    (mousePosition c) (shapeStart c) (shapeCurrent c).

Definition setDragOffset (c : CanvasState) (v : option Point.t)
  : CanvasState :=
  mkCanvas (isDrawing c) (currentPath c) (dragStart c) v (resizeHandle c)
    (rotateStart c) (initialRotation c) (marqueeStart c) (marqueeCurrent c)
    (mousePosition c) (shapeStart c) (shapeCurrent c).

Definition setResizeHandle (c : CanvasState) (v : option string)
  : CanvasState :=
  mkCanvas (isDrawing c) (currentPath c) (dragStart c) (dragOffset c) v
    (rotateStart c) (initialRotation c) (marqueeStart c) (marqueeCurrent c)
    (mousePosition c) (shapeStart c) (shapeCurrent c).

Definition setRotateStart (c : CanvasState) (v : option Point.t)
  : CanvasState :=
  mkCanvas (isDrawing c) (currentPath c) (dragStart c) (dragOffset c)
    (resizeHandle c) v (initialRotation c) (marqueeStart c) (marqueeCurrent c)
    (mousePosition c) (shapeStart c) (shapeCurrent c).

Definition setInitialRotation (c : CanvasState) (v : R) : CanvasState :=
  mkCanvas (isDrawing c) (currentPath c) (dragStart c) (dragOffset c)
    (resizeHandle c) (rotateStart c) v (marqueeStart c) (marqueeCurrent c)
    (mousePosition c) (shapeStart c) (shapeCurrent c).

Definition setMarqueeStart (c : CanvasState) (v : option Point.t)
  : CanvasState :=
  mkCanvas (isDrawing c) (currentPath c) (dragStart c) (dragOffset c)
    (resizeHandle c) (rotateStart c) (initialRotation c) v (marqueeCurrent c)
    (mousePosition c) (shapeStart c) (shapeCurrent c).

Definition setMarqueeCurrent (c : CanvasState) (v : option Point.t)
  : CanvasState :=
  mkCanvas (isDrawing c) (currentPath c) (dragStart c) (dragOffset c)
    (resizeHandle c) (rotateStart c) (initialRotation c) (marqueeStart c) v
    (mousePosition c) (shapeStart c) (shapeCurrent c).

Definition setMousePosition (c : CanvasState) (v : option Point.t)
  : CanvasState :=
  mkCanvas (isDrawing c) (currentPath c) (dragStart c) (dragOffset c)
    (resizeHandle c) (rotateStart c) (initialRotation c) (marqueeStart c)
    (marqueeCurrent c) v (shapeStart c) (shapeCurrent c).

Definition setShapeStart (c : CanvasState) (v : option Point.t)
  : CanvasState :=
  mkCanvas (isDrawing c) (currentPath c) (dragStart c) (dragOffset c)
    (resizeHandle c) (rotateStart c) (initialRotation c) (marqueeStart c)
    (marqueeCurrent c) (mousePosition c) v (shapeCurrent c).

Definition setShapeCurrent (c : CanvasState) (v : option Point.t)
  : CanvasState :=
  mkCanvas (isDrawing c) (currentPath c) (dragStart c) (dragOffset c)
    (resizeHandle c) (rotateStart c) (initialRotation c) (marqueeStart c)
    (marqueeCurrent c) (mousePosition c) (shapeStart c) v.

(** A mouse event, with [getCanvasCoords(e)] already applied. *)
Record MouseEvent := mkEvent
  { pos : Point.t; ctrlKey : bool; metaKey : bool }.

(** What a handler reads from outside the state: [Date.now()] and the
    successive values of [Math.random()]. *)
Record Env := mkEnv { now : nat; random : nat -> R }.

Definition isShapeTool (t : Tool) : bool :=
  match t with
  | rectangle | circle | triangle | polygon | star | line => true
  | _ => false
  end.

(** [currentTool as any] used as an object type: the cast is only evaluated
    under [isShapeTool], where the tool and the type have the same name. *)
Definition toolType (t : Tool) : ObjType.t :=
  match t with
  | rectangle => ObjType.rectangle
  | circle => ObjType.circle
  | triangle => ObjType.triangle
  | polygon => ObjType.polygon
  | star => ObjType.star
  | line => ObjType.line
  | merge => ObjType.merged
  | brush | eraser | select => ObjType.drawn
  end.

(** The text of a tool inside an id. *)
Definition toolName (t : Tool) : string :=
  match t with
  | select => "select" | brush => "brush" | eraser => "eraser"
  | rectangle => "rectangle" | circle => "circle" | triangle => "triangle"
  | line => "line" | polygon => "polygon" | star => "star"
  | merge => "merge"
  end.

(** [objects.find(obj => selectedIds.includes(obj.id))]. *)
Definition firstSelected (a : AppState) : option CanvasObject :=
  find (fun obj => includes (selectedIds a) (id obj)) (objects a).

(** The eight resize handles, in the order they are tested. *)
Definition resizeHandles (width height : R) : list (Point.t * string) :=
  [ (Point.mk 0 0, "nw"); (Point.mk (width / 2) 0, "n");
    (Point.mk width 0, "ne"); (Point.mk width (height / 2), "e");
    (Point.mk width height, "se"); (Point.mk (width / 2) height, "s");
    (Point.mk 0 height, "sw"); (Point.mk 0 (height / 2), "w") ]%string.

(** The part of the select branch of [handleMouseDown] after the handle and
    drag tests: pick the topmost object under the pointer, or start a
    marquee. *)
Definition clickSelect (a : AppState) (c : CanvasState) (e : MouseEvent)
  : AppState * CanvasState :=
  let p := pos e in
  match find (isPointInObject (Point.x p) (Point.y p)) (rev (objects a)) with
  | Some clickedObj =>
      if ctrlKey e || metaKey e then
        if includes (selectedIds a) (id clickedObj) then
          (setSelectedIds a
             (filter (fun i => negb (String.eqb i (id clickedObj)))
                (selectedIds a)), c)
        else (setSelectedIds a (selectedIds a ++ [id clickedObj]), c)
      else
        (setSelectedIds a [id clickedObj],
         setDragOffset (setDragStart c (Some p))
           (Some (Point.mk
                    (Point.x p - Transform.x (transform clickedObj))
                    (Point.y p - Transform.y (transform clickedObj)))))
  | None =>
      let a' := if negb (ctrlKey e) && negb (metaKey e)
                then setSelectedIds a [] else a in
      (a', setMarqueeCurrent (setMarqueeStart c (Some p)) (Some p))
  end.

Definition handleMouseDown (a : AppState) (c : CanvasState) (e : MouseEvent)
  : AppState * CanvasState :=
  let p := pos e in
  if Rltb (Point.x p) 0 || Rgtb (Point.x p) CANVAS_WIDTH
     || Rltb (Point.y p) 0 || Rgtb (Point.y p) CANVAS_HEIGHT
  then (a, c)
  else
    match currentTool a with
    | brush | eraser => (a, setCurrentPath (setIsDrawing c true) [p])
    | select =>
        match firstSelected a with
        | Some selected =>
            let x := Transform.x (transform selected) in
            let y := Transform.y (transform selected) in
            let width := Transform.width (transform selected) in
            let height := Transform.height (transform selected) in
            let handleSize := 8 in
            let localPos :=
              transformPointToObjectSpace (Point.x p) (Point.y p) selected in
            let rotHandleLocalX := width / 2 in
            let rotHandleLocalY := -30 in
            if Rltb (Rabs (Point.x localPos - rotHandleLocalX)) 10
               && Rltb (Rabs (Point.y localPos - rotHandleLocalY)) 10
            then
              (a, setInitialRotation
                    (setDragStart
                       (setRotateStart
                          (setResizeHandle c (Some "rotate"%string))
                          (Some p))
                       (Some p))
                    (Transform.rotation (transform selected)))
            else
              match
                find (fun h =>
                        Rltb (Rabs (Point.x localPos - Point.x (fst h)))
                             (handleSize * 1.5)
                        && Rltb (Rabs (Point.y localPos - Point.y (fst h)))
                                (handleSize * 1.5))
                     (resizeHandles width height)
              with
              | Some h =>
                  (a, setDragStart (setResizeHandle c (Some (snd h)))
                        (Some p))
              | None =>
                  if isPointInObject (Point.x p) (Point.y p) selected then
                    (a, setDragOffset (setDragStart c (Some p))
                          (Some (Point.mk (Point.x p - x) (Point.y p - y))))
                  else clickSelect a c e
              end
        | None => clickSelect a c e
        end
    | rectangle | circle | triangle | polygon | star | line =>
        (a, setShapeCurrent (setShapeStart c (Some p)) (Some p))
    | merge => (a, c)
    end.

(** The resize branch of [handleMouseMove], first part: the fields of
    [newTransform] after the edges named by the handle moved by the pointer
    delta. *)
Definition movedEdges (handle : string) (t : Transform.t) (dx dy : R)
  : Rect.t :=
  let n := str_includes handle "n" in
  let s := str_includes handle "s" in
  let w := str_includes handle "w" in
  let e := str_includes handle "e" in
  let y1 := if n then Transform.y t + dy else Transform.y t in
  let h1 := if n then Transform.height t - dy else Transform.height t in
  let h2 := if s then h1 + dy else h1 in
  let x1 := if w then Transform.x t + dx else Transform.x t in
  let w1 := if w then Transform.width t - dx else Transform.width t in
  let w2 := if e then w1 + dx else w1 in
  Rect.mk x1 y1 w2 h2.

(** Second part: the 10-unit minimum, then [constrainToCanvas]. *)
Definition resizeTransform (handle : string) (t : Transform.t) (dx dy : R)
  : Transform.t :=
  let m := movedEdges handle t dx dy in
  let w3 := if Rltb (Rect.width m) 10 then 10 else Rect.width m in
  let h3 := if Rltb (Rect.height m) 10 then 10 else Rect.height m in
  let constrained := constrainToCanvas (Rect.x m) (Rect.y m) w3 h3 in
  Transform.mk (Rect.x constrained) (Rect.y constrained)
    (Rect.width constrained) (Rect.height constrained) (Transform.rotation t).

(** The resized object: a drawn path is rescaled about the old origin. *)
Definition resizeObject (obj : CanvasObject)
    (oldTransform newTransform : Transform.t) : CanvasObject :=
  match isType obj ObjType.drawn, Data.path (data obj) with
  | true, Some path =>
      let scaleX := Transform.width newTransform
                    / Transform.width oldTransform in
      let scaleY := Transform.height newTransform
                    / Transform.height oldTransform in
      let offsetX := Transform.x newTransform - Transform.x oldTransform in
      let offsetY := Transform.y newTransform - Transform.y oldTransform in
      let newPath :=
        map (fun point =>
               Point.mk
                 (Transform.x oldTransform
                  + (Point.x point - Transform.x oldTransform) * scaleX
                  + offsetX)
                 (Transform.y oldTransform
                  + (Point.y point - Transform.y oldTransform) * scaleY
                  + offsetY))
            path in
      mkObj (id obj) (type obj) newTransform (style obj)
        (dataWithPath (data obj) newPath) (children obj)
  | _, _ => withTransform obj newTransform
  end.

(** The moved object of the drag branch. *)
Definition moveObject (obj : CanvasObject) (constrained : Rect.t)
    (deltaX deltaY : R) : CanvasObject :=
  let moved :=
    transformWithXY (transform obj) (Rect.x constrained)
      (Rect.y constrained) in
  match isType obj ObjType.merged, children obj with
  | true, Some _ => withTransform obj moved
  | _, _ =>
      match isType obj ObjType.drawn, Data.path (data obj) with
      | true, Some path =>
          let newPath :=
            map (fun point =>
                   Point.mk (Point.x point + deltaX) (Point.y point + deltaY))
                path in
          mkObj (id obj) (type obj) moved (style obj)
            (dataWithPath (data obj) newPath) (children obj)
      | _, _ => withTransform obj moved
      end
  end.

(** The select branch of [handleMouseMove] once a selected object is found.
    [None]: [dragOffset] is [null] and reading its [x] throws. *)
Definition dragSelected (a : AppState) (c : CanvasState) (p start : Point.t)
    (selected : CanvasObject) : option (AppState * CanvasState) :=
  let st := transform selected in
  let onSelected (f : CanvasObject -> CanvasObject) :=
    map (fun obj => if String.eqb (id obj) (id selected) then f obj else obj)
      (objects a) in
  let move :=
    match dragOffset c with
    | Some off =>
        let newX := Point.x p - Point.x off in
        let newY := Point.y p - Point.y off in
        let constrained :=
          constrainToCanvas newX newY (Transform.width st)
            (Transform.height st) in
        let deltaX := Rect.x constrained - Transform.x st in
        let deltaY := Rect.y constrained - Transform.y st in
        Some (updateObjects a
                (onSelected (fun obj =>
                               moveObject obj constrained deltaX deltaY)),
              c)
    | None => None
    end in
  match resizeHandle c with
  | Some handle =>
      if String.eqb handle "" then move
      else if String.eqb handle "rotate" then
        let centerX := Transform.x st + Transform.width st / 2 in
        let centerY := Transform.y st + Transform.height st / 2 in
        let angle :=
          atan2 (Point.y p - centerY) (Point.x p - centerX) * (180 / PI)
          + 90 in
        Some (updateObjects a
                (onSelected (fun obj =>
                               withTransform obj
                                 (transformWithRotation (transform obj)
                                    angle))),
              c)
      else
        let dx := Point.x p - Point.x start in
        let dy := Point.y p - Point.y start in
        let oldTransform := st in
        let newTransform := resizeTransform handle st dx dy in
        Some (updateObjects a
                (onSelected (fun obj =>
                               resizeObject obj oldTransform newTransform)),
              setDragStart c (Some p))
  | None => move
  end.

(** The state changes made at the start of every [handleMouseMove]:
    [setMarqueeCurrent(pos)], [setMousePosition(pos)] and, while a shape
    is drafted, [setShapeCurrent(pos)]. *)
Definition trackPointer (c : CanvasState) (p : Point.t) : CanvasState :=
  let c1 := setMousePosition (setMarqueeCurrent c (Some p)) (Some p) in
  match shapeStart c with
  | Some _ => setShapeCurrent c1 (Some p)
  | None => c1
  end.

Definition handleMouseMove (a : AppState) (c : CanvasState) (e : MouseEvent)
  : option (AppState * CanvasState) :=
  let p := pos e in
  let c2 := trackPointer c p in
  if tool_eqb (currentTool a) brush && isDrawing c then
    Some (a, setCurrentPath c2 (currentPath c ++ [p]))
  else if tool_eqb (currentTool a) eraser && isDrawing c then
    let newObjects :=
      map (fun obj =>
             if isPointInObject (Point.x p) (Point.y p) obj
             then applyEraserToObject obj (currentPath c) p (eraserSize a)
                    None
             else obj)
          (objects a) in
    Some (updateObjects a newObjects, setCurrentPath c2 [p])
  else
    match tool_eqb (currentTool a) select, dragStart c, selectedIds a,
          marqueeStart c with
    | true, Some start, _ :: _, None =>
        match firstSelected a with
        | Some selected => dragSelected a c2 p start selected
        | None => Some (a, c2)
        end
    | _, _, _, _ => Some (a, c2)
    end.

(** The bounding-box [forEach] over the drawn path at brush commit. *)
Definition pathBounds (path : list Point.t) : Bounds :=
  fold_left
    (fun b p =>
       mkBounds (accMin (minX b) (Point.x p)) (accMin (minY b) (Point.y p))
                (accMax (maxX b) (Point.x p)) (accMax (maxY b) (Point.y p)))
    path noBounds.

(** The object created at brush commit. *)
Definition drawnObject (env : Env) (a : AppState) (path : list Point.t)
    (bminX bminY bmaxX bmaxY : R) : CanvasObject :=
  let padding := brushSize a in
  let objectX := bminX - padding in
  let objectY := bminY - padding in
  let sprayParticles :=
    match brushType a with
    | spray =>
        Some (generateSprayParticles (random env) path (brushSize a) objectX
                objectY)
    | _ => None
    end in
  mkObj ("drawn-" ++ showNat (now env)) ObjType.drawn
    (Transform.mk objectX objectY (bmaxX - bminX + padding * 2)
       (bmaxY - bminY + padding * 2) 0)
    (Style.mk (brushColor a) "transparent" (brushSize a)
       (Some (brushOpacity a)))
    (Data.mk (Some path) (Some (brushType a)) sprayParticles (Some []) None
       None None)
    None.

(** The object created at shape commit. *)
Definition shapeObject (env : Env) (tool : Tool) (constrained : Rect.t)
  : CanvasObject :=
  mkObj (toolName tool ++ "-" ++ showNat (now env)) (toolType tool)
    (Transform.mk (Rect.x constrained) (Rect.y constrained)
       (Rect.width constrained) (Rect.height constrained) 0)
    (Style.mk "#000000"
       (match tool with line => "transparent" | _ => "#e0e0e0" end)
       2 None)
    (Data.mk None None None (Some []) None None None)
    None.

(** The state changes made at the end of every [handleMouseUp]. *)
Definition releasePointer (c : CanvasState) : CanvasState :=
  setRotateStart
    (setResizeHandle (setDragStart (setIsDrawing c false) None) None) None.

(** [None]: the path bounds are not finite, which the guard on the length of
    the path excludes. *)
Definition handleMouseUp (env : Env) (a : AppState) (c : CanvasState)
    (e : MouseEvent) : option (AppState * CanvasState) :=
  if tool_eqb (currentTool a) brush && isDrawing c
     && (1 <? List.length (currentPath c))%nat
  then
    let b := pathBounds (currentPath c) in
    match minX b, minY b, maxX b, maxY b with
    | Some bminX, Some bminY, Some bmaxX, Some bmaxY =>
        let newObject :=
          drawnObject env a (currentPath c) bminX bminY bmaxX bmaxY in
        Some (updateObjects a (objects a ++ [newObject]),
              releasePointer (setCurrentPath c []))
    | _, _, _, _ => None
    end
  else
    match isShapeTool (currentTool a), shapeStart c, shapeCurrent c with
    | true, Some sStart, Some sCurrent =>
        let x := Rmin (Point.x sStart) (Point.x sCurrent) in
        let y := Rmin (Point.y sStart) (Point.y sCurrent) in
        let width := Rabs (Point.x sCurrent - Point.x sStart) in
        let height := Rabs (Point.y sCurrent - Point.y sStart) in
        let a' :=
          if Rgtb width 10 && Rgtb height 10 then
            let constrained := constrainToCanvas x y width height in
            updateObjects a
              (objects a ++ [shapeObject env (currentTool a) constrained])
          else a in
        Some (a', releasePointer (setShapeCurrent (setShapeStart c None) None))
    | _, _, _ =>
        match tool_eqb (currentTool a) select
              || tool_eqb (currentTool a) merge,
              marqueeStart c, marqueeCurrent c with
        | true, Some mStart, Some mCurrent =>
            let x1 := Rmin (Point.x mStart) (Point.x mCurrent) in
            let y1 := Rmin (Point.y mStart) (Point.y mCurrent) in
            let x2 := Rmax (Point.x mStart) (Point.x mCurrent) in
            let y2 := Rmax (Point.y mStart) (Point.y mCurrent) in
            let selectedObjects :=
              filter (fun obj =>
                        let t := transform obj in
                        Rgeb (Transform.x t) x1 && Rgeb (Transform.y t) y1
                        && Rleb (Transform.x t + Transform.width t) x2
                        && Rleb (Transform.y t + Transform.height t) y2)
                     (objects a) in
            let a' :=
              if ctrlKey e || metaKey e then
                let newIds :=
                  filter (fun i => negb (includes (selectedIds a) i))
                    (map id selectedObjects) in
                setSelectedIds a (selectedIds a ++ newIds)
              else setSelectedIds a (map id selectedObjects) in
            Some (a', releasePointer
                        (setMarqueeCurrent (setMarqueeStart c None) None))
        | _, _, _ => Some (a, releasePointer c)
        end
    end.

(** [onMouseLeave]. *)
Definition handleMouseLeave (c : CanvasState) : CanvasState :=
  setMousePosition (setMarqueeCurrent c None) None.

(** ** The resize branch in binary64

    The arithmetic of the resize branch of [handleMouseMove] on one
    coordinate, with the program's own IEEE doubles. *)
Module Double.
Import PrimFloat.
#[local] Open Scope float_scope.

(** [newTransform.width += dx], the east handle. *)
Definition eastWidth (width dx : float) : float := width + dx.

(** One coordinate of [newPath]:
    [oldTransform.x + (point.x - oldTransform.x) * scaleX + offsetX]. *)
Definition newPathCoord (oldX oldWidth newX newWidth point : float) : float :=
  let scaleX := newWidth / oldWidth in
  let offsetX := newX - oldX in
  oldX + (point - oldX) * scaleX + offsetX.

(** A drawn object with rect (10, 10, 20, 30) and a path point of abscissa
    17: the abscissa after the east handle went from 30 to 32 and back
    to 30. *)
Definition pathX : float := 17.

Definition roundTripX : float :=
  let dx1 := 32 - 30 in
  let width1 := eastWidth 20 dx1 in
  let point1 := newPathCoord 10 20 10 width1 pathX in
  let dx2 := 30 - 32 in
  let width2 := eastWidth width1 dx2 in
  newPathCoord 10 width1 10 width2 point1.
End Double.

(** ** Zoom and image import (App.tsx) *)

Definition setZoom (a : AppState) (v : R) : AppState :=
  mkApp (currentTool a) (objects a) (selectedIds a) v (history a)
    (historyIndex a) (eraserSize a) (brushSize a) (brushColor a)
    (brushType a) (brushOpacity a).

Definition handleZoomIn (a : AppState) : AppState :=
  setZoom a (Rmin 200 (zoom a + 10)).

Definition handleZoomOut (a : AppState) : AppState :=
  setZoom a (Rmax 50 (zoom a - 10)).

Definition handleResetZoom (a : AppState) : AppState := setZoom a 100.

(** The size given to an imported image of native size
    [imgWidth] x [imgHeight]: at most 400 on each side. *)
Definition imageSize (imgWidth imgHeight : R) : R * R :=
  let maxSize := 400 in
  if Rgtb imgWidth maxSize || Rgtb imgHeight maxSize then
    let ratio := Rmin (maxSize / imgWidth) (maxSize / imgHeight) in
    (imgWidth * ratio, imgHeight * ratio)
  else (imgWidth, imgHeight).

(** [newObject] of [img.onload] in [handleOpenImage]. *)
Definition imageObject (now : nat) (url : string) (imgWidth imgHeight : R)
  : CanvasObject :=
  let width := fst (imageSize imgWidth imgHeight) in
  let height := snd (imageSize imgWidth imgHeight) in
  mkObj ("image-" ++ showNat now) ObjType.image
    (Transform.mk ((1200 - width) / 2) ((800 - height) / 2) width height 0)
    (Style.mk "transparent" "transparent" 0 (Some 1))
    (Data.mk None None None (Some []) (Some url) (Some imgWidth)
       (Some imgHeight))
    None.

(** The [img.onload] callback of [handleOpenImage], once the file is read
    and decoded: [url] is the data URL, [imgWidth] and [imgHeight] the
    native size of the image.  The callback commits on the [objects],
    [history] and [historyIndex] of the render in which the file was picked
    (the dependencies of the [useCallback]s): [a] holds those. *)
Definition handleImageLoaded (now : nat) (a : AppState) (url : string)
    (imgWidth imgHeight : R) : AppState :=
  let newObject := imageObject now url imgWidth imgHeight in
  setSelectedIds (updateObjects a (objects a ++ [newObject])) [id newObject].

(** [handleOpenImage] from the pick of the file to the end of
    [img.onload]: [picked] is the state when the file was picked, [live]
    the state when the image has loaded.  The four setters called write the
    objects, the history, its index and the selection; every other piece of
    state is the live one. *)
Definition handleOpenImage (now : nat) (picked live : AppState)
    (url : string) (imgWidth imgHeight : R) : AppState :=
  let r := handleImageLoaded now picked url imgWidth imgHeight in
  mkApp (currentTool live) (objects r) (selectedIds r) (zoom live)
    (history r) (historyIndex r) (eraserSize live) (brushSize live)
    (brushColor live) (brushType live) (brushOpacity live).

(** ** What is drawn (Canvas.tsx)

    The drawing code talks to a canvas context.  Its transform calls are
    read with the meaning the Canvas 2D interface gives them: after
    [translate(cx, cy)], [rotate(a)], [scale(sx, sy)], [translate(-u0, -v0)]
    a point [(u, v)] of the local frame is painted at
    [cx + (u - u0) sx cos a - (v - v0) sy sin a,
     cy + (u - u0) sx sin a + (v - v0) sy cos a]. *)

(** Where [drawObject] and [drawSelectionBox] paint the local point [l] of a
    regular object: [translate(x + width/2, y + height/2)],
    [rotate(rotation * PI / 180)], [translate(-width/2, -height/2)]. *)
Definition objectToCanvas (obj : CanvasObject) (l : Point.t) : Point.t :=
  let x := Transform.x (transform obj) in
  let y := Transform.y (transform obj) in
  let width := Transform.width (transform obj) in
  let height := Transform.height (transform obj) in
  let angle := Transform.rotation (transform obj) * PI / 180 in
  let u := Point.x l - width / 2 in
  let v := Point.y l - height / 2 in
  Point.mk (x + width / 2 + (u * cos angle - v * sin angle))
           (y + height / 2 + (u * sin angle + v * cos angle)).

(** Where [drawObject] paints the point [q] of the local frame of a merged
    object: translate to the centre, rotate, scale by current over original
    size, translate by minus half the original size.  For a top-level
    object the result is a point of the canvas; for a child of a merged
    object, which [drawObject] paints by calling itself inside the frame of
    its parent, it is a point of the parent's frame. *)
Definition groupToCanvas (obj : CanvasObject) (q : Point.t) : Point.t :=
  let x := Transform.x (transform obj) in
  let y := Transform.y (transform obj) in
  let width := Transform.width (transform obj) in
  let height := Transform.height (transform obj) in
  let originalWidth := orNumber (Data.originalWidth (data obj)) width in
  let originalHeight := orNumber (Data.originalHeight (data obj)) height in
  let scaleX := width / originalWidth in
  let scaleY := height / originalHeight in
  let angle := Transform.rotation (transform obj) * PI / 180 in
  let u := (Point.x q - originalWidth / 2) * scaleX in
  let v := (Point.y q - originalHeight / 2) * scaleY in
  Point.mk (x + width / 2 + (u * cos angle - v * sin angle))
           (y + height / 2 + (u * sin angle + v * cos angle)).

(** A filled circle, in the frame it is painted in. *)
Module Circle.
Record t := mk { x : R; y : R; radius : R }.
End Circle.



(** The eight squares [drawSelectionBox] paints, as (left, top, id); each is
    [handleSize] = 8 wide and high. *)
Definition drawnHandles (width height : R) : list (Point.t * string) :=
  let handleSize := 8 in
  [ (Point.mk (- handleSize / 2) (- handleSize / 2), "nw");
    (Point.mk (width / 2 - handleSize / 2) (- handleSize / 2), "n");
    (Point.mk (width - handleSize / 2) (- handleSize / 2), "ne");
    (Point.mk (width - handleSize / 2) (height / 2 - handleSize / 2), "e");
    (Point.mk (width - handleSize / 2) (height - handleSize / 2), "se");
    (Point.mk (width / 2 - handleSize / 2) (height - handleSize / 2), "s");
    (Point.mk (- handleSize / 2) (height - handleSize / 2), "sw");
    (Point.mk (- handleSize / 2) (height / 2 - handleSize / 2), "w")
  ]%string.





(** * Vocabulary of the statements *)

(** An index that points into the history; every operation of the program
    keeps it so. *)
Definition historyOk (a : AppState) : Prop :=
  (historyIndex a < List.length (history a))%nat.

(** The size and canvas invariant: at least 10x10 and inside the canvas. *)
Definition fitsCanvas (x y w h : R) : Prop :=
  10 <= w /\ 10 <= h /\
  0 <= x /\ x + w <= CANVAS_WIDTH /\ 0 <= y /\ y + h <= CANVAS_HEIGHT.

Definition transformOk (t : Transform.t) : Prop :=
  fitsCanvas (Transform.x t) (Transform.y t) (Transform.width t)
    (Transform.height t).

Definition rectOk (r : Rect.t) : Prop :=
  fitsCanvas (Rect.x r) (Rect.y r) (Rect.width r) (Rect.height r).

(** Every top-level object is at least 10x10 and inside the canvas. *)
Definition sceneOk (objs : list CanvasObject) : Prop :=
  Forall (fun o => transformOk (transform o)) objs.

(** [m] is the least (greatest) of the values [f o] for [o] in [l]. *)
Definition isMinOf {A : Type} (f : A -> R) (l : list A) (m : R) : Prop :=
  (exists o, In o l /\ f o = m) /\ forall o, In o l -> m <= f o.

Definition isMaxOf {A : Type} (f : A -> R) (l : list A) (m : R) : Prop :=
  (exists o, In o l /\ f o = m) /\ forall o, In o l -> f o <= m.

(** [p1] and [p2] are the two ends of a segment of [path]. *)
Definition consecutive (p1 p2 : Point.t) (path : list Point.t) : Prop :=
  exists l1 l2, path = l1 ++ p1 :: p2 :: l2.

(** An object that takes the group branch of [applyEraserToObject]: a merged
    object that has children.  Every other object takes the regular
    branch. *)
Definition isGroup (obj : CanvasObject) : bool :=
  match isType obj ObjType.merged, children obj with
  | true, Some _ => true
  | _, _ => false
  end.

(** Following child indices down from an object. *)
Fixpoint descend (idxs : list nat) (obj : CanvasObject)
  : option CanvasObject :=
  match idxs with
  | [] => Some obj
  | i :: rest =>
      match children obj with
      | Some cs =>
          match nth_error cs i with
          | Some child => descend rest child
          | None => None
          end
      | None => None
      end
  end.

(** [Resolves p pt obj idxs ancs leaf ptl]: called on [obj] with parent
    transform [pt], the recursion of [applyEraserToObject] for the eraser
    position [p] goes down the child indices [idxs] through the groups
    [ancs] (outermost first), each time into a child that is hit, and reaches
    the regular object [leaf] with parent transform [ptl]. *)
Inductive Resolves (p : Point.t)
  : option ParentTransform.t -> CanvasObject -> list nat ->
    list CanvasObject -> CanvasObject -> option ParentTransform.t -> Prop :=
| resolves_here (pt : option ParentTransform.t) (obj : CanvasObject) :
    isGroup obj = false -> Resolves p pt obj [] [] obj pt
| resolves_child (pt : option ParentTransform.t) (obj : CanvasObject)
    (cs : list CanvasObject) (i : nat) (child : CanvasObject)
    (idxs : list nat) (ancs : list CanvasObject) (leaf : CanvasObject)
    (ptl : option ParentTransform.t) :
    isType obj ObjType.merged = true ->
    children obj = Some cs ->
    nth_error cs i = Some child ->
    childHit (groupLocal obj (groupAbs obj pt) p) child = true ->
    Resolves p (Some (groupAbs obj pt)) child idxs ancs leaf ptl ->
    Resolves p pt obj (i :: idxs) (obj :: ancs) leaf ptl.

(** The scale factor of a group in the specification's words: the current
    size over the size recorded at merge time.  (The program computes
    [groupScaleX] and [groupScaleY], which fall back to the current size
    when no original size is recorded.) *)
Definition recordedWidth (g : CanvasObject) : R :=
  match Data.originalWidth (data g) with Some v => v | None => 0 end.

Definition recordedHeight (g : CanvasObject) : R :=
  match Data.originalHeight (data g) with Some v => v | None => 0 end.

Definition ratioX (g : CanvasObject) : R :=
  Transform.width (transform g) / recordedWidth g.

Definition ratioY (g : CanvasObject) : R :=
  Transform.height (transform g) / recordedHeight g.

(** A group that carries a non-zero original size, as every group built by
    [handleMerge] from objects of positive size does. *)
Definition hasOriginalSize (g : CanvasObject) : Prop :=
  recordedWidth g <> 0 /\ recordedHeight g <> 0.

(** The composed scale of a chain of ancestors. *)
Definition chainScaleX (ancs : list CanvasObject) : R :=
  fold_right (fun g acc => ratioX g * acc) 1 ancs.

Definition chainScaleY (ancs : list CanvasObject) : R :=
  fold_right (fun g acc => ratioY g * acc) 1 ancs.

(** The scale a parent transform carries; 1 at the top level. *)
Definition parentScaleX (pt : option ParentTransform.t) : R :=
  match pt with Some t => ParentTransform.scaleX t | None => 1 end.

Definition parentScaleY (pt : option ParentTransform.t) : R :=
  match pt with Some t => ParentTransform.scaleY t | None => 1 end.

(** What [handleMerge] makes of one selected object: the object itself,
    shifted by minus the origin of the group. *)
Definition shiftedBy (gx gy : R) (o c : CanvasObject) : Prop :=
  id c = id o /\ type c = type o /\ style c = style o /\
  children c = children o /\
  transform c =
    Transform.mk (Transform.x (transform o) - gx)
      (Transform.y (transform o) - gy) (Transform.width (transform o))
      (Transform.height (transform o)) (Transform.rotation (transform o)) /\
  Data.path (data c) =
    (if isType o ObjType.drawn
     then option_map
            (map (fun q => Point.mk (Point.x q - gx) (Point.y q - gy)))
            (Data.path (data o))
     else Data.path (data o)) /\
  Data.brushType (data c) = Data.brushType (data o) /\
  Data.sprayParticles (data c) = Data.sprayParticles (data o) /\
  Data.erasedAreas (data c) = Data.erasedAreas (data o) /\
  Data.imageUrl (data c) = Data.imageUrl (data o) /\
  Data.originalWidth (data c) = Data.originalWidth (data o) /\
  Data.originalHeight (data c) = Data.originalHeight (data o).

(** The live scene is the snapshot the history index points at. *)
Definition historySynced (a : AppState) : Prop :=
  nth_error (history a) (historyIndex a) = Some (mkHistory (objects a)).

(** Every node met strictly before the end of the path [idxs] is a group. *)
Fixpoint groupPath (idxs : list nat) (obj : CanvasObject) : Prop :=
  match idxs with
  | [] => True
  | i :: rest =>
      isGroup obj = true /\
      match children obj with
      | Some cs =>
          match nth_error cs i with
          | Some child => groupPath rest child
          | None => True
          end
      | None => True
      end
  end.

(** [q] lies on the segment from [p1] to [p2]. *)
Definition onSegment (q p1 p2 : Point.t) : Prop :=
  exists t, 0 <= t <= 1 /\
    Point.x q = Point.x p1 + t * (Point.x p2 - Point.x p1) /\
    Point.y q = Point.y p1 + t * (Point.y p2 - Point.y p1).

(** The rect of an object lies inside the marquee from [s] to [q]. *)
Definition insideMarquee (s q : Point.t) (o : CanvasObject) : Prop :=
  Rmin (Point.x s) (Point.x q) <= Transform.x (transform o) /\
  Rmin (Point.y s) (Point.y q) <= Transform.y (transform o) /\
  Transform.x (transform o) + Transform.width (transform o)
    <= Rmax (Point.x s) (Point.x q) /\
  Transform.y (transform o) + Transform.height (transform o)
    <= Rmax (Point.y s) (Point.y q).

(** The local point [l] lies in the 8x8 square painted at [(left, top)]. *)
Definition inHandleSquare (l corner : Point.t) : Prop :=
  Point.x corner <= Point.x l <= Point.x corner + 8 /\
  Point.y corner <= Point.y l <= Point.y corner + 8.

(** A position inside the canvas, where [handleMouseDown] listens. *)
Definition onCanvas (p : Point.t) : Prop :=
  0 <= Point.x p <= CANVAS_WIDTH /\ 0 <= Point.y p <= CANVAS_HEIGHT.

(** What the rounding of the program's doubles is absorbed by: a millionth
    of a canvas unit. *)
Definition roundingSlack : R := 1 / 1000000.

Definition near (u v : R) : Prop := Rabs (u - v) <= roundingSlack.

Definition nearPoint (p q : Point.t) : Prop :=
  near (Point.x p) (Point.x q) /\ near (Point.y p) (Point.y q).

Definition nearRect (t u : Transform.t) : Prop :=
  near (Transform.x t) (Transform.x u) /\
  near (Transform.y t) (Transform.y u) /\
  near (Transform.width t) (Transform.width u) /\
  near (Transform.height t) (Transform.height u).

(** A number without a fractional part. *)
Definition isInteger (r : R) : Prop := exists z : Z, r = IZR z.

(** A resize gesture on integers: the rect of the object and the pointer
    positions. *)
Definition integerGesture (t : Transform.t) (p q : Point.t) : Prop :=
  isInteger (Transform.x t) /\ isInteger (Transform.y t) /\
  isInteger (Transform.width t) /\ isInteger (Transform.height t) /\
  isInteger (Point.x p) /\ isInteger (Point.y p) /\
  isInteger (Point.x q) /\ isInteger (Point.y q).

(** A rect of non-negative size inside the canvas. *)
Definition rectOnCanvas (t : Transform.t) : Prop :=
  0 <= Transform.width t /\ 0 <= Transform.height t /\
  0 <= Transform.x t /\
  Transform.x t + Transform.width t <= CANVAS_WIDTH /\
  0 <= Transform.y t /\
  Transform.y t + Transform.height t <= CANVAS_HEIGHT.

(** Two data records that agree on every key but [path]. *)
Definition sameButPath (d d2 : Data.t) : Prop :=
  Data.brushType d2 = Data.brushType d /\
  Data.sprayParticles d2 = Data.sprayParticles d /\
  Data.erasedAreas d2 = Data.erasedAreas d /\
  Data.imageUrl d2 = Data.imageUrl d /\
  Data.originalWidth d2 = Data.originalWidth d /\
  Data.originalHeight d2 = Data.originalHeight d.

(** [Keeps P l l']: [l'] is [l] with exactly the elements that satisfy [P]
    kept, each as often as it occurs and in the order of [l]. *)
Inductive Keeps {A : Type} (P : A -> Prop) : list A -> list A -> Prop :=
| keeps_nil : Keeps P [] []
| keeps_in (x : A) (l l' : list A) :
    P x -> Keeps P l l' -> Keeps P (x :: l) (x :: l')
| keeps_out (x : A) (l l' : list A) :
    ~ P x -> Keeps P l l' -> Keeps P (x :: l) l'.

(** A run of pointer moves, each handled in the state the one before it
    left; [None] once a handler has thrown. *)
Definition moveAll (st : option (AppState * CanvasState))
    (moves : list MouseEvent) : option (AppState * CanvasState) :=
  fold_left
    (fun st m =>
       match st with
       | Some (a', c') => handleMouseMove a' c' m
       | None => None
       end)
    moves st.

(** * Sample scenes *)

(** A rectangle as a shape commit creates it, and a group as a merge
    creates it. *)
Definition sampleRect (name : string) (x y w h : R) : CanvasObject :=
  mkObj name ObjType.rectangle (Transform.mk x y w h 0)
    (Style.mk "#000000" "#e0e0e0" 2 None)
    (Data.mk None None None (Some []) None None None) None.

Definition sampleGroup (name : string) (x y w h ow oh : R)
    (cs : list CanvasObject) : CanvasObject :=
  mkObj name ObjType.merged (Transform.mk x y w h 0)
    (Style.mk "#000000" "transparent" 2 None)
    (Data.mk None None None None None (Some ow) (Some oh)) (Some cs).

(** A state with three snapshots, standing on the middle one. *)
Definition historyScene : AppState :=
  let r1 := sampleRect "rectangle-1" 0 0 50 50 in
  let r2 := sampleRect "rectangle-2" 100 100 50 50 in
  mkApp select [r1] ["rectangle-1"%string] 100
    [mkHistory []; mkHistory [r1]; mkHistory [r1; r2]] 1 20 5 "#000000"
    normal 1.

(** A drawn object whose path is the empty array. *)
Definition emptyDrawn : CanvasObject :=
  mkObj "drawn-1" ObjType.drawn (Transform.mk 0 0 100 100 0)
    (Style.mk "#000000" "transparent" 5 (Some 1))
    (Data.mk (Some []) (Some normal) None (Some []) None None None) None.

(** One 100x100 rectangle at the origin, with the eraser of size 20. *)
Definition eraseScene : AppState :=
  mkApp eraser [sampleRect "rectangle-1" 0 0 100 100] [] 100 [mkHistory []] 0
    20 5 "#000000" normal 1.

(** A group stretched to twice its original width that holds a group
    stretched to twice its original size that holds a 50x50 rectangle. *)
Definition innerLeaf : CanvasObject := sampleRect "rectangle-1" 0 0 50 50.
Definition otherLeaf : CanvasObject := sampleRect "rectangle-2" 100 100 50 50.

Definition innerGroup : CanvasObject :=
  sampleGroup "merged-1" 0 0 100 100 50 50 [innerLeaf].

Definition outerGroup : CanvasObject :=
  sampleGroup "merged-2" 0 0 300 150 150 150 [innerGroup; otherLeaf].

(** A spray stroke of width 5 from (10,10) to (20,10), about to commit;
    every call of [Math.random()] returns one half. *)
Definition sprayApp : AppState :=
  mkApp brush [] [] 100 [mkHistory []] 0 20 5 "#000000" spray 1.

Definition sprayCanvas : CanvasState :=
  setCurrentPath (setIsDrawing initialCanvas true)
    [Point.mk 10 10; Point.mk 20 10].

Definition sprayEnv : Env := mkEnv 1 (fun _ => 0.5).

(** The merge scenario of the specification: rects (0,0,50,50) and
    (100,100,50,50), both selected. *)
Definition mergeScene : AppState :=
  mkApp merge
    [sampleRect "rectangle-1" 0 0 50 50;
     sampleRect "rectangle-2" 100 100 50 50]
    ["rectangle-1"; "rectangle-2"]%string 100
    [mkHistory []] 0 20 5 "#000000" normal 1.

(** One 100x100 rectangle at the origin, selected, with the select tool. *)
Definition panelScene : AppState :=
  mkApp select [sampleRect "rectangle-1" 0 0 100 100]
    ["rectangle-1"%string] 100 [mkHistory []] 0 20 5 "#000000" normal 1.

(** An empty scene with the normal brush of size 5. *)
Definition brushScene : AppState :=
  mkApp brush [] [] 100 [mkHistory []] 0 20 5 "#000000" normal 1.

(** A drawn stroke from (0,0) to (1000,1000) whose rect is only 100x100. *)
Definition longStroke : CanvasObject :=
  mkObj "drawn-2" ObjType.drawn (Transform.mk 0 0 100 100 0)
    (Style.mk "#000000" "transparent" 5 (Some 1))
    (Data.mk (Some [Point.mk 0 0; Point.mk 1000 1000]) (Some normal) None
       (Some []) None None None) None.

(** A group stretched to twice its original width that holds a group
    stretched to twice its original size that holds two rectangles side by
    side. *)
Definition nestedA : CanvasObject := sampleRect "rectangle-3" 0 0 25 25.
Definition nestedB : CanvasObject := sampleRect "rectangle-4" 30 0 20 25.

Definition stretchedInner : CanvasObject :=
  sampleGroup "merged-3" 0 0 100 100 50 50 [nestedA; nestedB].

Definition stretchedOuter : CanvasObject :=
  sampleGroup "merged-4" 0 0 300 150 150 150 [stretchedInner].

(** A rectangle turned upside down. *)
Definition turnedRect : CanvasObject :=
  mkObj "rectangle-5" ObjType.rectangle (Transform.mk 0 0 100 60 180)
    (Style.mk "#000000" "#e0e0e0" 2 None)
    (Data.mk None None None (Some []) None None None) None.

(** One selected drawn stroke with rect (10, 10, 20, 30). *)
Definition shortStroke : CanvasObject :=
  mkObj "drawn-3" ObjType.drawn (Transform.mk 10 10 20 30 0)
    (Style.mk "#000000" "transparent" 5 (Some 1))
    (Data.mk (Some [Point.mk 17 15; Point.mk 25 35]) (Some normal) None
       (Some []) None None None) None.

Definition strokeScene : AppState :=
  mkApp select [shortStroke] ["drawn-3"%string] 100 [mkHistory []] 0 20 5
    "#000000" normal 1.

(** A rectangle committed while an image was loading. *)
Definition busyScene : AppState :=
  let r := sampleRect "rectangle-1" 0 0 50 50 in
  mkApp rectangle [r] [] 150 [mkHistory []; mkHistory [r]] 1 20 5 "#000000"
    normal 1.

(** * Properties *)

(** ** Comparisons *)

Lemma Rleb_true (a b : R) : a <= b -> Rleb a b = true.
Proof. intros H. unfold Rleb. destruct (Rle_dec a b); [reflexivity | contradiction]. Qed.

Lemma Rleb_false (a b : R) : b < a -> Rleb a b = false.
Proof. intros H. unfold Rleb. destruct (Rle_dec a b); [lra | reflexivity]. Qed.

Lemma Rltb_true (a b : R) : a < b -> Rltb a b = true.
Proof. intros H. unfold Rltb. destruct (Rlt_dec a b); [reflexivity | contradiction]. Qed.

Lemma Rltb_false (a b : R) : b <= a -> Rltb a b = false.
Proof. intros H. unfold Rltb. destruct (Rlt_dec a b); [lra | reflexivity]. Qed.

Lemma Reqb_true (a b : R) : a = b -> Reqb a b = true.
Proof. intros H. unfold Reqb. destruct (Req_dec_T a b); [reflexivity | contradiction]. Qed.

Lemma Reqb_false (a b : R) : a <> b -> Reqb a b = false.
Proof. intros H. unfold Reqb. destruct (Req_dec_T a b); [contradiction | reflexivity]. Qed.

Lemma Rleb_iff (a b : R) : Rleb a b = true <-> a <= b.
Proof.
  unfold Rleb. destruct (Rle_dec a b); split; intros; try assumption;
    try reflexivity; try discriminate; contradiction.
Qed.

Lemma Rltb_iff (a b : R) : Rltb a b = true <-> a < b.
Proof.
  unfold Rltb. destruct (Rlt_dec a b); split; intros; try assumption;
    try reflexivity; try discriminate; contradiction.
Qed.

Lemma inBox_iff (x y ox oy w h : R) :
  inBox x y ox oy w h = true <-> (ox <= x <= ox + w /\ oy <= y <= oy + h).
Proof.
  unfold inBox, Rgeb. rewrite !andb_true_iff, !Rleb_iff. tauto.
Qed.

(** Closing a goal of real arithmetic over concrete numbers that mentions
    [Rmin], [Rmax] or [Rabs]. *)
Ltac no_case t :=
  lazymatch t with
  | context [Rle_dec _ _] => fail
  | context [Rcase_abs _] => fail
  | _ => idtac
  end.

Ltac rsolve :=
  unfold Rmin, Rmax, Rabs, CANVAS_WIDTH, CANVAS_HEIGHT in *;
  repeat match goal with
         | |- context [Rle_dec ?a ?b] =>
             no_case a; no_case b; destruct (Rle_dec a b)
         | |- context [Rcase_abs ?a] => no_case a; destruct (Rcase_abs a)
         end;
  try lra.

(** Unfolding the program at a concrete input, up to the operations on real
    numbers. *)
Ltac reval :=
  cbv -[IZR Rplus Rminus Rmult Rdiv Rinv Ropp Rmin Rmax Rabs Rltb Rleb Reqb
        Rgtb Rgeb cos sin PI sqrt atan atan2 Zfloor INR Rlt Rle Rgt Rge
        CANVAS_WIDTH CANVAS_HEIGHT].

(** Deciding the comparisons of a goal one after the other. *)
Ltac rdecide :=
  unfold Rgtb, Rgeb;
  repeat match goal with
         | |- context [Rleb ?a ?b] =>
             first [ rewrite (Rleb_true a b) by rsolve
                   | rewrite (Rleb_false a b) by rsolve ]
         | |- context [Rltb ?a ?b] =>
             first [ rewrite (Rltb_true a b) by rsolve
                   | rewrite (Rltb_false a b) by rsolve ]
         | |- context [Reqb ?a ?b] =>
             first [ rewrite (Reqb_true a b) by rsolve
                   | rewrite (Reqb_false a b) by rsolve ]
         end.

(** Record eta for the object type. *)
Lemma obj_eta (o : CanvasObject) :
  mkObj (id o) (type o) (transform o) (style o) (data o) (children o) = o.
Proof. destruct o; reflexivity. Qed.

Lemma transform_eta (t : Transform.t) :
  Transform.mk (Transform.x t) (Transform.y t) (Transform.width t)
    (Transform.height t) (Transform.rotation t) = t.
Proof. destruct t; reflexivity. Qed.

(** ** Lists and slack *)

Lemma near_refl (u : R) : near u u.
Proof.
  unfold near, roundingSlack. replace (u - u) with 0 by ring.
  rewrite Rabs_R0. lra.
Qed.

Lemma near_eq (u v : R) : u = v -> near u v.
Proof. intros ->. apply near_refl. Qed.

Lemma Forall2_same {A : Type} (P : A -> A -> Prop) (l : list A) :
  (forall x, In x l -> P x x) -> Forall2 P l l.
Proof.
  induction l as [| x l IH]; intros H; constructor.
  - apply H. left. reflexivity.
  - apply IH. intros y Hy. apply H. right. exact Hy.
Qed.

Lemma Forall2_singleton {A B : Type} (P : A -> B -> Prop) (x : A)
    (l : list B) :
  Forall2 P [x] l -> exists y, l = [y] /\ P x y.
Proof.
  intros H. inversion H as [| x0 y l0 l' Hxy Hrest]; subst.
  inversion Hrest; subst. exists y. split; [reflexivity | exact Hxy].
Qed.

Lemma Keeps_filter {A : Type} (P : A -> Prop) (f : A -> bool) (l : list A) :
  (forall x, f x = true <-> P x) -> Keeps P l (filter f l).
Proof.
  intros Hf. induction l as [| x l IH]; simpl; [constructor |].
  destruct (f x) eqn:E.
  - apply keeps_in; [apply Hf; exact E | exact IH].
  - apply keeps_out; [| exact IH].
    intros Hp. apply Hf in Hp. rewrite E in Hp. discriminate.
Qed.

(** [Keeps P l] determines its result. *)
Lemma Keeps_unique {A : Type} (P : A -> Prop) (l l1 l2 : list A) :
  Keeps P l l1 -> Keeps P l l2 -> l1 = l2.
Proof.
  intros H1. revert l2.
  induction H1 as [| x l l1 Hp H1 IH | x l l1 Hn H1 IH]; intros l2 H2.
  - inversion H2. reflexivity.
  - inversion H2 as [| y m m2 Hp2 K | y m m2 Hn2 K]; subst.
    + f_equal. apply IH. exact K.
    + contradiction.
  - inversion H2 as [| y m m2 Hp2 K | y m m2 Hn2 K]; subst.
    + contradiction.
    + apply IH. exact K.
Qed.

Lemma Keeps_In {A : Type} (P : A -> Prop) (l l' : list A) :
  Keeps P l l' -> forall x, In x l' <-> In x l /\ P x.
Proof.
  induction 1 as [| y l l' Hp H IH | y l l' Hn H IH]; intros x; simpl.
  - tauto.
  - rewrite IH. split.
    + intros [<- | [Hx Px]]; [split; [left; reflexivity | exact Hp] |].
      split; [right; exact Hx | exact Px].
    + intros [[<- | Hx] Px]; [left; reflexivity | right; split; assumption].
  - rewrite IH. split.
    + intros [Hx Px]. split; [right; exact Hx | exact Px].
    + intros [[<- | Hx] Px]; [contradiction | split; assumption].
Qed.

(** ** History *)

Lemma addToHistory_ok (a : AppState) (objs : list CanvasObject) :
  historyOk (addToHistory a objs).
Proof.
  unfold historyOk, addToHistory; simpl.
  rewrite length_app; simpl. lia.
Qed.

Lemma handleUndo_total (a : AppState) :
  historyOk a -> exists a', handleUndo a = Some a' /\ historyOk a'.
Proof.
  unfold historyOk, handleUndo; intros H.
  destruct (0 <? historyIndex a)%nat eqn:E.
  - apply Nat.ltb_lt in E.
    destruct (nth_error (history a) (historyIndex a - 1)) eqn:N.
    + eexists; split; [reflexivity | simpl; lia].
    + apply nth_error_None in N. lia.
  - eexists; split; [reflexivity | assumption].
Qed.

Lemma handleRedo_total (a : AppState) :
  exists a', handleRedo a = Some a'.
Proof.
  unfold handleRedo.
  destruct (historyIndex a <? List.length (history a) - 1)%nat eqn:E.
  - apply Nat.ltb_lt in E.
    destruct (nth_error (history a) (historyIndex a + 1)) eqn:N.
    + eexists; reflexivity.
    + apply nth_error_None in N. lia.
  - eexists; reflexivity.
Qed.

(** C5.  With the index inside the history: [handleUndo] at an index above 0
    moves the index down by one, installs the objects of that snapshot and
    empties the selection; [handleRedo] below the last index does the same
    one step up; at index 0 [handleUndo], and at the last index [handleRedo],
    return the state unchanged.  Nothing else (history, tool, settings)
    changes, and neither call throws. *)
Theorem undo_redo_move_index (a : AppState) :
  historyOk a ->
  ((0 < historyIndex a)%nat ->
   exists h,
     nth_error (history a) (historyIndex a - 1) = Some h /\
     handleUndo a =
       Some (mkApp (currentTool a) (h_objects h) [] (zoom a) (history a)
               (historyIndex a - 1) (eraserSize a) (brushSize a)
               (brushColor a) (brushType a) (brushOpacity a))) /\
  (historyIndex a = 0%nat -> handleUndo a = Some a) /\
  ((historyIndex a + 1 < List.length (history a))%nat ->
   exists h,
     nth_error (history a) (historyIndex a + 1) = Some h /\
     handleRedo a =
       Some (mkApp (currentTool a) (h_objects h) [] (zoom a) (history a)
               (historyIndex a + 1) (eraserSize a) (brushSize a)
               (brushColor a) (brushType a) (brushOpacity a))) /\
  ((historyIndex a + 1 = List.length (history a))%nat ->
   handleRedo a = Some a).
Proof.
  unfold historyOk; intros Hok. repeat split.
  - intros Hpos. unfold handleUndo.
    destruct (nth_error (history a) (historyIndex a - 1)) as [h|] eqn:N.
    + exists h. split; [reflexivity|].
      apply Nat.ltb_lt in Hpos. rewrite Hpos. reflexivity.
    + apply nth_error_None in N. lia.
  - intros H0. unfold handleUndo. rewrite H0. reflexivity.
  - intros Hlt. unfold handleRedo.
    destruct (nth_error (history a) (historyIndex a + 1)) as [h|] eqn:N.
    + exists h. split; [reflexivity|].
      assert (E : (historyIndex a <? List.length (history a) - 1)%nat = true)
        by (apply Nat.ltb_lt; lia).
      rewrite E. reflexivity.
    + apply nth_error_None in N. lia.
  - intros Hlast. unfold handleRedo.
    assert (E : (historyIndex a <? List.length (history a) - 1)%nat = false)
      by (apply Nat.ltb_ge; lia).
    rewrite E. reflexivity.
Qed.

Lemma undo_redo_move_index_witness :
  historyOk historyScene /\
  (exists a', handleUndo historyScene = Some a' /\
              historyIndex a' = 0%nat /\ objects a' = [] /\
              selectedIds a' = []) /\
  (exists a', handleRedo historyScene = Some a' /\
              historyIndex a' = 2%nat /\
              List.length (objects a') = 2%nat /\ selectedIds a' = []).
Proof.
  assert (Hok : historyOk historyScene) by (unfold historyOk; simpl; lia).
  destruct (undo_redo_move_index historyScene Hok) as [Hu [_ [Hr _]]].
  split; [exact Hok | split].
  - destruct Hu as [h [N E]]; [simpl; lia |].
    simpl in N. injection N as <-.
    eexists; split; [exact E | repeat split].
  - destruct Hr as [h [N E]]; [simpl; lia |].
    simpl in N. injection N as <-.
    eexists; split; [exact E | repeat split].
Defined.

(** ** Hit-testing *)

(** C8, as stated, fails: a drawn object whose path is the empty array is hit
    at every point of its bounding box. *)
Lemma hit_empty_path_inside_box :
  Data.path (data emptyDrawn) = Some [] /\
  isPointInObject 50 50 emptyDrawn = true.
Proof.
  split; [reflexivity |].
  unfold isPointInObject, emptyDrawn; simpl.
  apply inBox_iff. lra.
Qed.

(** C8, amended.  For a drawn object whose stored path is the empty sequence
    the segment loop never runs and the hit test is the bounding-box fallback
    on the unrotated rect: it returns true exactly for the points of
    [x, x+width] x [y, y+height], and false for every other point. *)
Theorem hit_empty_path_is_box (px py : R) (obj : CanvasObject) :
  type obj = ObjType.drawn ->
  Data.path (data obj) = Some [] ->
  (isPointInObject px py obj = true <->
   (Transform.x (transform obj) <= px
      <= Transform.x (transform obj) + Transform.width (transform obj) /\
    Transform.y (transform obj) <= py
      <= Transform.y (transform obj) + Transform.height (transform obj))).
Proof.
  intros Ht Hp. unfold isPointInObject, isType. rewrite Ht, Hp. simpl.
  apply inBox_iff.
Qed.

Lemma hit_empty_path_is_box_witness :
  isPointInObject 50 50 emptyDrawn = true /\
  isPointInObject 150 50 emptyDrawn <> true.
Proof.
  split.
  - apply (hit_empty_path_is_box 50 50 emptyDrawn); [reflexivity .. |].
    simpl. lra.
  - intros H.
    apply (hit_empty_path_is_box 150 50 emptyDrawn) in H; [| reflexivity ..].
    simpl in H. lra.
Defined.

(** ** Erasing a top-level object *)

Lemma applyEraser_leaf (obj : CanvasObject) (path : list Point.t)
    (p : Point.t) (d : R) (pt : option ParentTransform.t) :
  isGroup obj = false ->
  applyEraserToObject obj path p d pt = eraseLeaf obj path p d pt.
Proof.
  unfold isGroup. destruct obj as [i t tr s dt [cs|]]; simpl;
    destruct (isType _ _); intros H; try discriminate; reflexivity.
Qed.

Lemma applyEraser_group (obj : CanvasObject) (cs : list CanvasObject)
    (path : list Point.t) (p : Point.t) (d : R)
    (pt : option ParentTransform.t) :
  isType obj ObjType.merged = true ->
  children obj = Some cs ->
  applyEraserToObject obj path p d pt =
    withChildren obj
      (map (fun child =>
              if childHit (groupLocal obj (groupAbs obj pt) p) child
              then applyEraserToObject child path p d
                     (Some (groupAbs obj pt))
              else child)
           cs).
Proof.
  destruct obj as [i t tr s dt c]; simpl. intros Ht Hc; subst c.
  rewrite Ht. reflexivity.
Qed.

(** C2, as stated, fails: pressing the eraser at (40,50) and moving it to
    (50,50) over a 100x100 rectangle is one erase sample at (50,50), and it
    stores a stroke of two mask points (the pending point and the sample),
    not a single mask point. *)
Lemma erase_sample_stores_two_points :
  exists a2 c2 o,
    handleMouseMove
      (fst (handleMouseDown eraseScene initialCanvas
              (mkEvent (Point.mk 40 50) false false)))
      (snd (handleMouseDown eraseScene initialCanvas
              (mkEvent (Point.mk 40 50) false false)))
      (mkEvent (Point.mk 50 50) false false) = Some (a2, c2) /\
    objects a2 = [o] /\
    Data.erasedAreas (data o) =
      Some [[MaskPoint.mk ((40 - 0) / 100) ((50 - 0) / 100)
               (20 / Rmin 100 100);
             MaskPoint.mk ((50 - 0) / 100) ((50 - 0) / 100)
               (20 / Rmin 100 100)]].
Proof.
  unfold handleMouseDown, eraseScene; simpl. rdecide. simpl.
  unfold handleMouseMove; simpl.
  unfold isPointInObject; simpl. rdecide.
  assert (Hin : inBox 50 50 0 0 100 100 = true) by (apply inBox_iff; lra).
  rewrite Hin.
  do 3 eexists. split; [reflexivity | split; reflexivity].
Qed.

(** C2, amended.  Applying one erase sample of diameter [d] at [p], with
    pending path [path], to a top-level object that is not a group appends
    exactly one stroke to its [erasedAreas]: the normalised points of the
    pending path followed by the mask point
    {(p.x - x)/width, (p.y - y)/height, d/min(width, height)}; the stroke has
    one point more than the pending path and every point of it has size
    d/min(width, height), which is 0.2 for a diameter of 20 on a 100x100
    object. *)
Theorem erase_top_level_appends_stroke (obj : CanvasObject)
    (path : list Point.t) (p : Point.t) (d : R) :
  isGroup obj = false ->
  exists stroke,
    Data.erasedAreas (data (applyEraserToObject obj path p d None)) =
      Some (orList (Data.erasedAreas (data obj)) [] ++ [stroke]) /\
    stroke =
      map (topMaskPoint obj d) path
        ++ [MaskPoint.mk
              ((Point.x p - Transform.x (transform obj))
               / Transform.width (transform obj))
              ((Point.y p - Transform.y (transform obj))
               / Transform.height (transform obj))
              (d / Rmin (Transform.width (transform obj))
                     (Transform.height (transform obj)))] /\
    List.length stroke = S (List.length path) /\
    Forall (fun m =>
              MaskPoint.size m =
                d / Rmin (Transform.width (transform obj))
                      (Transform.height (transform obj)))
           stroke /\
    (Transform.width (transform obj) = 100 ->
     Transform.height (transform obj) = 100 -> d = 20 ->
     Forall (fun m => MaskPoint.size m = 0.2) stroke).
Proof.
  intros Hleaf. rewrite (applyEraser_leaf _ _ _ _ _ Hleaf).
  exists (map (topMaskPoint obj d) path ++ [topMaskPoint obj d p]).
  split; [reflexivity |]. split; [reflexivity |].
  assert (Hsz : Forall (fun m =>
              MaskPoint.size m =
                d / Rmin (Transform.width (transform obj))
                      (Transform.height (transform obj)))
           (map (topMaskPoint obj d) path ++ [topMaskPoint obj d p])).
  { apply Forall_app; split.
    - apply Forall_forall. intros m Hm. apply in_map_iff in Hm.
      destruct Hm as [q [<- _]]. reflexivity.
    - constructor; [reflexivity | constructor]. }
  split; [| split].
  - rewrite length_app, length_map. simpl. lia.
  - exact Hsz.
  - intros Hw Hh Hd.
    eapply Forall_impl; [| exact Hsz]. simpl. intros m ->.
    rewrite Hw, Hh, Hd. unfold Rmin. destruct (Rle_dec 100 100); lra.
Qed.

Lemma erase_top_level_appends_stroke_witness :
  exists stroke,
    Data.erasedAreas
      (data (applyEraserToObject (sampleRect "rectangle-1" 0 0 100 100) []
               (Point.mk 50 50) 20 None)) = Some ([] ++ [stroke]) /\
    List.length stroke = 1%nat /\
    Forall (fun m => MaskPoint.size m = 0.2) stroke.
Proof.
  destruct (erase_top_level_appends_stroke
              (sampleRect "rectangle-1" 0 0 100 100) [] (Point.mk 50 50) 20
              eq_refl) as [stroke [He [_ [Hl [_ Hs]]]]].
  exists stroke. split; [exact He | split; [exact Hl |]].
  apply Hs; reflexivity.
Defined.

(** ** What the eraser leaves alone *)

(** [applyEraserToObject] changes nothing but erase data.  On an object
    that is not a group it returns the object with one stroke appended to
    [data.erasedAreas]: id, type, transform, style, children and the data
    keys path, brushType, sprayParticles, imageUrl, originalWidth and
    originalHeight are the ones of the argument.  On a group it returns the
    group with its own id, type, transform, style and data, with as many
    children in the same order, and every child whose box
    [cx, cx+cw] x [cy, cy+ch] does not contain the point [localX, localY]
    that the code computes is returned as it was.  (For a top-level group
    that point is the eraser position taken to the group's frame; below a
    scaled group it is not.) *)
Lemma eraser_frame (obj : CanvasObject) (path : list Point.t)
    (p : Point.t) (d : R) (pt : option ParentTransform.t) :
  let r := applyEraserToObject obj path p d pt in
  id r = id obj /\ type r = type obj /\ transform r = transform obj /\
  style r = style obj /\
  (isGroup obj = false ->
   children r = children obj /\
   Data.path (data r) = Data.path (data obj) /\
   Data.brushType (data r) = Data.brushType (data obj) /\
   Data.sprayParticles (data r) = Data.sprayParticles (data obj) /\
   Data.imageUrl (data r) = Data.imageUrl (data obj) /\
   Data.originalWidth (data r) = Data.originalWidth (data obj) /\
   Data.originalHeight (data r) = Data.originalHeight (data obj) /\
   exists stroke,
     Data.erasedAreas (data r) =
       Some (orList (Data.erasedAreas (data obj)) [] ++ [stroke])) /\
  (forall cs, isType obj ObjType.merged = true -> children obj = Some cs ->
   data r = data obj /\
   exists cs',
     children r = Some cs' /\ List.length cs' = List.length cs /\
     forall i child,
       nth_error cs i = Some child ->
       let loc := groupLocal obj (groupAbs obj pt) p in
       ~ (Transform.x (transform child) <= Point.x loc
            <= Transform.x (transform child)
               + Transform.width (transform child) /\
          Transform.y (transform child) <= Point.y loc
            <= Transform.y (transform child)
               + Transform.height (transform child)) ->
       nth_error cs' i = Some child).
Proof.
  cbv zeta.
  destruct (isGroup obj) eqn:G.
  - assert (Hg : exists cs, isType obj ObjType.merged = true
                            /\ children obj = Some cs).
    { unfold isGroup in G. destruct (isType obj ObjType.merged);
        [| discriminate]. destruct (children obj) as [cs|];
        [exists cs; split; reflexivity | discriminate]. }
    destruct Hg as [cs [Ht Hc]].
    rewrite (applyEraser_group obj cs path p d pt Ht Hc).
    split; [reflexivity |]. split; [reflexivity |].
    split; [reflexivity |]. split; [reflexivity |].
    split; [discriminate |].
    intros cs0 _ Hc0. rewrite Hc in Hc0. injection Hc0 as <-.
    split; [reflexivity |]. eexists. split; [reflexivity |].
    split; [apply length_map |].
    intros i child Hnth Hout.
    rewrite nth_error_map, Hnth. simpl.
    destruct (childHit _ child) eqn:Hh; [| reflexivity].
    exfalso. apply Hout. apply inBox_iff. exact Hh.
  - rewrite (applyEraser_leaf obj path p d pt G).
    split; [reflexivity |]. split; [reflexivity |].
    split; [reflexivity |]. split; [reflexivity |].
    split.
    + intros _. repeat split. eexists; reflexivity.
    + intros cs Ht Hc. unfold isGroup in G. rewrite Ht, Hc in G.
      discriminate.
Qed.

(** ** Erasing inside groups *)

Lemma unrotated_angle : - (0 * PI) / 180 = 0.
Proof. unfold Rdiv. ring. Qed.

Lemma groupLocal_unrotated (obj : CanvasObject) (abs : ParentTransform.t)
    (p : Point.t) :
  ParentTransform.rotation abs = 0 ->
  groupLocal obj abs p =
    Point.mk
      ((Point.x p
        - (ParentTransform.x abs + Transform.width (transform obj) / 2))
       / ParentTransform.scaleX abs
       + orNumber (Data.originalWidth (data obj))
           (Transform.width (transform obj)) / 2)
      ((Point.y p
        - (ParentTransform.y abs + Transform.height (transform obj) / 2))
       / ParentTransform.scaleY abs
       + orNumber (Data.originalHeight (data obj))
           (Transform.height (transform obj)) / 2).
Proof.
  intros Hr. unfold groupLocal. rewrite Hr, unrotated_angle, cos_0, sin_0.
  f_equal; unfold Rdiv; ring.
Qed.

Lemma groupScale_ratio (g : CanvasObject) :
  hasOriginalSize g -> groupScaleX g = ratioX g /\ groupScaleY g = ratioY g.
Proof.
  unfold hasOriginalSize, groupScaleX, groupScaleY, ratioX, ratioY,
    recordedWidth, recordedHeight, orNumber.
  intros [Hw Hh].
  destruct (Data.originalWidth (data g)) as [ow|]; [| lra].
  destruct (Data.originalHeight (data g)) as [oh|]; [| lra].
  rewrite (Reqb_false ow 0 Hw), (Reqb_false oh 0 Hh). split; reflexivity.
Qed.

Lemma groupAbs_scale (g : CanvasObject) (pt : option ParentTransform.t) :
  ParentTransform.scaleX (groupAbs g pt) = parentScaleX pt * groupScaleX g /\
  ParentTransform.scaleY (groupAbs g pt) = parentScaleY pt * groupScaleY g.
Proof. destruct pt; simpl; split; ring. Qed.

(** The recursion reaches the leaf and erases it there. *)
Lemma resolves_erases (p : Point.t) (path : list Point.t) (d : R)
    (pt : option ParentTransform.t) (obj : CanvasObject) (idxs : list nat)
    (ancs : list CanvasObject) (leaf : CanvasObject)
    (ptl : option ParentTransform.t) :
  Resolves p pt obj idxs ancs leaf ptl ->
  descend idxs (applyEraserToObject obj path p d pt) =
    Some (eraseLeaf leaf path p d ptl).
Proof.
  induction 1 as [pt obj Hleaf | pt obj cs i child idxs ancs leaf ptl
                                  Ht Hc Hn Hhit Hres IH].
  - simpl. rewrite (applyEraser_leaf _ _ _ _ _ Hleaf). reflexivity.
  - rewrite (applyEraser_group obj cs path p d pt Ht Hc). simpl.
    rewrite nth_error_map, Hn. simpl. rewrite Hhit. exact IH.
Qed.

(** The scale handed down to the leaf is the composed ratio of the chain. *)
Lemma resolves_scale (p : Point.t) (pt : option ParentTransform.t)
    (obj : CanvasObject) (idxs : list nat) (ancs : list CanvasObject)
    (leaf : CanvasObject) (ptl : option ParentTransform.t) :
  Resolves p pt obj idxs ancs leaf ptl ->
  Forall hasOriginalSize ancs ->
  parentScaleX ptl = parentScaleX pt * chainScaleX ancs /\
  parentScaleY ptl = parentScaleY pt * chainScaleY ancs.
Proof.
  induction 1 as [pt obj Hleaf | pt obj cs i child idxs ancs leaf ptl
                                  Ht Hc Hn Hhit Hres IH]; intros Hall.
  - simpl. split; ring.
  - inversion Hall as [| g gs Hg Hgs]; subst.
    destruct (IH Hgs) as [IHx IHy].
    destruct (groupAbs_scale obj pt) as [Ax Ay].
    destruct (groupScale_ratio obj Hg) as [Gx Gy].
    simpl in IHx, IHy. rewrite IHx, IHy, Ax, Ay, Gx, Gy. simpl.
    split; ring.
Qed.

Lemma resolves_nested (p : Point.t) (pt : option ParentTransform.t)
    (obj : CanvasObject) (idxs : list nat) (ancs : list CanvasObject)
    (leaf : CanvasObject) (ptl : option ParentTransform.t) :
  Resolves p pt obj idxs ancs leaf ptl ->
  ancs <> [] -> exists t, ptl = Some t.
Proof.
  induction 1 as [pt obj Hleaf | pt obj cs i child idxs ancs leaf ptl
                                  Ht Hc Hn Hhit Hres IH]; intros Hne.
  - contradiction.
  - destruct ancs as [| g gs].
    + inversion Hres; subst. eexists; reflexivity.
    + apply IH. discriminate.
Qed.

(** C3.  When the recursion started on a top-level object resolves an erase
    sample onto a regular object [leaf] below the groups [ancs] (any number
    of them, each carrying its non-zero original size), the leaf receives one
    stroke whose points all have size
    d / min(leafWidth, leafHeight) / (composed scale of the chain), where the
    composed scale is the product over the ancestors of current width over
    original width.  The factor the code computes for each ancestor is that
    ratio (width/originalWidth, height/originalHeight), and the scale handed
    down to the leaf, by which its position and size are resolved, is the
    product of these ratios on each axis. *)
Theorem nested_erase_size (obj : CanvasObject) (path : list Point.t)
    (p : Point.t) (d : R) (idxs : list nat) (ancs : list CanvasObject)
    (leaf : CanvasObject) (ptl : option ParentTransform.t) :
  Resolves p None obj idxs ancs leaf ptl ->
  ancs <> [] ->
  Forall hasOriginalSize ancs ->
  (forall g, In g ancs ->
             groupScaleX g = ratioX g /\ groupScaleY g = ratioY g) /\
  exists t leaf' stroke,
    ptl = Some t /\
    ParentTransform.scaleX t = chainScaleX ancs /\
    ParentTransform.scaleY t = chainScaleY ancs /\
    descend idxs (applyEraserToObject obj path p d None) = Some leaf' /\
    Data.erasedAreas (data leaf') =
      Some (orList (Data.erasedAreas (data leaf)) [] ++ [stroke]) /\
    List.length stroke = S (List.length path) /\
    Forall (fun m =>
              MaskPoint.size m =
                d / Rmin (Transform.width (transform leaf))
                      (Transform.height (transform leaf))
                / chainScaleX ancs)
           stroke.
Proof.
  intros Hres Hne Hall. split.
  - intros g Hg. apply groupScale_ratio.
    rewrite Forall_forall in Hall. apply Hall, Hg.
  - destruct (resolves_nested _ _ _ _ _ _ _ Hres Hne) as [t ->].
    destruct (resolves_scale _ _ _ _ _ _ _ Hres Hall) as [Sx Sy].
    simpl in Sx, Sy.
    exists t, (eraseLeaf leaf path p d (Some t)),
      (localPath leaf path p d (Some t)).
    split; [reflexivity |].
    split; [rewrite Sx; ring |]. split; [rewrite Sy; ring |].
    split; [eapply resolves_erases; exact Hres |].
    split; [reflexivity |].
    split.
    + simpl. rewrite length_app, length_map. simpl. lia.
    + assert (E : ParentTransform.scaleX t = chainScaleX ancs)
        by (rewrite Sx; ring).
      simpl. apply Forall_app; split.
      * apply Forall_forall. intros m Hm. apply in_map_iff in Hm.
        destruct Hm as [q [<- _]]. simpl. rewrite E. reflexivity.
      * constructor; [simpl; rewrite E; reflexivity | constructor].
Qed.

Lemma outerGroup_local :
  groupLocal outerGroup (groupAbs outerGroup None) (Point.mk 50 25) =
    Point.mk 25 25.
Proof.
  rewrite groupLocal_unrotated by reflexivity.
  simpl. unfold groupScaleX, groupScaleY, orNumber; simpl. rdecide.
  f_equal; lra.
Qed.

Lemma innerGroup_local :
  groupLocal innerGroup
    (groupAbs innerGroup (Some (groupAbs outerGroup None)))
    (Point.mk 50 25) = Point.mk 25 12.5.
Proof.
  rewrite groupLocal_unrotated by (simpl; lra).
  simpl. unfold groupScaleX, groupScaleY, orNumber; simpl. rdecide.
  f_equal; lra.
Qed.

Lemma outerGroup_resolves :
  Resolves (Point.mk 50 25) None outerGroup [0%nat; 0%nat]
    [outerGroup; innerGroup] innerLeaf
    (Some (groupAbs innerGroup (Some (groupAbs outerGroup None)))).
Proof.
  apply (resolves_child _ None outerGroup [innerGroup; otherLeaf] 0
           innerGroup); try reflexivity.
  - unfold childHit. rewrite outerGroup_local. apply inBox_iff. simpl. lra.
  - apply (resolves_child _ _ innerGroup [innerLeaf] 0 innerLeaf);
      try reflexivity.
    + unfold childHit. rewrite innerGroup_local. apply inBox_iff. simpl.
      lra.
    + apply resolves_here. reflexivity.
Qed.

Lemma nested_erase_size_witness :
  exists leaf' stroke,
    descend [0%nat; 0%nat]
      (applyEraserToObject outerGroup [] (Point.mk 50 25) 20 None)
      = Some leaf' /\
    Data.erasedAreas (data leaf') = Some ([] ++ [stroke]) /\
    List.length stroke = 1%nat /\
    Forall (fun m => MaskPoint.size m = 0.1) stroke.
Proof.
  assert (Hsize : Forall hasOriginalSize [outerGroup; innerGroup]).
  { constructor;
      [split; unfold recordedWidth, recordedHeight; simpl; lra |].
    constructor;
      [split; unfold recordedWidth, recordedHeight; simpl; lra
      | constructor]. }
  destruct (nested_erase_size outerGroup [] (Point.mk 50 25) 20 _ _ _ _
              outerGroup_resolves ltac:(discriminate) Hsize)
    as [_ [t [leaf' [stroke [_ [_ [_ [Hd [He [Hl Hs]]]]]]]]]].
  exists leaf', stroke.
  split; [exact Hd | split; [exact He | split; [exact Hl |]]].
  eapply Forall_impl; [| exact Hs]. simpl. intros m ->.
  unfold chainScaleX, ratioX, recordedWidth; simpl.
  unfold Rmin. destruct (Rle_dec 50 50); lra.
Defined.

Lemma eraser_frame_sample :
  exists cs',
    children (applyEraserToObject outerGroup [] (Point.mk 50 25) 20 None)
      = Some cs' /\
    List.length cs' = 2%nat /\
    nth_error cs' 1 = Some otherLeaf.
Proof.
  destruct (eraser_frame outerGroup [] (Point.mk 50 25) 20 None)
    as [_ [_ [_ [_ [_ Hg]]]]].
  destruct (Hg [innerGroup; otherLeaf] eq_refl eq_refl)
    as [_ [cs' [Hc [Hl Hkeep]]]].
  exists cs'. split; [exact Hc | split; [exact Hl |]].
  apply (Hkeep 1%nat otherLeaf eq_refl).
  cbv zeta. rewrite outerGroup_local. simpl. lra.
Qed.

(** C10 fails for a group nested in a scaled group.  [stretchedOuter] is
    stretched to twice its original width and holds [stretchedInner], which
    holds the rectangles A = (0, 0, 25, 25) and B = (30, 0, 20, 25).  The
    picture puts the point (20, 12.5) of the inner group's frame, which
    lies in A and not in B, at the canvas point (80, 25).  Erasing at
    (80, 25), the code tests the children of the inner group against
    (32.5, 12.5): it adds the width of the inner group to the centre
    without the scale of its parent.  So A is returned as it was and B,
    whose box does not contain the projected point, gets a stroke. *)
Theorem nested_group_erases_wrong_child :
  groupToCanvas stretchedOuter
    (groupToCanvas stretchedInner (Point.mk 20 12.5)) = Point.mk 80 25 /\
  childHit (Point.mk 20 12.5) nestedA = true /\
  childHit (Point.mk 20 12.5) nestedB = false /\
  groupLocal stretchedInner
    (groupAbs stretchedInner (Some (groupAbs stretchedOuter None)))
    (Point.mk 80 25) = Point.mk 32.5 12.5 /\
  Data.erasedAreas (data nestedB) = Some [] /\
  exists b' stroke,
    applyEraserToObject stretchedOuter [] (Point.mk 80 25) 20 None =
      withChildren stretchedOuter
        [withChildren stretchedInner [nestedA; b']] /\
    id b' = id nestedB /\
    Data.erasedAreas (data b') = Some [stroke] /\
    List.length stroke = 1%nat.
Proof.
  assert (Ho : groupLocal stretchedOuter (groupAbs stretchedOuter None)
                 (Point.mk 80 25) = Point.mk 40 25).
  { rewrite groupLocal_unrotated by reflexivity.
    simpl. unfold groupScaleX, groupScaleY, orNumber; simpl. rdecide.
    f_equal; lra. }
  assert (Hi : groupLocal stretchedInner
                 (groupAbs stretchedInner
                    (Some (groupAbs stretchedOuter None)))
                 (Point.mk 80 25) = Point.mk 32.5 12.5).
  { rewrite groupLocal_unrotated by (simpl; lra).
    simpl. unfold groupScaleX, groupScaleY, orNumber; simpl. rdecide.
    f_equal; lra. }
  split.
  { unfold groupToCanvas, orNumber. simpl. rdecide.
    replace (0 * PI / 180) with 0 by (unfold Rdiv; ring).
    rewrite cos_0, sin_0. f_equal; lra. }
  split; [unfold childHit; apply inBox_iff; simpl; lra |].
  split; [unfold childHit, inBox; simpl; rdecide; reflexivity |].
  split; [exact Hi |]. split; [reflexivity |].
  exists (eraseLeaf nestedB [] (Point.mk 80 25) 20
            (Some (groupAbs stretchedInner
                     (Some (groupAbs stretchedOuter None))))).
  eexists. split; [| split; [reflexivity | split; reflexivity]].
  rewrite (applyEraser_group stretchedOuter [stretchedInner] [] _ 20 None
             eq_refl eq_refl).
  rewrite Ho. cbn [map].
  assert (H1 : childHit (Point.mk 40 25) stretchedInner = true)
    by (unfold childHit; apply inBox_iff; simpl; lra).
  rewrite H1.
  rewrite (applyEraser_group stretchedInner [nestedA; nestedB] [] _ 20 _
             eq_refl eq_refl).
  rewrite Hi. cbn [map].
  assert (H2 : childHit (Point.mk 32.5 12.5) nestedA = false)
    by (unfold childHit, inBox; simpl; rdecide; reflexivity).
  assert (H3 : childHit (Point.mk 32.5 12.5) nestedB = true)
    by (unfold childHit; apply inBox_iff; simpl; lra).
  rewrite H2, H3.
  rewrite (applyEraser_leaf nestedB [] _ 20 _ eq_refl). reflexivity.
Qed.

(** ** Bounding-box loops *)

Lemma bounds_fold {A : Type} (fx fy gx gy : A -> R) (l : list A)
    (b : Bounds) :
  fold_left
    (fun b o =>
       mkBounds (accMin (minX b) (fx o)) (accMin (minY b) (fy o))
                (accMax (maxX b) (gx o)) (accMax (maxY b) (gy o)))
    l b =
  mkBounds (fold_left (fun acc o => accMin acc (fx o)) l (minX b))
           (fold_left (fun acc o => accMin acc (fy o)) l (minY b))
           (fold_left (fun acc o => accMax acc (gx o)) l (maxX b))
           (fold_left (fun acc o => accMax acc (gy o)) l (maxY b)).
Proof.
  revert b. induction l as [| o l IH]; intros b; simpl.
  - destruct b; reflexivity.
  - rewrite IH. reflexivity.
Qed.

Lemma fold_accMin_from {A : Type} (f : A -> R) (l : list A) (m0 : R) :
  exists m,
    fold_left (fun acc o => accMin acc (f o)) l (Some m0) = Some m /\
    m <= m0 /\ (forall o, In o l -> m <= f o) /\
    (m = m0 \/ exists o, In o l /\ f o = m).
Proof.
  revert m0. induction l as [| a l IH]; intros m0; simpl.
  - exists m0. repeat split; [lra | contradiction | left; reflexivity].
  - destruct (IH (Rmin m0 (f a))) as [m [E [Hle [Hall Hatt]]]].
    exists m. split; [exact E |].
    pose proof (Rmin_l m0 (f a)) as Hl. pose proof (Rmin_r m0 (f a)) as Hr.
    split; [lra |]. split.
    + intros o [<- | Ho]; [lra | apply Hall, Ho].
    + destruct Hatt as [-> | [o [Ho Hf]]].
      * unfold Rmin. destruct (Rle_dec m0 (f a));
          [left; reflexivity | right; exists a; split; [left |]; reflexivity].
      * right. exists o. split; [right; exact Ho | exact Hf].
Qed.

Lemma fold_accMax_from {A : Type} (f : A -> R) (l : list A) (m0 : R) :
  exists m,
    fold_left (fun acc o => accMax acc (f o)) l (Some m0) = Some m /\
    m0 <= m /\ (forall o, In o l -> f o <= m) /\
    (m = m0 \/ exists o, In o l /\ f o = m).
Proof.
  revert m0. induction l as [| a l IH]; intros m0; simpl.
  - exists m0. repeat split; [lra | contradiction | left; reflexivity].
  - destruct (IH (Rmax m0 (f a))) as [m [E [Hle [Hall Hatt]]]].
    exists m. split; [exact E |].
    pose proof (Rmax_l m0 (f a)) as Hl. pose proof (Rmax_r m0 (f a)) as Hr.
    split; [lra |]. split.
    + intros o [<- | Ho]; [lra | apply Hall, Ho].
    + destruct Hatt as [-> | [o [Ho Hf]]].
      * unfold Rmax. destruct (Rle_dec m0 (f a));
          [right; exists a; split; [left |]; reflexivity | left; reflexivity].
      * right. exists o. split; [right; exact Ho | exact Hf].
Qed.

Lemma fold_accMin_min {A : Type} (f : A -> R) (l : list A) :
  l <> [] ->
  exists m,
    fold_left (fun acc o => accMin acc (f o)) l None = Some m /\
    isMinOf f l m.
Proof.
  destruct l as [| a l]; [contradiction | intros _; simpl].
  destruct (fold_accMin_from f l (f a)) as [m [E [Hle [Hall Hatt]]]].
  exists m. split; [exact E |]. split.
  - destruct Hatt as [-> | [o [Ho Hf]]].
    + exists a. split; [left |]; reflexivity.
    + exists o. split; [right; exact Ho | exact Hf].
  - intros o [<- | Ho]; [exact Hle | apply Hall, Ho].
Qed.

Lemma fold_accMax_max {A : Type} (f : A -> R) (l : list A) :
  l <> [] ->
  exists m,
    fold_left (fun acc o => accMax acc (f o)) l None = Some m /\
    isMaxOf f l m.
Proof.
  destruct l as [| a l]; [contradiction | intros _; simpl].
  destruct (fold_accMax_from f l (f a)) as [m [E [Hle [Hall Hatt]]]].
  exists m. split; [exact E |]. split.
  - destruct Hatt as [-> | [o [Ho Hf]]].
    + exists a. split; [left |]; reflexivity.
    + exists o. split; [right; exact Ho | exact Hf].
  - intros o [<- | Ho]; [exact Hle | apply Hall, Ho].
Qed.

(** The bounds of a non-empty path are finite: the least and greatest
    coordinates of its points. *)
Lemma pathBounds_extent (path : list Point.t) :
  path <> [] ->
  exists x0 y0 x1 y1,
    pathBounds path = mkBounds (Some x0) (Some y0) (Some x1) (Some y1) /\
    isMinOf Point.x path x0 /\ isMinOf Point.y path y0 /\
    isMaxOf Point.x path x1 /\ isMaxOf Point.y path y1.
Proof.
  intros Hne. unfold pathBounds.
  rewrite (bounds_fold Point.x Point.y Point.x Point.y). simpl.
  destruct (fold_accMin_min Point.x path Hne) as [x0 [-> Hx0]].
  destruct (fold_accMin_min Point.y path Hne) as [y0 [-> Hy0]].
  destruct (fold_accMax_max Point.x path Hne) as [x1 [-> Hx1]].
  destruct (fold_accMax_max Point.y path Hne) as [y1 [-> Hy1]].
  exists x0, y0, x1, y1. repeat split; try apply Hx0; try apply Hy0;
    try apply Hx1; try apply Hy1.
Qed.

(** The bounds of a non-empty selection are finite: the union of the
    rects of its objects. *)
Lemma mergeBounds_union (sel : list CanvasObject) :
  sel <> [] ->
  exists x0 y0 x1 y1,
    mergeBounds sel = mkBounds (Some x0) (Some y0) (Some x1) (Some y1) /\
    isMinOf (fun o => Transform.x (transform o)) sel x0 /\
    isMinOf (fun o => Transform.y (transform o)) sel y0 /\
    isMaxOf (fun o => Transform.x (transform o)
                      + Transform.width (transform o)) sel x1 /\
    isMaxOf (fun o => Transform.y (transform o)
                      + Transform.height (transform o)) sel y1.
Proof.
  intros Hne. unfold mergeBounds.
  rewrite (bounds_fold (fun o => Transform.x (transform o))
             (fun o => Transform.y (transform o))
             (fun o => Transform.x (transform o)
                       + Transform.width (transform o))
             (fun o => Transform.y (transform o)
                       + Transform.height (transform o))).
  simpl.
  destruct (fold_accMin_min (fun o => Transform.x (transform o)) sel Hne)
    as [x0 [-> Hx0]].
  destruct (fold_accMin_min (fun o => Transform.y (transform o)) sel Hne)
    as [y0 [-> Hy0]].
  destruct (fold_accMax_max
              (fun o => Transform.x (transform o)
                        + Transform.width (transform o)) sel Hne)
    as [x1 [-> Hx1]].
  destruct (fold_accMax_max
              (fun o => Transform.y (transform o)
                        + Transform.height (transform o)) sel Hne)
    as [y1 [-> Hy1]].
  exists x0, y0, x1, y1. repeat split; try apply Hx0; try apply Hy0;
    try apply Hx1; try apply Hy1.
Qed.

(** ** Spray particles *)

Lemma consecutive_cons (q p1 p2 : Point.t) (path : list Point.t) :
  consecutive p1 p2 path -> consecutive p1 p2 (q :: path).
Proof.
  intros [l1 [l2 ->]]. exists (q :: l1), l2. reflexivity.
Qed.

Lemma segmentCount_pos (sw x1 y1 x2 y2 : R) :
  (1 <= segmentCount sw x1 y1 x2 y2)%nat.
Proof. unfold segmentCount. lia. Qed.

Lemma sprayInner_in (random : nat -> R) (x1 y1 x2 y2 sw : R)
    (count remaining k : nat) (q : Particle.t) :
  (remaining <= count)%nat ->
  In q (sprayInner random x1 y1 x2 y2 sw count remaining k) ->
  exists j k',
    (j < count)%nat /\
    q = sprayParticle random x1 y1 x2 y2 sw count j k'.
Proof.
  revert k. induction remaining as [| r IH]; intros k Hle Hin; simpl in Hin.
  - contradiction.
  - destruct Hin as [<- | Hin].
    + exists (count - S r)%nat, k. split; [lia | reflexivity].
    + apply (IH (k + 4)%nat); [lia | exact Hin].
Qed.

Lemma sprayOuter_in (random : nat -> R) (path : list Point.t)
    (sw ox oy : R) (k : nat) (q : Particle.t) :
  In q (sprayOuter random path sw ox oy k) ->
  exists p1 p2 count j k',
    consecutive p1 p2 path /\ (j < count)%nat /\
    q = sprayParticle random (Point.x p1 - ox) (Point.y p1 - oy)
          (Point.x p2 - ox) (Point.y p2 - oy) sw count j k'.
Proof.
  revert k. induction path as [| p1 rest IH]; intros k Hin.
  - contradiction.
  - destruct rest as [| p2 rest'].
    + contradiction.
    + simpl in Hin. apply in_app_or in Hin. destruct Hin as [Hin | Hin].
      * apply sprayInner_in in Hin; [| lia].
        destruct Hin as [j [k' [Hj ->]]].
        eexists p1, p2, _, j, k'. split; [| split; [exact Hj | reflexivity]].
        exists [], rest'. reflexivity.
      * destruct (IH _ Hin) as [q1 [q2 [count [j [k' [Hc [Hj ->]]]]]]].
        exists q1, q2, count, j, k'.
        split; [apply consecutive_cons; exact Hc |].
        split; [exact Hj | reflexivity].
Qed.

(** The first particle of the first segment. *)
Lemma sprayOuter_first (random : nat -> R) (p1 p2 : Point.t)
    (rest : list Point.t) (sw ox oy : R) :
  In (sprayParticle random (Point.x p1 - ox) (Point.y p1 - oy)
        (Point.x p2 - ox) (Point.y p2 - oy) sw
        (segmentCount sw (Point.x p1 - ox) (Point.y p1 - oy)
           (Point.x p2 - ox) (Point.y p2 - oy)) 0 0)
     (generateSprayParticles random (p1 :: p2 :: rest) sw ox oy).
Proof.
  unfold generateSprayParticles. simpl. apply in_or_app. left.
  pose proof (segmentCount_pos sw (Point.x p1 - ox) (Point.y p1 - oy)
                (Point.x p2 - ox) (Point.y p2 - oy)) as Hpos.
  destruct (segmentCount sw (Point.x p1 - ox) (Point.y p1 - oy)
              (Point.x p2 - ox) (Point.y p2 - oy)) as [| n] eqn:E;
    [lia |].
  simpl. left. rewrite Nat.sub_diag. reflexivity.
Qed.

(** The bounds on one particle, for draws of [Math.random()] in [0, 1). *)
Lemma sprayParticle_bounds (random : nat -> R) (x1 y1 x2 y2 sw : R)
    (count j k : nat) :
  (forall n, 0 <= random n < 1) -> 0 <= sw -> (j < count)%nat ->
  let q := sprayParticle random x1 y1 x2 y2 sw count j k in
  let t := INR j / INR count in
  0 <= t < 1 /\
  Rabs (Particle.x q - (x1 + (x2 - x1) * t)) <= 0.75 * sw /\
  Rabs (Particle.y q - (y1 + (y2 - y1) * t)) <= 0.75 * sw /\
  1 <= Particle.size q <= sw / 3 + 1 /\
  0.3 <= Particle.alpha q <= 0.8.
Proof.
  intros Hr Hsw Hj. cbv zeta.
  assert (Hc : 0 < INR count) by (apply lt_0_INR; lia).
  assert (Hjc : INR j < INR count) by (apply lt_INR; exact Hj).
  assert (Hj0 : 0 <= INR j) by apply pos_INR.
  split.
  - split.
    + apply Rmult_le_pos; [exact Hj0 |].
      left. apply Rinv_0_lt_compat. exact Hc.
    + apply (Rmult_lt_reg_r (INR count)); [exact Hc |].
      unfold Rdiv. rewrite Rmult_assoc, Rinv_l by lra. lra.
  - unfold sprayParticle; simpl.
    pose proof (Hr k) as H0. pose proof (Hr (k + 1)%nat) as H1.
    pose proof (Hr (k + 2)%nat) as H2. pose proof (Hr (k + 3)%nat) as H3.
    repeat split.
    + apply Rabs_le. split; nra.
    + apply Rabs_le. split; nra.
    + nra.
    + nra.
    + lra.
    + lra.
Qed.

(** C9, as stated, fails: committing a spray stroke of width 5 produces a
    particle of radius 0.5 * (5/3) + 1, which is more than strokeWidth/3. *)
Lemma spray_radius_exceeds_third :
  exists a' c' o ps q,
    handleMouseUp sprayEnv sprayApp sprayCanvas
      (mkEvent (Point.mk 20 10) false false) = Some (a', c') /\
    objects a' = [o] /\
    Data.sprayParticles (data o) = Some ps /\
    In q ps /\
    brushSize sprayApp / 3 < Particle.size q.
Proof.
  unfold handleMouseUp; simpl.
  do 5 eexists. split; [reflexivity |]. split; [reflexivity |].
  split; [reflexivity |]. split.
  - apply sprayOuter_first.
  - simpl. lra.
Qed.

Lemma brush_commit (env : Env) (a : AppState) (c : CanvasState)
    (e : MouseEvent) :
  currentTool a = brush -> isDrawing c = true ->
  (1 < List.length (currentPath c))%nat ->
  exists x0 y0 x1 y1,
    pathBounds (currentPath c)
      = mkBounds (Some x0) (Some y0) (Some x1) (Some y1) /\
    handleMouseUp env a c e =
      Some (updateObjects a
              (objects a ++ [drawnObject env a (currentPath c) x0 y0 x1 y1]),
            releasePointer (setCurrentPath c [])).
Proof.
  intros Ht Hd Hl.
  assert (Hne : currentPath c <> [])
    by (destruct (currentPath c); [simpl in Hl; lia | discriminate]).
  destruct (pathBounds_extent (currentPath c) Hne)
    as [x0 [y0 [x1 [y1 [Hb _]]]]].
  exists x0, y0, x1, y1. split; [exact Hb |].
  unfold handleMouseUp. rewrite Ht, Hd. simpl.
  apply Nat.ltb_lt in Hl. rewrite Hl, Hb. reflexivity.
Qed.

(** C9, amended.  When a spray stroke commits, [handleMouseUp] appends one
    drawn object whose [sprayParticles] is the list produced by the single
    call of [generateSprayParticles]; for every draw of the random values in
    [0, 1) and every brush size >= 0, each particle of that list lies at a
    point interpolated on a segment of the path (in object coordinates) plus
    a jitter of at most 0.75 x strokeWidth per axis, which is within the
    stated 1.5 x strokeWidth; its radius lies in [1, strokeWidth/3 + 1]
    (the code adds 1 to the draw); its alpha lies in [0.3, 0.8]. *)
Theorem spray_commit_particles (env : Env) (a : AppState) (c : CanvasState)
    (e : MouseEvent) :
  currentTool a = brush -> isDrawing c = true ->
  (1 < List.length (currentPath c))%nat ->
  brushType a = spray ->
  (forall n, 0 <= random env n < 1) ->
  0 <= brushSize a ->
  exists a' c' o ps,
    handleMouseUp env a c e = Some (a', c') /\
    objects a' = objects a ++ [o] /\
    Data.sprayParticles (data o) = Some ps /\
    ps = generateSprayParticles (random env) (currentPath c) (brushSize a)
           (Transform.x (transform o)) (Transform.y (transform o)) /\
    Forall
      (fun q =>
         (exists p1 p2 t,
            consecutive p1 p2 (currentPath c) /\ 0 <= t < 1 /\
            Rabs (Particle.x q
                  - ((Point.x p1 - Transform.x (transform o))
                     + (Point.x p2 - Point.x p1) * t))
              <= 0.75 * brushSize a <= 1.5 * brushSize a /\
            Rabs (Particle.y q
                  - ((Point.y p1 - Transform.y (transform o))
                     + (Point.y p2 - Point.y p1) * t))
              <= 0.75 * brushSize a <= 1.5 * brushSize a) /\
         1 <= Particle.size q <= brushSize a / 3 + 1 /\
         0.3 <= Particle.alpha q <= 0.8)
      ps.
Proof.
  intros Ht Hd Hl Hs Hr Hsw.
  destruct (brush_commit env a c e Ht Hd Hl) as [x0 [y0 [x1 [y1 [_ Hup]]]]].
  do 4 eexists. split; [exact Hup |]. split; [reflexivity |].
  unfold drawnObject. rewrite Hs. simpl.
  split; [reflexivity |]. split; [reflexivity |].
  apply Forall_forall. intros q Hq.
  unfold generateSprayParticles in Hq. apply sprayOuter_in in Hq.
  destruct Hq as [p1 [p2 [count [j [k' [Hc [Hj ->]]]]]]].
  destruct (sprayParticle_bounds (random env)
              (Point.x p1 - (x0 - brushSize a))
              (Point.y p1 - (y0 - brushSize a))
              (Point.x p2 - (x0 - brushSize a))
              (Point.y p2 - (y0 - brushSize a))
              (brushSize a) count j k' Hr Hsw Hj)
    as [Ht01 [Hx [Hy [Hsz Hal]]]].
  split; [| split; [exact Hsz | exact Hal]].
  exists p1, p2, (INR j / INR count).
  split; [exact Hc |]. split; [exact Ht01 |].
  split; (split; [| lra]).
  - match goal with
    | |- Rabs ?u <= _ =>
        match type of Hx with
        | Rabs ?v <= _ => replace u with v by ring
        end
    end.
    exact Hx.
  - match goal with
    | |- Rabs ?u <= _ =>
        match type of Hy with
        | Rabs ?v <= _ => replace u with v by ring
        end
    end.
    exact Hy.
Qed.

Lemma spray_commit_particles_witness :
  exists a' c' o ps,
    handleMouseUp sprayEnv sprayApp sprayCanvas
      (mkEvent (Point.mk 20 10) false false) = Some (a', c') /\
    objects a' = [o] /\
    Data.sprayParticles (data o) = Some ps /\
    Forall (fun q => 1 <= Particle.size q <= 5 / 3 + 1 /\
                     0.3 <= Particle.alpha q <= 0.8) ps.
Proof.
  destruct (spray_commit_particles sprayEnv sprayApp sprayCanvas
              (mkEvent (Point.mk 20 10) false false) eq_refl eq_refl
              ltac:(simpl; lia) eq_refl ltac:(intros n; simpl; lra)
              ltac:(simpl; lra))
    as [a' [c' [o [ps [Hup [Ho [Hp [_ Hall]]]]]]]].
  exists a', c', o, ps.
  split; [exact Hup | split; [exact Ho | split; [exact Hp |]]].
  eapply Forall_impl; [| exact Hall]. simpl.
  intros q [_ [Hsz Hal]]. split; assumption.
Defined.

(** ** Merge *)

Lemma isMinOf_unique {A : Type} (f : A -> R) (l : list A) (m m' : R) :
  isMinOf f l m -> isMinOf f l m' -> m = m'.
Proof.
  intros [[o [Ho Hf]] Hall] [[o' [Ho' Hf']] Hall'].
  pose proof (Hall o' Ho'). pose proof (Hall' o Ho). lra.
Qed.

Lemma isMaxOf_unique {A : Type} (f : A -> R) (l : list A) (m m' : R) :
  isMaxOf f l m -> isMaxOf f l m' -> m = m'.
Proof.
  intros [[o [Ho Hf]] Hall] [[o' [Ho' Hf']] Hall'].
  pose proof (Hall o' Ho'). pose proof (Hall' o Ho). lra.
Qed.

Lemma Forall2_map_self {A B : Type} (P : A -> B -> Prop) (f : A -> B)
    (l : list A) :
  (forall o, In o l -> P o (f o)) -> Forall2 P l (map f l).
Proof.
  induction l as [| o l IH]; intros H; simpl; constructor.
  - apply H. left; reflexivity.
  - apply IH. intros o' Ho'. apply H. right; exact Ho'.
Qed.

Lemma mergeChild_shifted (gx gy : R) (o : CanvasObject) :
  shiftedBy gx gy o (mergeChild gx gy o).
Proof.
  unfold shiftedBy, mergeChild.
  destruct (isType o ObjType.drawn) eqn:Et;
    destruct (Data.path (data o)) eqn:Ep;
    simpl; rewrite ?Ep; repeat split; reflexivity.
Qed.

(** C4.  With at least two selected ids and at least one object carrying
    one of them, [handleMerge] replaces the selected objects by one object of
    type merged, appended after the remaining ones, and selects it alone.
    Its transform is the union [x0, x1] x [y0, y1] of the selected rects with
    the origin clamped to the canvas and rotation 0, its original size is the
    size of the union, and its children are the selected objects in order,
    each shifted by minus the clamped origin (transform, and the path points
    of a drawn child) and otherwise unchanged. *)
Theorem merge_creates_group (now : nat) (a : AppState) :
  (2 <= List.length (selectedIds a))%nat ->
  filter (fun obj => includes (selectedIds a) (id obj)) (objects a) <> [] ->
  exists a' g x0 y0 x1 y1 cs,
    handleMerge now a = Some a' /\
    objects a' =
      filter (fun obj => negb (includes (selectedIds a) (id obj)))
        (objects a) ++ [g] /\
    selectedIds a' = [id g] /\
    isMinOf (fun o => Transform.x (transform o))
      (filter (fun obj => includes (selectedIds a) (id obj)) (objects a))
      x0 /\
    isMinOf (fun o => Transform.y (transform o))
      (filter (fun obj => includes (selectedIds a) (id obj)) (objects a))
      y0 /\
    isMaxOf (fun o => Transform.x (transform o)
                      + Transform.width (transform o))
      (filter (fun obj => includes (selectedIds a) (id obj)) (objects a))
      x1 /\
    isMaxOf (fun o => Transform.y (transform o)
                      + Transform.height (transform o))
      (filter (fun obj => includes (selectedIds a) (id obj)) (objects a))
      y1 /\
    type g = ObjType.merged /\
    transform g =
      Transform.mk (Rmax 0 (Rmin x0 (1200 - (x1 - x0))))
        (Rmax 0 (Rmin y0 (800 - (y1 - y0)))) (x1 - x0) (y1 - y0) 0 /\
    Data.originalWidth (data g) = Some (x1 - x0) /\
    Data.originalHeight (data g) = Some (y1 - y0) /\
    children g = Some cs /\
    Forall2
      (shiftedBy (Transform.x (transform g)) (Transform.y (transform g)))
      (filter (fun obj => includes (selectedIds a) (id obj)) (objects a))
      cs.
Proof.
  intros Hn Hsel.
  destruct (mergeBounds_union _ Hsel)
    as [x0 [y0 [x1 [y1 [Hb [Hx0 [Hy0 [Hx1 Hy1]]]]]]]].
  unfold handleMerge.
  assert (E : (List.length (selectedIds a) <? 2)%nat = false)
    by (apply Nat.ltb_ge; exact Hn).
  rewrite E, Hb. simpl.
  do 7 eexists. split; [reflexivity |].
  split; [reflexivity |]. split; [reflexivity |].
  split; [exact Hx0 |]. split; [exact Hy0 |].
  split; [exact Hx1 |]. split; [exact Hy1 |].
  split; [reflexivity |]. split; [reflexivity |].
  split; [reflexivity |]. split; [reflexivity |].
  split; [reflexivity |].
  simpl. apply Forall2_map_self. intros o _. apply mergeChild_shifted.
Qed.

(** The scenario of the specification: rects (0,0,50,50) and
    (100,100,50,50) merge into a group at {0, 0, 150, 150} with children at
    local {0, 0, 50, 50} and {100, 100, 50, 50}. *)
Lemma merge_creates_group_witness :
  exists a' g c1 c2,
    handleMerge 7 mergeScene = Some a' /\
    objects a' = [g] /\ selectedIds a' = [id g] /\
    transform g = Transform.mk 0 0 150 150 0 /\
    children g = Some [c1; c2] /\
    transform c1 = Transform.mk 0 0 50 50 0 /\
    transform c2 = Transform.mk 100 100 50 50 0.
Proof.
  destruct (merge_creates_group 7 mergeScene ltac:(simpl; lia)
              ltac:(discriminate))
    as [a' [g [x0 [y0 [x1 [y1 [cs [Hm [Ho [Hs [Hx0 [Hy0 [Hx1 [Hy1
         [_ [Ht [_ [_ [Hc Hall]]]]]]]]]]]]]]]]]]].
  simpl in Hx0, Hy0, Hx1, Hy1, Hall, Ho.
  assert (Ex0 : x0 = 0).
  { apply (isMinOf_unique _ _ _ _ Hx0). split.
    - eexists; split; [left; reflexivity | reflexivity].
    - intros o [<- | [<- | Hf]]; [| | contradiction]; simpl; lra. }
  assert (Ey0 : y0 = 0).
  { apply (isMinOf_unique _ _ _ _ Hy0). split.
    - eexists; split; [left; reflexivity | reflexivity].
    - intros o [<- | [<- | Hf]]; [| | contradiction]; simpl; lra. }
  assert (Ex1 : x1 = 150).
  { apply (isMaxOf_unique _ _ _ _ Hx1). split.
    - eexists; split; [right; left; reflexivity | simpl; lra].
    - intros o [<- | [<- | Hf]]; [| | contradiction]; simpl; lra. }
  assert (Ey1 : y1 = 150).
  { apply (isMaxOf_unique _ _ _ _ Hy1). split.
    - eexists; split; [right; left; reflexivity | simpl; lra].
    - intros o [<- | [<- | Hf]]; [| | contradiction]; simpl; lra. }
  subst x0 y0 x1 y1.
  assert (Eg : transform g = Transform.mk 0 0 150 150 0).
  { rewrite Ht. f_equal; rsolve. }
  rewrite Eg in Hall. simpl in Hall.
  inversion Hall as [| o1 c1 l1 l1' H1 Hrest]; subst.
  inversion Hrest as [| o2 c2 l2 l2' H2 Hnil]; subst.
  inversion Hnil; subst.
  exists a', g, c1, c2.
  split; [exact Hm |]. split; [exact Ho |]. split; [exact Hs |].
  split; [exact Eg |]. split; [exact Hc |].
  destruct H1 as [_ [_ [_ [_ [T1 _]]]]].
  destruct H2 as [_ [_ [_ [_ [T2 _]]]]].
  simpl in T1, T2. split.
  - rewrite T1. f_equal; lra.
  - rewrite T2. f_equal; lra.
Defined.

(** ** Property edits *)

(** C6.  The X input of the properties panel, set to -50 on a selected
    100x100 rectangle at the origin, stores x = -50: the object leaves the
    canvas, where [constrainToCanvas] on the same values gives x = 0. *)
Theorem panel_x_edit_not_clamped :
  exists o,
    objects (panelSetX panelScene (-50)) = [o] /\
    transform o = Transform.mk (-50) 0 100 100 0 /\
    Rect.x (constrainToCanvas (-50) 0 100 100) = 0 /\
    Transform.x (transform o) < 0.
Proof.
  eexists. split; [reflexivity |]. split; [reflexivity |]. split.
  - unfold constrainToCanvas; simpl. rsolve.
  - simpl. lra.
Qed.

(** ** Resize round trips *)

(** Pressing the pointer on the east handle of the selected rectangle. *)
Lemma press_east_handle :
  handleMouseDown panelScene initialCanvas
    (mkEvent (Point.mk 100 50) false false) =
  (panelScene,
   setDragStart (setResizeHandle initialCanvas (Some "e"%string))
     (Some (Point.mk 100 50))).
Proof.
  unfold handleMouseDown. simpl. rdecide. simpl.
  unfold transformPointToObjectSpace. simpl.
  rewrite unrotated_angle, cos_0, sin_0.
  rdecide. simpl. rdecide. reflexivity.
Qed.

(** C7, as stated, fails twice.  On a selected 100x100 rectangle, dragging
    the east handle by (-95, 0) and then by (+95, 0) leaves a width of 105,
    because the first resize stops at the 10-unit minimum.  And where
    nothing is clamped the stored path does not come back exactly: on a
    drawn object with rect (10, 10, 20, 30), dragging the east handle by
    (+2, 0) and then by (-2, 0) takes the path abscissa 17, in the
    program's doubles, to a number greater than 17. *)
Lemma resize_inverse_delta_not_restored :
  exists a1 c1 a2 c2 o,
    handleMouseMove
      (fst (handleMouseDown panelScene initialCanvas
              (mkEvent (Point.mk 100 50) false false)))
      (snd (handleMouseDown panelScene initialCanvas
              (mkEvent (Point.mk 100 50) false false)))
      (mkEvent (Point.mk 5 50) false false) = Some (a1, c1) /\
    handleMouseMove a1 c1 (mkEvent (Point.mk 100 50) false false)
      = Some (a2, c2) /\
    objects a2 = [o] /\
    Transform.width (transform o) = 105 /\
    objects panelScene = [sampleRect "rectangle-1" 0 0 100 100] /\
    PrimFloat.eqb Double.roundTripX Double.pathX = false /\
    PrimFloat.ltb Double.pathX Double.roundTripX = true.
Proof.
  rewrite press_east_handle.
  do 5 eexists. split; [reval; reflexivity |].
  split; [reval; reflexivity |].
  split; [reflexivity |].
  split; [reval; rdecide; rsolve |].
  split; [reflexivity |].
  split; vm_compute; reflexivity.
Qed.

Lemma constrain_fixed (x y w h : R) :
  fitsCanvas x y w h -> constrainToCanvas x y w h = Rect.mk x y w h.
Proof.
  unfold fitsCanvas, constrainToCanvas. intros H. f_equal; rsolve.
Qed.

Lemma constrain_fits (x y w h : R) :
  10 <= w -> 10 <= h -> rectOk (constrainToCanvas x y w h).
Proof.
  unfold rectOk, fitsCanvas, constrainToCanvas. simpl. intros Hw Hh.
  repeat split; rsolve.
Qed.

Lemma resize_unclamped (handle : string) (t : Transform.t) (dx dy : R) :
  rectOk (movedEdges handle t dx dy) ->
  resizeTransform handle t dx dy =
    Transform.mk (Rect.x (movedEdges handle t dx dy))
      (Rect.y (movedEdges handle t dx dy))
      (Rect.width (movedEdges handle t dx dy))
      (Rect.height (movedEdges handle t dx dy)) (Transform.rotation t).
Proof.
  intros Hok. unfold resizeTransform.
  destruct Hok as [Hw [Hh Hrest]].
  rewrite (Rltb_false _ 10 Hw), (Rltb_false _ 10 Hh).
  rewrite constrain_fixed by (repeat split; tauto). reflexivity.
Qed.

Lemma movedEdges_back (handle : string) (t : Transform.t)
    (dx dy dx' dy' rot : R) :
  dx' = - dx -> dy' = - dy ->
  movedEdges handle
    (Transform.mk (Rect.x (movedEdges handle t dx dy))
       (Rect.y (movedEdges handle t dx dy))
       (Rect.width (movedEdges handle t dx dy))
       (Rect.height (movedEdges handle t dx dy)) rot)
    dx' dy' =
  Rect.mk (Transform.x t) (Transform.y t) (Transform.width t)
    (Transform.height t).
Proof.
  intros -> ->. unfold movedEdges. simpl.
  destruct (str_includes handle "n"), (str_includes handle "s"),
    (str_includes handle "w"), (str_includes handle "e");
    f_equal; lra.
Qed.

Lemma resize_back (handle : string) (t : Transform.t) (dx dy dx' dy' : R) :
  transformOk t -> rectOk (movedEdges handle t dx dy) ->
  dx' = - dx -> dy' = - dy ->
  resizeTransform handle (resizeTransform handle t dx dy) dx' dy' = t.
Proof.
  intros Ht Hm Hx Hy.
  rewrite (resize_unclamped handle t dx dy Hm).
  assert (Hb := movedEdges_back handle t dx dy dx' dy'
                  (Transform.rotation t) Hx Hy).
  rewrite resize_unclamped; rewrite Hb; simpl.
  - apply transform_eta.
  - exact Ht.
Qed.

Lemma resizeObject_id (o : CanvasObject) (t t1 : Transform.t) :
  id (resizeObject o t t1) = id o.
Proof.
  unfold resizeObject.
  destruct (isType o ObjType.drawn); destruct (Data.path (data o));
    reflexivity.
Qed.

Lemma resizeObject_transform (o : CanvasObject) (t t1 : Transform.t) :
  transform (resizeObject o t t1) = t1.
Proof.
  unfold resizeObject.
  destruct (isType o ObjType.drawn); destruct (Data.path (data o));
    reflexivity.
Qed.

(** Resizing an object to [t1] and back to its own transform restores it,
    path included. *)
Lemma resizeObject_back (o : CanvasObject) (t1 : Transform.t) :
  Transform.width (transform o) <> 0 ->
  Transform.height (transform o) <> 0 ->
  Transform.width t1 <> 0 -> Transform.height t1 <> 0 ->
  resizeObject (resizeObject o (transform o) t1) t1 (transform o) = o.
Proof.
  intros Hw Hh Hw1 Hh1.
  destruct o as [i ty t s d cs]. simpl in *.
  unfold resizeObject, isType. simpl.
  destruct (match ty with ObjType.drawn => true | _ => false end) eqn:Ety.
  - destruct d as [pth b sp er im ow oh]. simpl.
    destruct pth as [path |]; simpl; rewrite Ety; simpl; [| reflexivity].
    unfold dataWithPath; simpl. do 3 f_equal.
    rewrite map_map. rewrite <- (map_id path) at 2.
    apply map_ext. intros [qx qy]. simpl. f_equal; field; split; assumption.
  - simpl. rewrite Ety. reflexivity.
Qed.

Lemma find_map_same {A : Type} (p : A -> bool) (g : A -> A) (l : list A) :
  (forall o, p (g o) = p o) -> find p (map g l) = option_map g (find p l).
Proof.
  intros H. induction l as [| o l IH]; simpl; [reflexivity |].
  rewrite H. destruct (p o); [reflexivity | exact IH].
Qed.

Lemma unique_id (l : list CanvasObject) (o o' : CanvasObject) :
  NoDup (map id l) -> In o l -> In o' l -> id o = id o' -> o = o'.
Proof.
  induction l as [| q l IH]; intros Hnd Ho Ho' Hid; [contradiction |].
  simpl in Hnd. inversion Hnd as [| i l' Hnot Hnd']; subst.
  destruct Ho as [-> | Ho], Ho' as [-> | Ho'].
  - reflexivity.
  - exfalso. apply Hnot. rewrite Hid. apply in_map. exact Ho'.
  - exfalso. apply Hnot. rewrite <- Hid. apply in_map. exact Ho.
  - apply IH; assumption.
Qed.

Lemma firstSelected_in (a : AppState) (sel : CanvasObject) :
  firstSelected a = Some sel ->
  In sel (objects a) /\ exists i ids, selectedIds a = i :: ids.
Proof.
  unfold firstSelected. intros H. apply find_some in H.
  destruct H as [Hin Hinc]. split; [exact Hin |].
  destruct (selectedIds a) as [| i ids]; [discriminate |].
  exists i, ids. reflexivity.
Qed.

(** The resize branch of [handleMouseMove]. *)
Lemma mouseMove_resize (a : AppState) (c : CanvasState) (e : MouseEvent)
    (start : Point.t) (handle : string) (sel : CanvasObject) :
  currentTool a = select -> dragStart c = Some start ->
  marqueeStart c = None -> resizeHandle c = Some handle ->
  handle <> ""%string -> handle <> "rotate"%string ->
  firstSelected a = Some sel ->
  handleMouseMove a c e =
    Some (updateObjects a
            (map (fun obj =>
                    if String.eqb (id obj) (id sel)
                    then resizeObject obj (transform sel)
                           (resizeTransform handle (transform sel)
                              (Point.x (pos e) - Point.x start)
                              (Point.y (pos e) - Point.y start))
                    else obj)
                 (objects a)),
          setDragStart (trackPointer c (pos e)) (Some (pos e))).
Proof.
  intros Ht Hd Hm Hr Hne Hnr Hsel.
  destruct (firstSelected_in a sel Hsel) as [_ [i [ids Hids]]].
  unfold handleMouseMove. rewrite Ht, Hd, Hm, Hids, Hsel. simpl.
  unfold dragSelected.
  assert (Hr' : resizeHandle (trackPointer c (pos e)) = Some handle).
  { unfold trackPointer. destruct (shapeStart c); exact Hr. }
  rewrite Hr'.
  apply String.eqb_neq in Hne. apply String.eqb_neq in Hnr.
  rewrite Hne, Hnr. reflexivity.
Qed.

Lemma trackPointer_keeps (c : CanvasState) (p : Point.t) :
  marqueeStart (trackPointer c p) = marqueeStart c /\
  resizeHandle (trackPointer c p) = resizeHandle c /\
  dragOffset (trackPointer c p) = dragOffset c /\
  dragStart (trackPointer c p) = dragStart c.
Proof.
  unfold trackPointer. destruct (shapeStart c); repeat split; reflexivity.
Qed.

(** The round trip over the real numbers: with nothing clamped and no
    rounding, the second move gives back the object list. *)
Lemma resize_round_trip_exact (a : AppState) (c : CanvasState)
    (e1 e2 : MouseEvent) (start : Point.t) (handle : string)
    (sel : CanvasObject) :
  currentTool a = select -> dragStart c = Some start ->
  marqueeStart c = None -> resizeHandle c = Some handle ->
  handle <> ""%string -> handle <> "rotate"%string ->
  firstSelected a = Some sel ->
  NoDup (map id (objects a)) ->
  transformOk (transform sel) ->
  rectOk (movedEdges handle (transform sel)
            (Point.x (pos e1) - Point.x start)
            (Point.y (pos e1) - Point.y start)) ->
  pos e2 = start ->
  exists a1 c1 a2 c2,
    handleMouseMove a c e1 = Some (a1, c1) /\
    handleMouseMove a1 c1 e2 = Some (a2, c2) /\
    objects a2 = objects a.
Proof.
  intros Ht Hd Hm Hr Hne Hnr Hsel Hnd Hok Hfit Hback.
  set (t := transform sel) in *.
  set (dx := Point.x (pos e1) - Point.x start) in *.
  set (dy := Point.y (pos e1) - Point.y start) in *.
  set (t1 := resizeTransform handle t dx dy).
  set (g1 := fun obj =>
               if String.eqb (id obj) (id sel)
               then resizeObject obj t t1 else obj).
  destruct (trackPointer_keeps c (pos e1)) as [Km [Kr _]].
  destruct (firstSelected_in a sel Hsel) as [Hin _].
  assert (Hsel1 : firstSelected (updateObjects a (map g1 (objects a)))
                  = Some (resizeObject sel t t1)).
  { unfold firstSelected. simpl. rewrite find_map_same.
    - unfold firstSelected in Hsel. rewrite Hsel. simpl.
      unfold g1. rewrite String.eqb_refl. reflexivity.
    - intros o. unfold g1. destruct (String.eqb (id o) (id sel));
        [rewrite resizeObject_id |]; reflexivity. }
  exists (updateObjects a (map g1 (objects a))),
    (setDragStart (trackPointer c (pos e1)) (Some (pos e1))).
  eexists. eexists.
  split; [apply (mouseMove_resize a c e1 start handle sel); assumption |].
  split.
  - apply (mouseMove_resize _ _ e2 (pos e1) handle (resizeObject sel t t1));
      try assumption; try reflexivity.
    + simpl. rewrite Km. exact Hm.
    + simpl. rewrite Kr. exact Hr.
  - simpl. rewrite map_map. rewrite <- (map_id (objects a)) at 2.
    apply map_ext_in. intros o Ho.
    rewrite resizeObject_id, resizeObject_transform.
    assert (Et : resizeTransform handle t1
                   (Point.x (pos e2) - Point.x (pos e1))
                   (Point.y (pos e2) - Point.y (pos e1)) = t).
    { unfold t1. apply resize_back; try assumption;
        rewrite Hback; unfold dx, dy; lra. }
    rewrite Et. unfold g1.
    destruct (String.eqb (id o) (id sel)) eqn:Eid.
    + apply String.eqb_eq in Eid.
      assert (o = sel) by (apply (unique_id (objects a)); assumption).
      subst o. rewrite resizeObject_id, String.eqb_refl.
      unfold t in *.
      assert (E1 : t1 = Transform.mk
                     (Rect.x (movedEdges handle (transform sel) dx dy))
                     (Rect.y (movedEdges handle (transform sel) dx dy))
                     (Rect.width (movedEdges handle (transform sel) dx dy))
                     (Rect.height (movedEdges handle (transform sel) dx dy))
                     (Transform.rotation (transform sel)))
        by (apply resize_unclamped; exact Hfit).
      destruct Hok as [Hw [Hh _]]. destruct Hfit as [Hw1 [Hh1 _]].
      apply resizeObject_back; try lra; rewrite E1;
        cbn [Transform.width Transform.height]; lra.
    + rewrite Eid. reflexivity.
Qed.

(** C7, amended.  Take a selected object (ids of the scene distinct) whose
    transform is at least 10x10 and inside the canvas, and a resize by the
    pointer delta (dx, dy) = p1 - start on a handle whose moved edges are
    still at least 10x10 and inside the canvas, so that neither the 10-unit
    minimum nor [constrainToCanvas] changes anything.  Then moving the
    pointer back by the exact inverse delta on the same handle gives back
    every other object as it was, and the resized object with its id, type,
    style, children, rotation and every data key but the path.  Its x, y,
    width and height come back within [roundingSlack], and exactly when the
    rect and the pointer positions are integers: the object is then the
    original one unless it is a drawn path.  The stored path of a drawn
    object comes back with as many points, each point on the canvas within
    [roundingSlack] of the original; it does not come back exactly. *)
Theorem resize_round_trip (a : AppState) (c : CanvasState)
    (e1 e2 : MouseEvent) (start : Point.t) (handle : string)
    (sel : CanvasObject) :
  currentTool a = select -> dragStart c = Some start ->
  marqueeStart c = None -> resizeHandle c = Some handle ->
  handle <> ""%string -> handle <> "rotate"%string ->
  firstSelected a = Some sel ->
  NoDup (map id (objects a)) ->
  transformOk (transform sel) ->
  rectOk (movedEdges handle (transform sel)
            (Point.x (pos e1) - Point.x start)
            (Point.y (pos e1) - Point.y start)) ->
  pos e2 = start ->
  exists a1 c1 a2 c2,
    handleMouseMove a c e1 = Some (a1, c1) /\
    handleMouseMove a1 c1 e2 = Some (a2, c2) /\
    Forall2
      (fun o o2 =>
         (id o <> id sel -> o2 = o) /\
         id o2 = id o /\ type o2 = type o /\ style o2 = style o /\
         children o2 = children o /\
         sameButPath (data o) (data o2) /\
         Transform.rotation (transform o2)
           = Transform.rotation (transform o) /\
         nearRect (transform o) (transform o2) /\
         (integerGesture (transform sel) start (pos e1) ->
          transform o2 = transform o /\
          (isType o ObjType.drawn = false \/ Data.path (data o) = None ->
           o2 = o)) /\
         match Data.path (data o), Data.path (data o2) with
         | Some path, Some path2 =>
             Forall2 (fun q q2 => onCanvas q -> nearPoint q q2) path path2
         | None, None => True
         | _, _ => False
         end)
      (objects a) (objects a2).
Proof.
  intros Ht Hd Hm Hr Hne Hnr Hsel Hnd Hok Hfit Hback.
  destruct (resize_round_trip_exact a c e1 e2 start handle sel Ht Hd Hm Hr
              Hne Hnr Hsel Hnd Hok Hfit Hback)
    as [a1 [c1 [a2 [c2 [H1 [H2 Heq]]]]]].
  exists a1, c1, a2, c2. split; [exact H1 |]. split; [exact H2 |].
  rewrite Heq. apply Forall2_same. intros o _.
  split; [reflexivity |]. split; [reflexivity |]. split; [reflexivity |].
  split; [reflexivity |]. split; [reflexivity |].
  split; [repeat split; reflexivity |]. split; [reflexivity |].
  split; [repeat split; apply near_refl |].
  split; [intros _; split; [reflexivity | intros _; reflexivity] |].
  destruct (Data.path (data o)) as [path |]; [| exact I].
  apply Forall2_same. intros q _ _. split; apply near_refl.
Qed.

Lemma resize_round_trip_witness :
  exists a1 c1 a2 c2 o2 path2,
    handleMouseMove strokeScene
      (setDragStart (setResizeHandle initialCanvas (Some "e"%string))
         (Some (Point.mk 30 25)))
      (mkEvent (Point.mk 32 25) false false) = Some (a1, c1) /\
    handleMouseMove a1 c1 (mkEvent (Point.mk 30 25) false false)
      = Some (a2, c2) /\
    objects a2 = [o2] /\
    transform o2 = Transform.mk 10 10 20 30 0 /\
    Data.path (data o2) = Some path2 /\
    Forall2 (fun q q2 => onCanvas q -> nearPoint q q2)
      [Point.mk 17 15; Point.mk 25 35] path2.
Proof.
  destruct (resize_round_trip strokeScene
              (setDragStart (setResizeHandle initialCanvas (Some "e"%string))
                 (Some (Point.mk 30 25)))
              (mkEvent (Point.mk 32 25) false false)
              (mkEvent (Point.mk 30 25) false false)
              (Point.mk 30 25) "e" shortStroke
              eq_refl eq_refl eq_refl eq_refl
              ltac:(discriminate) ltac:(discriminate) eq_refl)
    as [a1 [c1 [a2 [c2 [H1 [H2 Hall]]]]]].
  - simpl. constructor; [intros [] | constructor].
  - unfold transformOk, fitsCanvas, CANVAS_WIDTH, CANVAS_HEIGHT. simpl. lra.
  - unfold rectOk, fitsCanvas, CANVAS_WIDTH, CANVAS_HEIGHT. reval. lra.
  - reflexivity.
  - change (objects strokeScene) with [shortStroke] in Hall.
    destruct (Forall2_singleton _ _ _ Hall) as [o2 [E2 Ho]].
    destruct Ho as [_ [_ [_ [_ [_ [_ [_ [_ [Hint Hpath]]]]]]]]].
    simpl in Hpath.
    destruct (Data.path (data o2)) as [path2 |] eqn:Ep; [| contradiction].
    exists a1, c1, a2, c2, o2, path2.
    split; [exact H1 |]. split; [exact H2 |]. split; [exact E2 |].
    split; [| split; [exact Ep | exact Hpath]].
    destruct Hint as [Et _]; [| exact Et].
    unfold integerGesture, isInteger. simpl.
    repeat split; eexists; reflexivity.
Defined.

(** ** The size and canvas invariant *)

Lemma applyEraser_transform (obj : CanvasObject) (path : list Point.t)
    (p : Point.t) (d : R) (pt : option ParentTransform.t) :
  transform (applyEraserToObject obj path p d pt) = transform obj.
Proof.
  destruct (isGroup obj) eqn:G.
  - unfold isGroup in G.
    destruct (isType obj ObjType.merged) eqn:Ht; [| discriminate].
    destruct (children obj) as [cs |] eqn:Hc; [| discriminate].
    rewrite (applyEraser_group obj cs path p d pt Ht Hc). reflexivity.
  - rewrite (applyEraser_leaf obj path p d pt G). reflexivity.
Qed.

Lemma moveObject_transform (o : CanvasObject) (r : Rect.t) (dx dy : R) :
  transform (moveObject o r dx dy) =
    transformWithXY (transform o) (Rect.x r) (Rect.y r).
Proof.
  unfold moveObject.
  destruct (isType o ObjType.merged); destruct (children o);
    destruct (isType o ObjType.drawn); destruct (Data.path (data o));
    reflexivity.
Qed.

Lemma resize_fits (handle : string) (t : Transform.t) (dx dy : R) :
  transformOk (resizeTransform handle t dx dy).
Proof.
  unfold resizeTransform, transformOk.
  cbn [Transform.x Transform.y Transform.width Transform.height].
  apply constrain_fits.
  - destruct (Rltb _ 10) eqn:E; [lra |].
    unfold Rltb in E. destruct (Rlt_dec _ 10); [discriminate | lra].
  - destruct (Rltb _ 10) eqn:E; [lra |].
    unfold Rltb in E. destruct (Rlt_dec _ 10); [discriminate | lra].
Qed.

(** Dragging keeps an object that fits inside the canvas. *)
Lemma move_fits (t : Transform.t) (newX newY : R) :
  transformOk t ->
  transformOk
    (transformWithXY t
       (Rect.x (constrainToCanvas newX newY (Transform.width t)
                  (Transform.height t)))
       (Rect.y (constrainToCanvas newX newY (Transform.width t)
                  (Transform.height t)))).
Proof.
  unfold transformOk, fitsCanvas, constrainToCanvas. simpl.
  intros H. repeat split; rsolve.
Qed.

Lemma sceneOk_map (g : CanvasObject -> CanvasObject)
    (objs : list CanvasObject) :
  sceneOk objs ->
  (forall o, In o objs -> transformOk (transform o) ->
             transformOk (transform (g o))) ->
  sceneOk (map g objs).
Proof.
  unfold sceneOk. intros Hok Hg. apply Forall_forall. intros o' Ho'.
  apply in_map_iff in Ho'. destruct Ho' as [o [<- Ho]].
  apply Hg; [exact Ho |]. rewrite Forall_forall in Hok. apply Hok, Ho.
Qed.

Lemma sceneOk_filter (f : CanvasObject -> bool) (objs : list CanvasObject) :
  sceneOk objs -> sceneOk (filter f objs).
Proof.
  unfold sceneOk. rewrite !Forall_forall. intros H o Ho.
  apply filter_In in Ho. apply H, Ho.
Qed.

Lemma handleMouseDown_objects (a : AppState) (c : CanvasState)
    (e : MouseEvent) :
  objects (fst (handleMouseDown a c e)) = objects a.
Proof.
  unfold handleMouseDown, clickSelect.
  repeat match goal with
         | |- context [if ?b then _ else _] => destruct b
         | |- context [match ?x with _ => _ end] => destruct x
         end; reflexivity.
Qed.

(** The select branch keeps the invariant. *)
Lemma dragSelected_ok (a : AppState) (c : CanvasState) (p start : Point.t)
    (sel : CanvasObject) (r : AppState * CanvasState) :
  sceneOk (objects a) -> NoDup (map id (objects a)) ->
  In sel (objects a) ->
  dragSelected a c p start sel = Some r ->
  sceneOk (objects (fst r)).
Proof.
  intros Hok Hnd Hin Hr.
  assert (Hmove :
    forall r',
      match dragOffset c with
      | Some off =>
          Some (updateObjects a
                  (map (fun obj =>
                          if String.eqb (id obj) (id sel)
                          then moveObject obj
                                 (constrainToCanvas
                                    (Point.x p - Point.x off)
                                    (Point.y p - Point.y off)
                                    (Transform.width (transform sel))
                                    (Transform.height (transform sel)))
                                 (Rect.x
                                    (constrainToCanvas
                                       (Point.x p - Point.x off)
                                       (Point.y p - Point.y off)
                                       (Transform.width (transform sel))
                                       (Transform.height (transform sel)))
                                  - Transform.x (transform sel))
                                 (Rect.y
                                    (constrainToCanvas
                                       (Point.x p - Point.x off)
                                       (Point.y p - Point.y off)
                                       (Transform.width (transform sel))
                                       (Transform.height (transform sel)))
                                  - Transform.y (transform sel))
                          else obj)
                       (objects a)), c)
      | None => None
      end = Some r' -> sceneOk (objects (fst r'))).
  { intros r' Hr'. destruct (dragOffset c) as [off |]; [| discriminate].
    injection Hr' as <-. simpl. apply sceneOk_map; [exact Hok |].
    intros o Ho Hto. destruct (String.eqb (id o) (id sel)) eqn:Eid;
      [| exact Hto].
    apply String.eqb_eq in Eid.
    assert (o = sel) by (apply (unique_id (objects a)); assumption).
    subst o. rewrite moveObject_transform. apply move_fits. exact Hto. }
  unfold dragSelected in Hr.
  destruct (resizeHandle c) as [handle |]; [| apply Hmove; exact Hr].
  destruct (String.eqb handle ""); [apply Hmove; exact Hr |].
  destruct (String.eqb handle "rotate").
  - injection Hr as <-. simpl. apply sceneOk_map; [exact Hok |].
    intros o Ho Hto. destruct (String.eqb (id o) (id sel)); exact Hto.
  - injection Hr as <-. simpl. apply sceneOk_map; [exact Hok |].
    intros o Ho Hto. destruct (String.eqb (id o) (id sel)); [| exact Hto].
    rewrite resizeObject_transform. apply resize_fits.
Qed.

Lemma handleMouseMove_ok (a : AppState) (c : CanvasState) (e : MouseEvent)
    (r : AppState * CanvasState) :
  sceneOk (objects a) -> NoDup (map id (objects a)) ->
  handleMouseMove a c e = Some r -> sceneOk (objects (fst r)).
Proof.
  intros Hok Hnd Hr. unfold handleMouseMove in Hr.
  destruct (tool_eqb (currentTool a) brush && isDrawing c);
    [injection Hr as <-; exact Hok |].
  destruct (tool_eqb (currentTool a) eraser && isDrawing c).
  { injection Hr as <-. simpl. apply sceneOk_map; [exact Hok |].
    intros o Ho Hto.
    destruct (isPointInObject _ _ o); [| exact Hto].
    rewrite applyEraser_transform. exact Hto. }
  destruct (tool_eqb (currentTool a) select);
    [| injection Hr as <-; exact Hok].
  destruct (dragStart c) as [start |]; [| injection Hr as <-; exact Hok].
  destruct (selectedIds a) as [| i ids] eqn:Hids;
    [injection Hr as <-; exact Hok |].
  destruct (marqueeStart c); [injection Hr as <-; exact Hok |].
  destruct (firstSelected a) as [sel |] eqn:Hsel;
    [| injection Hr as <-; exact Hok].
  destruct (firstSelected_in a sel Hsel) as [Hin _].
  eapply dragSelected_ok; eassumption.
Qed.

Lemma handleMouseUp_ok (env : Env) (a : AppState) (c : CanvasState)
    (e : MouseEvent) (r : AppState * CanvasState) :
  sceneOk (objects a) -> currentTool a <> brush ->
  handleMouseUp env a c e = Some r -> sceneOk (objects (fst r)).
Proof.
  intros Hok Hnb Hr. unfold handleMouseUp in Hr.
  assert (Eb : tool_eqb (currentTool a) brush = false)
    by (destruct (currentTool a); try reflexivity; contradiction).
  rewrite Eb in Hr. simpl in Hr.
  destruct (isShapeTool (currentTool a)); [destruct (shapeStart c) as [s |];
    [destruct (shapeCurrent c) as [q |] |] |].
  - injection Hr as <-. simpl.
    destruct (Rgtb (Rabs (Point.x q - Point.x s)) 10) eqn:Ew;
      [| exact Hok].
    destruct (Rgtb (Rabs (Point.y q - Point.y s)) 10) eqn:Eh;
      [| exact Hok].
    simpl. unfold sceneOk. apply Forall_app. split; [exact Hok |].
    constructor; [| constructor]. simpl.
    apply Rltb_iff in Ew. apply Rltb_iff in Eh.
    apply constrain_fits; lra.
  - destruct (tool_eqb (currentTool a) select
              || tool_eqb (currentTool a) merge);
      [destruct (marqueeStart c); [destruct (marqueeCurrent c) |] |];
      injection Hr as <-; simpl;
      try (destruct (ctrlKey e || metaKey e)); exact Hok.
  - destruct (tool_eqb (currentTool a) select
              || tool_eqb (currentTool a) merge);
      [destruct (marqueeStart c); [destruct (marqueeCurrent c) |] |];
      injection Hr as <-; simpl;
      try (destruct (ctrlKey e || metaKey e)); exact Hok.
  - destruct (tool_eqb (currentTool a) select
              || tool_eqb (currentTool a) merge);
      [destruct (marqueeStart c); [destruct (marqueeCurrent c) |] |];
      injection Hr as <-; simpl;
      try (destruct (ctrlKey e || metaKey e)); exact Hok.
Qed.

Lemma mergeBounds_nil : mergeBounds [] = noBounds.
Proof. reflexivity. Qed.

Lemma handleMerge_ok (now : nat) (a a' : AppState) :
  sceneOk (objects a) -> handleMerge now a = Some a' ->
  sceneOk (objects a').
Proof.
  intros Hok Hm. unfold handleMerge in Hm.
  destruct (List.length (selectedIds a) <? 2)%nat;
    [injection Hm as <-; exact Hok |].
  set (sel := filter (fun obj => includes (selectedIds a) (id obj))
                (objects a)) in *.
  destruct sel as [| o0 sel'] eqn:Esel; [discriminate |].
  assert (Hne : o0 :: sel' <> []) by discriminate.
  destruct (mergeBounds_union (o0 :: sel') Hne)
    as [x0 [y0 [x1 [y1 [Hb [Hx0 [Hy0 [Hx1 Hy1]]]]]]]].
  rewrite Hb in Hm. cbn [minX minY maxX maxY] in Hm.
  injection Hm as <-. simpl objects.
  assert (Hsel : forall o, In o (o0 :: sel') -> transformOk (transform o)).
  { intros o Ho. rewrite <- Esel in Ho. unfold sel in Ho.
    apply filter_In in Ho. unfold sceneOk in Hok.
    rewrite Forall_forall in Hok. apply Hok, Ho. }
  unfold sceneOk. apply Forall_app. split.
  - apply sceneOk_filter. exact Hok.
  - constructor; [| constructor].
    unfold mergedObject, transformOk, fitsCanvas.
    cbn [transform Transform.x Transform.y Transform.width
           Transform.height].
    destruct Hx0 as [[ox0 [Hix0 Hfx0]] Hlx0].
    destruct Hy0 as [[oy0 [Hiy0 Hfy0]] Hly0].
    destruct Hx1 as [[ox1 [Hix1 Hfx1]] Hlx1].
    destruct Hy1 as [[oy1 [Hiy1 Hfy1]] Hly1].
    pose proof (Hsel ox0 Hix0) as [_ [_ [Ax0 _]]].
    pose proof (Hsel oy0 Hiy0) as [_ [_ [_ [_ [Ay0 _]]]]].
    pose proof (Hsel ox1 Hix1) as [_ [_ [_ [Ax1 _]]]].
    pose proof (Hsel oy1 Hiy1) as [_ [_ [_ [_ [_ Ay1]]]]].
    pose proof (Hsel o0 (or_introl eq_refl)) as [Aw [Ah _]].
    pose proof (Hlx0 o0 (or_introl eq_refl)) as Bx0.
    pose proof (Hly0 o0 (or_introl eq_refl)) as By0.
    pose proof (Hlx1 o0 (or_introl eq_refl)) as Bx1.
    pose proof (Hly1 o0 (or_introl eq_refl)) as By1.
    cbv beta in *.
    repeat split; rsolve.
Qed.

(** A merge of objects that satisfy the invariant builds a group that
    carries its original size: the groups met by the eraser are of this
    kind. *)
Lemma handleMerge_original_size (now : nat) (a a' : AppState) :
  sceneOk (objects a) -> (2 <= List.length (selectedIds a))%nat ->
  handleMerge now a = Some a' ->
  exists rest g,
    objects a' = rest ++ [g] /\ isGroup g = true /\ hasOriginalSize g.
Proof.
  intros Hok Hn Hm. unfold handleMerge in Hm.
  assert (E : (List.length (selectedIds a) <? 2)%nat = false)
    by (apply Nat.ltb_ge; exact Hn).
  rewrite E in Hm.
  set (sel := filter (fun obj => includes (selectedIds a) (id obj))
                (objects a)) in *.
  destruct sel as [| o0 sel'] eqn:Esel; [discriminate |].
  assert (Hne : o0 :: sel' <> []) by discriminate.
  destruct (mergeBounds_union (o0 :: sel') Hne)
    as [x0 [y0 [x1 [y1 [Hb [Hx0 [Hy0 [Hx1 Hy1]]]]]]]].
  rewrite Hb in Hm. cbn [minX minY maxX maxY] in Hm.
  injection Hm as <-. simpl objects.
  eexists. eexists. split; [reflexivity |]. split; [reflexivity |].
  assert (Ho0 : transformOk (transform o0)).
  { unfold sceneOk in Hok. rewrite Forall_forall in Hok. apply Hok.
    assert (Hin : In o0 sel) by (rewrite Esel; left; reflexivity).
    unfold sel in Hin. apply filter_In in Hin. apply Hin. }
  destruct Ho0 as [Aw [Ah _]].
  destruct Hx0 as [_ Hlx0]. destruct Hy0 as [_ Hly0].
  destruct Hx1 as [_ Hlx1]. destruct Hy1 as [_ Hly1].
  pose proof (Hlx0 o0 (or_introl eq_refl)) as Bx0.
  pose proof (Hly0 o0 (or_introl eq_refl)) as By0.
  pose proof (Hlx1 o0 (or_introl eq_refl)) as Bx1.
  pose proof (Hly1 o0 (or_introl eq_refl)) as By1.
  cbv beta in *.
  unfold hasOriginalSize, recordedWidth, recordedHeight, mergedObject.
  cbn [data Data.originalWidth Data.originalHeight]. split; lra.
Qed.

(** The handlers do return: [handleMouseUp] always, [handleMouseMove]
    whenever a grab offset is recorded (it is recorded by every press that
    starts a drag), [handleMerge] whenever some object is selected. *)
Lemma handleMouseUp_total (env : Env) (a : AppState) (c : CanvasState)
    (e : MouseEvent) :
  exists r, handleMouseUp env a c e = Some r.
Proof.
  destruct (tool_eqb (currentTool a) brush && isDrawing c
            && (1 <? List.length (currentPath c))%nat) eqn:E.
  - apply andb_true_iff in E. destruct E as [E El].
    apply andb_true_iff in E. destruct E as [Et Ed].
    apply Nat.ltb_lt in El.
    assert (Ht : currentTool a = brush)
      by (destruct (currentTool a); try discriminate; reflexivity).
    destruct (brush_commit env a c e Ht Ed El) as [x0 [y0 [x1 [y1 [_ H]]]]].
    eexists; exact H.
  - unfold handleMouseUp. rewrite E.
    destruct (isShapeTool (currentTool a)); destruct (shapeStart c);
      destruct (shapeCurrent c);
      destruct (tool_eqb (currentTool a) select
                || tool_eqb (currentTool a) merge);
      destruct (marqueeStart c); destruct (marqueeCurrent c);
      eexists; reflexivity.
Qed.

Lemma handleMouseMove_total (a : AppState) (c : CanvasState)
    (e : MouseEvent) (off : Point.t) :
  dragOffset c = Some off -> exists r, handleMouseMove a c e = Some r.
Proof.
  intros Hoff. unfold handleMouseMove.
  destruct (tool_eqb (currentTool a) brush && isDrawing c);
    [eexists; reflexivity |].
  destruct (tool_eqb (currentTool a) eraser && isDrawing c);
    [eexists; reflexivity |].
  destruct (tool_eqb (currentTool a) select); [| eexists; reflexivity].
  destruct (dragStart c); [| eexists; reflexivity].
  destruct (selectedIds a); [eexists; reflexivity |].
  destruct (marqueeStart c); [eexists; reflexivity |].
  destruct (firstSelected _); [| eexists; reflexivity].
  unfold dragSelected.
  destruct (trackPointer_keeps c (pos e)) as [_ [_ [Ko _]]].
  rewrite Ko, Hoff.
  destruct (resizeHandle _) as [h |]; [| eexists; reflexivity].
  destruct (String.eqb h ""); [eexists; reflexivity |].
  destruct (String.eqb h "rotate"); eexists; reflexivity.
Qed.

Lemma handleMerge_total (now : nat) (a : AppState) :
  filter (fun obj => includes (selectedIds a) (id obj)) (objects a) <> [] ->
  exists a', handleMerge now a = Some a'.
Proof.
  intros Hne. unfold handleMerge.
  destruct (List.length (selectedIds a) <? 2)%nat; [eexists; reflexivity |].
  destruct (mergeBounds_union _ Hne) as [x0 [y0 [x1 [y1 [-> _]]]]].
  eexists; reflexivity.
Qed.

Lemma brush_commit_extent (env : Env) (a : AppState) (c : CanvasState)
    (e : MouseEvent) :
  currentTool a = brush -> isDrawing c = true ->
  (1 < List.length (currentPath c))%nat ->
  exists x0 y0 x1 y1,
    isMinOf Point.x (currentPath c) x0 /\
    isMinOf Point.y (currentPath c) y0 /\
    isMaxOf Point.x (currentPath c) x1 /\
    isMaxOf Point.y (currentPath c) y1 /\
    handleMouseUp env a c e =
      Some (updateObjects a
              (objects a ++ [drawnObject env a (currentPath c) x0 y0 x1 y1]),
            releasePointer (setCurrentPath c [])).
Proof.
  intros Ht Hd Hl.
  assert (Hne : currentPath c <> [])
    by (destruct (currentPath c); [simpl in Hl; lia | discriminate]).
  destruct (pathBounds_extent (currentPath c) Hne)
    as [x0 [y0 [x1 [y1 [Hb [Hx0 [Hy0 [Hx1 Hy1]]]]]]]].
  exists x0, y0, x1, y1. repeat split; try apply Hx0; try apply Hy0;
    try apply Hx1; try apply Hy1.
  unfold handleMouseUp. rewrite Ht, Hd. simpl.
  apply Nat.ltb_lt in Hl. rewrite Hl, Hb. reflexivity.
Qed.

Lemma press_brush :
  handleMouseDown brushScene initialCanvas
    (mkEvent (Point.mk 2 2) false false) =
  (brushScene, setCurrentPath (setIsDrawing initialCanvas true)
                 [Point.mk 2 2]).
Proof.
  unfold handleMouseDown. simpl. rdecide. reflexivity.
Qed.

(** C1, as stated, fails: a brush stroke of size 5 drawn from (2,2) to
    (30,40), all inside the canvas, commits a drawn object whose rect starts
    at x = -3, outside the canvas. *)
Lemma brush_commit_leaves_canvas :
  exists a1 c1 a2 c2 o,
    handleMouseMove
      (fst (handleMouseDown brushScene initialCanvas
              (mkEvent (Point.mk 2 2) false false)))
      (snd (handleMouseDown brushScene initialCanvas
              (mkEvent (Point.mk 2 2) false false)))
      (mkEvent (Point.mk 30 40) false false) = Some (a1, c1) /\
    handleMouseUp (mkEnv 1 (fun _ => 0)) a1 c1
      (mkEvent (Point.mk 30 40) false false) = Some (a2, c2) /\
    objects a2 = [o] /\
    Transform.x (transform o) < 0.
Proof.
  rewrite press_brush.
  do 5 eexists. split; [reval; reflexivity |].
  split; [reval; reflexivity |].
  split; [reflexivity |].
  reval. rsolve.
Qed.

(** C1, amended.  If every top-level object is at least 10x10 and inside
    [0,1200] x [0,800] (and object ids are distinct), then so is every
    top-level object after a pointer press, after a pointer move (drawing,
    erasing, dragging, resizing or rotating the selected object), after a
    pointer release that is not a brush commit (shape commit, marquee), and
    after a merge.  A brush commit appends a drawn object whose rect is the
    extent of the path padded by the brush size on every side, neither
    clamped to the canvas nor held to the 10-unit minimum. *)
Theorem canvas_invariant_preserved (env : Env) (time : nat) (a : AppState)
    (c : CanvasState) (e : MouseEvent) :
  sceneOk (objects a) -> NoDup (map id (objects a)) ->
  sceneOk (objects (fst (handleMouseDown a c e))) /\
  (forall r, handleMouseMove a c e = Some r -> sceneOk (objects (fst r))) /\
  (currentTool a <> brush ->
   forall r, handleMouseUp env a c e = Some r -> sceneOk (objects (fst r))) /\
  (forall a', handleMerge time a = Some a' -> sceneOk (objects a')) /\
  (currentTool a = brush -> isDrawing c = true ->
   (1 < List.length (currentPath c))%nat ->
   exists x0 y0 x1 y1 a' c' o,
     isMinOf Point.x (currentPath c) x0 /\
     isMinOf Point.y (currentPath c) y0 /\
     isMaxOf Point.x (currentPath c) x1 /\
     isMaxOf Point.y (currentPath c) y1 /\
     handleMouseUp env a c e = Some (a', c') /\
     objects a' = objects a ++ [o] /\
     transform o =
       Transform.mk (x0 - brushSize a) (y0 - brushSize a)
         (x1 - x0 + brushSize a * 2) (y1 - y0 + brushSize a * 2) 0).
Proof.
  intros Hok Hnd.
  split; [rewrite handleMouseDown_objects; exact Hok |].
  split; [intros r; apply handleMouseMove_ok; assumption |].
  split; [intros Hnb r; apply handleMouseUp_ok; assumption |].
  split; [intros a'; apply handleMerge_ok; assumption |].
  intros Ht Hd Hl.
  destruct (brush_commit_extent env a c e Ht Hd Hl)
    as [x0 [y0 [x1 [y1 [Hx0 [Hy0 [Hx1 [Hy1 Hup]]]]]]]].
  exists x0, y0, x1, y1. do 3 eexists.
  split; [exact Hx0 |]. split; [exact Hy0 |].
  split; [exact Hx1 |]. split; [exact Hy1 |].
  split; [exact Hup |]. split; reflexivity.
Qed.

(** Dragging the selected 100x100 rectangle from the origin by (10, -5):
    x becomes 10 and y stays clamped at 0. *)
Lemma canvas_invariant_preserved_witness :
  exists a' c' o,
    handleMouseMove panelScene
      (setDragOffset (setDragStart initialCanvas (Some (Point.mk 50 50)))
         (Some (Point.mk 50 50)))
      (mkEvent (Point.mk 60 45) false false) = Some (a', c') /\
    objects a' = [o] /\
    Transform.x (transform o) = 10 /\ Transform.y (transform o) = 0 /\
    sceneOk (objects a').
Proof.
  assert (Hok : sceneOk (objects panelScene)).
  { constructor; [| constructor].
    unfold transformOk, fitsCanvas, CANVAS_WIDTH, CANVAS_HEIGHT. simpl.
    lra. }
  assert (Hnd : NoDup (map id (objects panelScene))).
  { simpl. constructor; [intros [] | constructor]. }
  destruct (canvas_invariant_preserved (mkEnv 1 (fun _ => 0)) 1 panelScene
              (setDragOffset
                 (setDragStart initialCanvas (Some (Point.mk 50 50)))
                 (Some (Point.mk 50 50)))
              (mkEvent (Point.mk 60 45) false false) Hok Hnd)
    as [_ [Hmove _]].
  do 3 eexists.
  split; [reval; reflexivity |]. split; [reflexivity |].
  split; [reval; rsolve |]. split; [reval; rsolve |].
  apply (Hmove _ eq_refl).
Defined.

(** * Further properties *)

(** ** History: the live scene and the snapshots *)

Lemma history_eta (h : HistoryState) : mkHistory (h_objects h) = h.
Proof. destruct h; reflexivity. Qed.

Lemma nth_error_firstn_app {A : Type} (l : list A) (n : nat) (x : A) :
  (n < List.length l)%nat ->
  nth_error (firstn (n + 1) l ++ [x]) (n + 1) = Some x.
Proof.
  intros H.
  assert (L : List.length (firstn (n + 1) l) = (n + 1)%nat)
    by (rewrite length_firstn; lia).
  rewrite nth_error_app2 by lia. rewrite L, Nat.sub_diag. reflexivity.
Qed.

Lemma nth_error_firstn_keep {A : Type} (l : list A) (n k : nat) (x : A) :
  (k <= n)%nat -> (n < List.length l)%nat ->
  nth_error (firstn (n + 1) l ++ [x]) k = nth_error l k.
Proof.
  intros Hk Hn.
  rewrite nth_error_app1 by (rewrite length_firstn; lia).
  rewrite nth_error_firstn.
  assert (E : (k <? n + 1)%nat = true) by (apply Nat.ltb_lt; lia).
  rewrite E. reflexivity.
Qed.

Lemma historySynced_ok (a : AppState) : historySynced a -> historyOk a.
Proof.
  unfold historySynced, historyOk. intros H.
  apply nth_error_Some. rewrite H. discriminate.
Qed.

Lemma updateObjects_index (a : AppState) (objs : list CanvasObject) :
  historyOk a ->
  historyIndex (updateObjects a objs) = (historyIndex a + 1)%nat /\
  List.length (history (updateObjects a objs)) = (historyIndex a + 2)%nat.
Proof.
  unfold historyOk. intros H. simpl.
  rewrite length_app, length_firstn. simpl. lia.
Qed.

Lemma updateObjects_synced (a : AppState) (objs : list CanvasObject) :
  historySynced (updateObjects a objs).
Proof.
  unfold historySynced. simpl.
  set (l := firstn (historyIndex a + 1) (history a)).
  rewrite length_app. simpl.
  rewrite nth_error_app2 by lia.
  replace (List.length l + 1 - 1 - List.length l)%nat with 0%nat by lia.
  reflexivity.
Qed.

(** A state change that touches neither the objects nor the history. *)
Lemma historySynced_same (a a' : AppState) :
  objects a' = objects a -> history a' = history a ->
  historyIndex a' = historyIndex a ->
  historySynced a -> historySynced a'.
Proof.
  unfold historySynced. intros -> -> ->. exact (fun H => H).
Qed.

Lemma handleUndo_synced (a a' : AppState) :
  historySynced a -> handleUndo a = Some a' -> historySynced a'.
Proof.
  unfold handleUndo. intros Hs H.
  destruct (0 <? historyIndex a)%nat; [| injection H as <-; exact Hs].
  destruct (nth_error (history a) (historyIndex a - 1)) as [h |] eqn:N;
    [| discriminate].
  injection H as <-. unfold historySynced. simpl.
  rewrite N, history_eta. reflexivity.
Qed.

Lemma handleRedo_synced (a a' : AppState) :
  historySynced a -> handleRedo a = Some a' -> historySynced a'.
Proof.
  unfold handleRedo. intros Hs H.
  destruct (historyIndex a <? List.length (history a) - 1)%nat;
    [| injection H as <-; exact Hs].
  destruct (nth_error (history a) (historyIndex a + 1)) as [h |] eqn:N;
    [| discriminate].
  injection H as <-. unfold historySynced. simpl.
  rewrite N, history_eta. reflexivity.
Qed.

Lemma handleMerge_synced (now : nat) (a a' : AppState) :
  historySynced a -> handleMerge now a = Some a' -> historySynced a'.
Proof.
  unfold handleMerge. intros Hs H.
  destruct (List.length (selectedIds a) <? 2)%nat;
    [injection H as <-; exact Hs |].
  destruct (minX _); [| discriminate]. destruct (minY _); [| discriminate].
  destruct (maxX _); [| discriminate]. destruct (maxY _); [| discriminate].
  injection H as <-.
  eapply historySynced_same; [| | | apply updateObjects_synced];
    reflexivity.
Qed.

Lemma handleObjectUpdate_synced (a : AppState) (u : Updates) :
  historySynced a -> historySynced (handleObjectUpdate a u).
Proof.
  unfold handleObjectUpdate. intros Hs.
  destruct (selectedIds a) as [| i [| j l]]; try exact Hs.
  apply updateObjects_synced.
Qed.

Lemma handleDelete_synced (a : AppState) :
  historySynced a -> historySynced (handleDelete a).
Proof.
  unfold handleDelete. intros Hs.
  destruct (selectedIds a); [exact Hs |].
  eapply historySynced_same; [| | | apply updateObjects_synced];
    reflexivity.
Qed.

Lemma handleMouseDown_synced (a : AppState) (c : CanvasState)
    (e : MouseEvent) :
  historySynced a -> historySynced (fst (handleMouseDown a c e)).
Proof.
  intros Hs. eapply historySynced_same; [| | | exact Hs];
    unfold handleMouseDown, clickSelect;
    repeat match goal with
           | |- context [if ?b then _ else _] => destruct b
           | |- context [match ?x with _ => _ end] => destruct x
           end; reflexivity.
Qed.

Lemma dragSelected_synced (a : AppState) (c : CanvasState)
    (p start : Point.t) (sel : CanvasObject) (r : AppState * CanvasState) :
  dragSelected a c p start sel = Some r -> historySynced (fst r).
Proof.
  unfold dragSelected. intros H.
  destruct (resizeHandle c) as [h |].
  - destruct (String.eqb h "").
    + destruct (dragOffset c); [| discriminate].
      injection H as <-. apply updateObjects_synced.
    + destruct (String.eqb h "rotate"); injection H as <-;
        apply updateObjects_synced.
  - destruct (dragOffset c); [| discriminate].
    injection H as <-. apply updateObjects_synced.
Qed.

Lemma handleMouseMove_synced (a : AppState) (c : CanvasState)
    (e : MouseEvent) (r : AppState * CanvasState) :
  historySynced a -> handleMouseMove a c e = Some r ->
  historySynced (fst r).
Proof.
  intros Hs H. unfold handleMouseMove in H.
  destruct (tool_eqb (currentTool a) brush && isDrawing c);
    [injection H as <-; exact Hs |].
  destruct (tool_eqb (currentTool a) eraser && isDrawing c);
    [injection H as <-; apply updateObjects_synced |].
  destruct (tool_eqb (currentTool a) select);
    [| injection H as <-; exact Hs].
  destruct (dragStart c); [| injection H as <-; exact Hs].
  destruct (selectedIds a); [injection H as <-; exact Hs |].
  destruct (marqueeStart c); [injection H as <-; exact Hs |].
  destruct (firstSelected a); [| injection H as <-; exact Hs].
  eapply dragSelected_synced. exact H.
Qed.

Lemma handleMouseUp_synced (env : Env) (a : AppState) (c : CanvasState)
    (e : MouseEvent) (r : AppState * CanvasState) :
  historySynced a -> handleMouseUp env a c e = Some r ->
  historySynced (fst r).
Proof.
  intros Hs H. unfold handleMouseUp in H.
  destruct (tool_eqb (currentTool a) brush && isDrawing c
            && (1 <? List.length (currentPath c))%nat).
  - destruct (minX _); [| discriminate].
    destruct (minY _); [| discriminate].
    destruct (maxX _); [| discriminate].
    destruct (maxY _); [| discriminate].
    injection H as <-. apply updateObjects_synced.
  - destruct (isShapeTool (currentTool a)); destruct (shapeStart c);
      destruct (shapeCurrent c);
      try (injection H as <-; simpl;
           match goal with
           | |- context [if ?b then _ else _] => destruct b
           end; [apply updateObjects_synced | exact Hs]);
      destruct (tool_eqb (currentTool a) select
                || tool_eqb (currentTool a) merge);
      destruct (marqueeStart c); destruct (marqueeCurrent c);
      injection H as <-; simpl;
      try (destruct (ctrlKey e || metaKey e)); exact Hs.
Qed.

(** X1.  The live object list is always the snapshot the history index
    points at: if it is so before, it is so after undo, redo, New, delete,
    a property edit, a merge, an image import and every pointer press, move
    and release.  (In particular the index always points into the
    history, so undo and redo never read a missing snapshot.) *)
Theorem history_synced_preserved (env : Env) (time : nat) (a : AppState)
    (c : CanvasState) (e : MouseEvent) (u : Updates) (url : string)
    (w h : R) :
  historySynced a ->
  (forall a', handleUndo a = Some a' -> historySynced a') /\
  (forall a', handleRedo a = Some a' -> historySynced a') /\
  historySynced (handleNew a) /\
  historySynced (handleDelete a) /\
  historySynced (handleObjectUpdate a u) /\
  (forall a', handleMerge time a = Some a' -> historySynced a') /\
  historySynced (handleImageLoaded time a url w h) /\
  historySynced (fst (handleMouseDown a c e)) /\
  (forall r, handleMouseMove a c e = Some r -> historySynced (fst r)) /\
  (forall r, handleMouseUp env a c e = Some r -> historySynced (fst r)).
Proof.
  intros Hs.
  split; [intros a'; apply handleUndo_synced; exact Hs |].
  split; [intros a'; apply handleRedo_synced; exact Hs |].
  split; [reflexivity |].
  split; [apply handleDelete_synced; exact Hs |].
  split; [apply handleObjectUpdate_synced; exact Hs |].
  split; [intros a'; apply handleMerge_synced; exact Hs |].
  split.
  { unfold handleImageLoaded.
    eapply historySynced_same; [| | | apply updateObjects_synced];
      reflexivity. }
  split; [apply handleMouseDown_synced; exact Hs |].
  split; [intros r; apply handleMouseMove_synced; exact Hs |].
  intros r; apply handleMouseUp_synced; exact Hs.
Qed.

Lemma history_synced_preserved_witness :
  historySynced historyScene /\
  exists a', handleUndo historyScene = Some a' /\ historySynced a'.
Proof.
  assert (Hs : historySynced historyScene) by reflexivity.
  split; [exact Hs |].
  destruct (history_synced_preserved (mkEnv 0 (fun _ => 0)) 0 historyScene
              initialCanvas (mkEvent (Point.mk 0 0) false false) noUpdates
              "" 0 0 Hs) as [Hu _].
  eexists. split; [reflexivity |]. apply Hu. reflexivity.
Defined.

(** X2.  A commit can be undone and redone: after [updateObjects a objs] on
    a synced state, undo brings back exactly the objects of [a] (with the
    selection cleared), and redo from there brings back [objs]. *)
Theorem commit_undo_redo (a : AppState) (objs : list CanvasObject) :
  historySynced a ->
  exists a1 a2,
    handleUndo (updateObjects a objs) = Some a1 /\
    objects a1 = objects a /\ selectedIds a1 = [] /\
    historyIndex a1 = historyIndex a /\
    handleRedo a1 = Some a2 /\
    objects a2 = objs /\ selectedIds a2 = [] /\
    historyIndex a2 = (historyIndex a + 1)%nat /\
    history a2 = history (updateObjects a objs).
Proof.
  intros Hs. pose proof (historySynced_ok a Hs) as Hok.
  unfold historyOk in Hok. unfold historySynced in Hs.
  set (idx := historyIndex a) in *.
  assert (Hlen : List.length (firstn (idx + 1) (history a)
                              ++ [mkHistory objs]) = (idx + 2)%nat).
  { rewrite length_app, length_firstn. simpl. lia. }
  assert (N0 : nth_error (firstn (idx + 1) (history a) ++ [mkHistory objs])
                 idx = Some (mkHistory (objects a))).
  { rewrite nth_error_firstn_keep by lia. exact Hs. }
  assert (N1 : nth_error (firstn (idx + 1) (history a) ++ [mkHistory objs])
                 (idx + 1) = Some (mkHistory objs)).
  { apply nth_error_firstn_app. exact Hok. }
  unfold handleUndo, handleRedo, updateObjects, addToHistory. simpl.
  fold idx. rewrite Hlen.
  replace (idx + 2 - 1)%nat with (idx + 1)%nat by lia.
  assert (E1 : (0 <? idx + 1)%nat = true) by (apply Nat.ltb_lt; lia).
  rewrite E1.
  replace (idx + 1 - 1)%nat with idx by lia. rewrite N0.
  do 2 eexists. split; [reflexivity |]. simpl.
  split; [reflexivity |]. split; [reflexivity |]. split; [reflexivity |].
  rewrite Hlen.
  assert (E2 : (idx <? idx + 2 - 1)%nat = true) by (apply Nat.ltb_lt; lia).
  rewrite E2, N1. simpl.
  split; [reflexivity |]. repeat split.
Qed.

Lemma commit_undo_redo_witness :
  exists a1 a2,
    handleUndo (updateObjects historyScene []) = Some a1 /\
    objects a1 = objects historyScene /\
    handleRedo a1 = Some a2 /\ objects a2 = [].
Proof.
  destruct (commit_undo_redo historyScene [] eq_refl)
    as [a1 [a2 [H1 [H2 [_ [_ [H3 [H4 _]]]]]]]].
  exists a1, a2. repeat split; assumption.
Defined.

(** X3.  Undo and redo are inverse to each other on a synced state: away
    from the first snapshot, undo followed by redo gives back the state with
    only the selection cleared; away from the last snapshot, so does redo
    followed by undo. *)
Theorem undo_redo_inverse (a : AppState) :
  historySynced a ->
  ((0 < historyIndex a)%nat ->
   exists a1, handleUndo a = Some a1 /\
              handleRedo a1 = Some (setSelectedIds a [])) /\
  ((historyIndex a + 1 < List.length (history a))%nat ->
   exists a1, handleRedo a = Some a1 /\
              handleUndo a1 = Some (setSelectedIds a [])).
Proof.
  intros Hs. pose proof (historySynced_ok a Hs) as Hok.
  unfold historyOk in Hok. unfold historySynced in Hs.
  split.
  - intros Hpos. unfold handleUndo.
    assert (E : (0 <? historyIndex a)%nat = true)
      by (apply Nat.ltb_lt; exact Hpos).
    rewrite E.
    destruct (nth_error (history a) (historyIndex a - 1)) as [h |] eqn:N;
      [| apply nth_error_None in N; lia].
    eexists. split; [reflexivity |].
    unfold handleRedo. simpl.
    assert (E2 : (historyIndex a - 1 <? List.length (history a) - 1)%nat
                 = true) by (apply Nat.ltb_lt; lia).
    rewrite E2.
    replace (historyIndex a - 1 + 1)%nat with (historyIndex a) by lia.
    rewrite Hs. reflexivity.
  - intros Hlt. unfold handleRedo.
    assert (E : (historyIndex a <? List.length (history a) - 1)%nat = true)
      by (apply Nat.ltb_lt; lia).
    rewrite E.
    destruct (nth_error (history a) (historyIndex a + 1)) as [h |] eqn:N;
      [| apply nth_error_None in N; lia].
    eexists. split; [reflexivity |].
    unfold handleUndo. simpl.
    assert (E2 : (0 <? historyIndex a + 1)%nat = true)
      by (apply Nat.ltb_lt; lia).
    rewrite E2.
    replace (historyIndex a + 1 - 1)%nat with (historyIndex a) by lia.
    rewrite Hs. reflexivity.
Qed.

Lemma undo_redo_inverse_witness :
  (exists a1, handleUndo historyScene = Some a1 /\
              handleRedo a1 = Some (setSelectedIds historyScene [])) /\
  (exists a1, handleRedo historyScene = Some a1 /\
              handleUndo a1 = Some (setSelectedIds historyScene [])).
Proof.
  destruct (undo_redo_inverse historyScene eq_refl) as [Hu Hr].
  split; [apply Hu | apply Hr]; simpl; lia.
Defined.

(** X4.  A commit discards the redo branch and nothing else: the history
    after [updateObjects] is the old snapshots up to the current index
    followed by the new one, whatever came after the index is gone, and redo
    on the result changes nothing. *)
Theorem commit_truncates_redo (a : AppState) (objs : list CanvasObject) :
  historyOk a ->
  List.length (history (updateObjects a objs)) = (historyIndex a + 2)%nat /\
  (forall k, (k <= historyIndex a)%nat ->
             nth_error (history (updateObjects a objs)) k
             = nth_error (history a) k) /\
  nth_error (history (updateObjects a objs)) (historyIndex a + 1)
    = Some (mkHistory objs) /\
  handleRedo (updateObjects a objs) = Some (updateObjects a objs).
Proof.
  unfold historyOk. intros Hok.
  destruct (updateObjects_index a objs Hok) as [Hi Hl].
  split; [exact Hl |]. split; [| split].
  - intros k Hk. simpl. apply nth_error_firstn_keep; assumption.
  - simpl. apply nth_error_firstn_app. exact Hok.
  - unfold handleRedo. rewrite Hi, Hl.
    assert (E : (historyIndex a + 1 <? historyIndex a + 2 - 1)%nat = false)
      by (apply Nat.ltb_ge; lia).
    rewrite E. reflexivity.
Qed.

Lemma commit_truncates_redo_witness :
  List.length (history historyScene) = 3%nat /\
  List.length (history (updateObjects historyScene [])) = 3%nat /\
  nth_error (history (updateObjects historyScene [])) 2 = Some (mkHistory [])
  /\
  handleRedo (updateObjects historyScene [])
    = Some (updateObjects historyScene []).
Proof.
  destruct (commit_truncates_redo historyScene []
              ltac:(unfold historyOk; simpl; lia)) as [Hl [_ [Hn Hr]]].
  split; [reflexivity |]. split; [exact Hl |]. split; [exact Hn | exact Hr].
Defined.

(** ** Zoom and image import *)

(** X5.  The zoom never leaves [50, 200]: zooming in or out of a zoom in
    that range stays in it, reset gives 100, and a zoom-in undoes a zoom-out
    (and conversely) unless the first step was cut at a bound. *)
Theorem zoom_stays_in_range (a : AppState) :
  50 <= zoom a <= 200 ->
  50 <= zoom (handleZoomIn a) <= 200 /\
  50 <= zoom (handleZoomOut a) <= 200 /\
  zoom (handleResetZoom a) = 100 /\
  (zoom a <= 190 -> zoom (handleZoomOut (handleZoomIn a)) = zoom a) /\
  (60 <= zoom a -> zoom (handleZoomIn (handleZoomOut a)) = zoom a) /\
  (zoom a = 200 -> zoom (handleZoomIn a) = 200) /\
  (zoom a = 50 -> zoom (handleZoomOut a) = 50).
Proof.
  intros H. simpl. repeat split; try intros H'; rsolve.
Qed.

Lemma zoom_stays_in_range_witness :
  zoom (handleZoomOut (handleZoomIn initialApp)) = 100 /\
  50 <= zoom (handleZoomIn initialApp) <= 200.
Proof.
  destruct (zoom_stays_in_range initialApp ltac:(simpl; lra))
    as [Hin [_ [_ [Hio _]]]].
  split; [apply Hio; simpl; lra | exact Hin].
Defined.

Lemma imageSize_spec (w h : R) :
  0 < w -> 0 < h ->
  let s := imageSize w h in
  0 < fst s <= 400 /\ 0 < snd s <= 400 /\
  fst s <= w /\ snd s <= h /\
  fst s * h = snd s * w /\
  (w <= 400 -> h <= 400 -> s = (w, h)) /\
  (400 < w \/ 400 < h -> fst s = 400 \/ snd s = 400).
Proof.
  intros Hw Hh. cbv zeta. unfold imageSize, Rgtb.
  assert (E1 : 400 / w * w = 400) by (field; lra).
  assert (E2 : 400 / h * h = 400) by (field; lra).
  assert (P1 : 0 < 400 / w) by (apply Rdiv_lt_0_compat; lra).
  assert (P2 : 0 < 400 / h) by (apply Rdiv_lt_0_compat; lra).
  set (r1 := 400 / w) in *. set (r2 := 400 / h) in *.
  destruct (Rltb 400 w) eqn:Bw; [| destruct (Rltb 400 h) eqn:Bh]; simpl.
  - apply Rltb_iff in Bw.
    unfold Rmin. destruct (Rle_dec r1 r2) as [L | L].
    + split; [nra |]. split; [nra |]. split; [nra |]. split; [nra |].
      split; [nra |]. split; [intros; exfalso; nra | intros _; left; nra].
    + split; [nra |]. split; [nra |]. split; [nra |]. split; [nra |].
      split; [nra |]. split; [intros; exfalso; nra | intros _; right; nra].
  - apply Rltb_iff in Bh.
    unfold Rmin. destruct (Rle_dec r1 r2) as [L | L].
    + split; [nra |]. split; [nra |]. split; [nra |]. split; [nra |].
      split; [nra |]. split; [intros; exfalso; nra | intros _; left; nra].
    + split; [nra |]. split; [nra |]. split; [nra |]. split; [nra |].
      split; [nra |]. split; [intros; exfalso; nra | intros _; right; nra].
  - assert (Lw : w <= 400).
    { unfold Rltb in Bw. destruct (Rlt_dec 400 w); [discriminate | lra]. }
    assert (Lh : h <= 400).
    { unfold Rltb in Bh. destruct (Rlt_dec 400 h); [discriminate | lra]. }
    split; [lra |]. split; [lra |]. split; [lra |]. split; [lra |].
    split; [lra |]. split; [reflexivity | intros [H | H]; lra].
Qed.

(** X6.  An image of at least one pixel each way is appended, as one image
    object that becomes the selection, to the objects of the moment the
    file was picked: the history is cut and extended from that moment too,
    so whatever was committed while the image was loading is dropped, while
    tool, zoom and brush settings are the current ones.  The size of the
    object is the native size scaled down, never up, to fit 400 x 400: an
    image that already fits keeps its size exactly; a larger one gets a
    side of 400 and keeps its aspect ratio, both within [roundingSlack].
    The object is centred on the canvas within [roundingSlack], and its
    rect lies inside [0,1200] x [0,800]. *)
Theorem image_import_placement (time : nat) (picked live : AppState)
    (url : string) (w h : R) :
  1 <= w -> 1 <= h ->
  exists o,
    objects (handleOpenImage time picked live url w h)
      = objects picked ++ [o] /\
    selectedIds (handleOpenImage time picked live url w h) = [id o] /\
    history (handleOpenImage time picked live url w h)
      = firstn (historyIndex picked + 1) (history picked)
        ++ [mkHistory (objects picked ++ [o])] /\
    currentTool (handleOpenImage time picked live url w h)
      = currentTool live /\
    zoom (handleOpenImage time picked live url w h) = zoom live /\
    brushSize (handleOpenImage time picked live url w h) = brushSize live /\
    type o = ObjType.image /\ Data.imageUrl (data o) = Some url /\
    Data.originalWidth (data o) = Some w /\
    Data.originalHeight (data o) = Some h /\
    Transform.rotation (transform o) = 0 /\
    0 < Transform.width (transform o) <= 400 + roundingSlack /\
    0 < Transform.height (transform o) <= 400 + roundingSlack /\
    Transform.width (transform o) <= w /\
    Transform.height (transform o) <= h /\
    near (Transform.width (transform o) / w)
         (Transform.height (transform o) / h) /\
    (w <= 400 -> h <= 400 ->
     Transform.width (transform o) = w /\
     Transform.height (transform o) = h) /\
    (400 < w \/ 400 < h ->
     near (Transform.width (transform o)) 400 \/
     near (Transform.height (transform o)) 400) /\
    near (Transform.x (transform o) + Transform.width (transform o) / 2)
         (CANVAS_WIDTH / 2) /\
    near (Transform.y (transform o) + Transform.height (transform o) / 2)
         (CANVAS_HEIGHT / 2) /\
    0 <= Transform.x (transform o) /\
    Transform.x (transform o) + Transform.width (transform o)
      <= CANVAS_WIDTH /\
    0 <= Transform.y (transform o) /\
    Transform.y (transform o) + Transform.height (transform o)
      <= CANVAS_HEIGHT.
Proof.
  intros Hw Hh.
  destruct (imageSize_spec w h ltac:(lra) ltac:(lra))
    as [Sw [Sh [Lw [Lh [Asp [Keep Cap]]]]]].
  exists (imageObject time url w h).
  split; [reflexivity |]. split; [reflexivity |].
  split; [reflexivity |]. split; [reflexivity |].
  split; [reflexivity |]. split; [reflexivity |].
  split; [reflexivity |]. split; [reflexivity |].
  split; [reflexivity |]. split; [reflexivity |].
  split; [reflexivity |].
  unfold imageObject, CANVAS_WIDTH, CANVAS_HEIGHT.
  cbn [transform Transform.x Transform.y Transform.width Transform.height].
  assert (Hs : 0 < roundingSlack) by (unfold roundingSlack; lra).
  split; [lra |]. split; [lra |].
  split; [exact Lw |]. split; [exact Lh |].
  split.
  { apply near_eq. apply (Rmult_eq_reg_r (w * h)); [| nra].
    field_simplify; [| lra | lra]. lra. }
  split.
  { intros H1 H2. rewrite (Keep H1 H2). split; reflexivity. }
  split.
  { intros H. destruct (Cap H) as [E | E];
      [left | right]; apply near_eq; exact E. }
  split; [apply near_eq; lra |]. split; [apply near_eq; lra |].
  repeat split; lra.
Qed.

Lemma image_import_placement_witness :
  exists o,
    objects (handleOpenImage 3 initialApp busyScene "data:image/png" 800 600)
      = [o] /\
    currentTool (handleOpenImage 3 initialApp busyScene "data:image/png"
                   800 600) = rectangle /\
    near (Transform.width (transform o) / 800)
         (Transform.height (transform o) / 600).
Proof.
  destruct (image_import_placement 3 initialApp busyScene "data:image/png"
              800 600 ltac:(lra) ltac:(lra))
    as [o [Ho [_ [_ [Ht [_ [_ [_ [_ [_ [_ [_ [_ [_ [_ [_ [Asp _]]]]]]]]]]]]]]]]].
  exists o. split; [exact Ho |]. split; [exact Ht | exact Asp].
Defined.

(** ** Delete and property edits *)

Lemma includes_In (ids : list string) (i : string) :
  includes ids i = true <-> In i ids.
Proof.
  unfold includes. rewrite existsb_exists. split.
  - intros [j [Hj E]]. apply String.eqb_eq in E. subst. exact Hj.
  - intros H. exists i. split; [exact H | apply String.eqb_refl].
Qed.

Lemma includes_not_In (ids : list string) (i : string) :
  includes ids i = false <-> ~ In i ids.
Proof.
  rewrite <- includes_In. destruct (includes ids i); split; intros H;
    try discriminate; try reflexivity; try (intros H'; discriminate).
  exfalso. apply H. reflexivity.
Qed.

(** Undo right after a commit brings back the objects of before. *)
Lemma undo_after_commit (a a' : AppState) (objs : list CanvasObject) :
  historySynced a ->
  history a' = history (updateObjects a objs) ->
  historyIndex a' = historyIndex (updateObjects a objs) ->
  exists a1, handleUndo a' = Some a1 /\ objects a1 = objects a /\
             selectedIds a1 = [] /\ historyIndex a1 = historyIndex a.
Proof.
  intros Hs Hh Hi. pose proof (historySynced_ok a Hs) as Hok.
  destruct (updateObjects_index a objs Hok) as [Ei _].
  unfold handleUndo. rewrite Hi, Hh, Ei.
  assert (E : (0 <? historyIndex a + 1)%nat = true)
    by (apply Nat.ltb_lt; lia).
  rewrite E.
  replace (historyIndex a + 1 - 1)%nat with (historyIndex a) by lia.
  simpl. rewrite nth_error_firstn_keep by (unfold historyOk in Hok; lia).
  unfold historySynced in Hs. rewrite Hs.
  eexists. repeat split.
Qed.

(** X7.  Delete removes exactly the objects that carry a selected id and
    keeps the others as they are, as often as they occur and in their
    order; it empties the selection and is undone by one undo.  With
    nothing selected it changes nothing, not even the history. *)
Theorem delete_removes_selected (a : AppState) :
  historySynced a ->
  (selectedIds a = [] -> handleDelete a = a) /\
  (selectedIds a <> [] ->
   Keeps (fun o => ~ In (id o) (selectedIds a)) (objects a)
     (objects (handleDelete a)) /\
   (forall o, In o (objects (handleDelete a)) <->
              In o (objects a) /\ ~ In (id o) (selectedIds a)) /\
   selectedIds (handleDelete a) = [] /\
   exists a1, handleUndo (handleDelete a) = Some a1 /\
              objects a1 = objects a).
Proof.
  intros Hs. unfold handleDelete. split.
  - intros ->. reflexivity.
  - intros Hne. destruct (selectedIds a) as [| i ids] eqn:E;
      [contradiction |].
    assert (Hk : Keeps (fun o => ~ In (id o) (i :: ids)) (objects a)
                   (filter (fun obj => negb (includes (i :: ids) (id obj)))
                      (objects a))).
    { apply Keeps_filter. intros o. rewrite negb_true_iff.
      apply includes_not_In. }
    split; [exact Hk |].
    split; [intros o; apply (Keeps_In _ _ _ Hk) |].
    split; [reflexivity |].
    match goal with
    | |- context [updateObjects a ?objs] =>
        destruct (undo_after_commit a
                    (setSelectedIds (updateObjects a objs) []) objs Hs
                    eq_refl eq_refl) as [a1 [H1 [H2 _]]]
    end.
    exists a1. split; [exact H1 | exact H2].
Qed.

Lemma delete_removes_selected_witness :
  Keeps (fun o => ~ In (id o) (selectedIds historyScene))
    (objects historyScene) (objects (handleDelete historyScene)) /\
  exists a1, handleUndo (handleDelete historyScene) = Some a1 /\
             objects a1 = objects historyScene.
Proof.
  destruct (delete_removes_selected historyScene eq_refl) as [_ H].
  destruct (H ltac:(discriminate)) as [Hk [_ [_ Hu]]].
  split; [exact Hk | exact Hu].
Defined.

Lemma applyUpdates_transform_only (q : CanvasObject) (t : Transform.t) :
  applyUpdates q (mkUpdates None None (Some t) None None None)
  = withTransform q t.
Proof. reflexivity. Qed.

Lemma nth_error_map_if (f : CanvasObject -> CanvasObject)
    (p : CanvasObject -> bool) (l : list CanvasObject) (i : nat)
    (o : CanvasObject) :
  nth_error l i = Some o ->
  nth_error (map (fun q => if p q then f q else q) l) i
  = Some (if p o then f o else o).
Proof. intros H. rewrite nth_error_map, H. reflexivity. Qed.

(** X8.  A property update acts only on objects carrying the selected id.
    Unless exactly one id is selected the state is returned as it is.
    Otherwise the object list keeps its length and order, every object with
    another id is unchanged, and an object with the selected id takes the
    keys present in the update (a style update on a merged object aside);
    when no object carries the selected id the objects are all unchanged,
    yet one snapshot is still pushed on the history. *)
Theorem object_update_frame (a : AppState) (u : Updates) :
  historyOk a ->
  (List.length (selectedIds a) <> 1%nat -> handleObjectUpdate a u = a) /\
  (forall sel, selectedIds a = [sel] ->
   List.length (objects (handleObjectUpdate a u))
     = List.length (objects a) /\
   (forall i o, nth_error (objects a) i = Some o -> id o <> sel ->
                nth_error (objects (handleObjectUpdate a u)) i = Some o) /\
   (forall i o, nth_error (objects a) i = Some o -> id o = sel ->
                (u_style u = None \/ isType o ObjType.merged = false) ->
                nth_error (objects (handleObjectUpdate a u)) i
                = Some (applyUpdates o u)) /\
   ((forall o, In o (objects a) -> id o <> sel) ->
    objects (handleObjectUpdate a u) = objects a) /\
   historyIndex (handleObjectUpdate a u) = (historyIndex a + 1)%nat /\
   selectedIds (handleObjectUpdate a u) = [sel]).
Proof.
  intros Hok. unfold handleObjectUpdate. split.
  - intros Hn. destruct (selectedIds a) as [| i [| j l]];
      try reflexivity. simpl in Hn. contradiction.
  - intros sel Hsel. rewrite Hsel.
    split; [simpl; apply length_map |].
    split; [| split; [| split; [| split]]].
    + intros i o Hn Hid. simpl. rewrite nth_error_map, Hn. simpl.
      apply String.eqb_neq in Hid. rewrite Hid. reflexivity.
    + intros i o Hn Hid Hs. simpl. rewrite nth_error_map, Hn. simpl.
      apply String.eqb_eq in Hid. rewrite Hid.
      destruct Hs as [-> | ->]; [reflexivity |].
      destruct (u_style u); reflexivity.
    + intros Hnone. simpl. rewrite <- (map_id (objects a)) at 2.
      apply map_ext_in. intros o Ho.
      pose proof (Hnone o Ho) as Hid. apply String.eqb_neq in Hid.
      rewrite Hid. reflexivity.
    + apply (updateObjects_index a _ Hok).
    + exact Hsel.
Qed.

Lemma object_update_frame_witness :
  objects (handleObjectUpdate mergeScene noUpdates) = objects mergeScene /\
  nth_error
    (objects (handleObjectUpdate panelScene
                (mkUpdates None None (Some (Transform.mk 5 5 20 20 0)) None
                   None None))) 0
  = Some (withTransform (sampleRect "rectangle-1" 0 0 100 100)
            (Transform.mk 5 5 20 20 0)).
Proof.
  split.
  - destruct (object_update_frame mergeScene noUpdates
                ltac:(unfold historyOk; simpl; lia)) as [H _].
    rewrite H; [reflexivity | simpl; lia].
  - destruct (object_update_frame panelScene
                (mkUpdates None None (Some (Transform.mk 5 5 20 20 0)) None
                   None None)
                ltac:(unfold historyOk; simpl; lia)) as [_ H].
    destruct (H "rectangle-1"%string eq_refl) as [_ [_ [H3 _]]].
    apply (H3 0%nat _ eq_refl eq_refl). left. reflexivity.
Defined.

Lemma panelShown_selected (a : AppState) (o : CanvasObject) :
  panelShown a = Some o ->
  selectedIds a = [id o] /\ In o (objects a) /\
  currentTool a <> eraser /\ currentTool a <> merge.
Proof.
  unfold panelShown, selectedObject. intros H.
  assert (Ht : currentTool a <> eraser /\ currentTool a <> merge)
    by (destruct (currentTool a); try discriminate; split; discriminate).
  assert (Hs : match selectedIds a with
               | [sel] => find (fun obj => String.eqb (id obj) sel)
                            (objects a)
               | _ => None
               end = Some o)
    by (destruct (currentTool a); try discriminate; exact H).
  destruct (selectedIds a) as [| sel [| j l]]; try discriminate.
  apply find_some in Hs. destruct Hs as [Hin E].
  apply String.eqb_eq in E. subst sel. repeat split; tauto.
Qed.

Lemma panel_edit_objects (a : AppState) (o : CanvasObject)
    (t : Transform.t) :
  selectedIds a = [id o] ->
  Forall2 (fun q q' =>
             (id q = id o -> q' = withTransform q t) /\
             (id q <> id o -> q' = q))
    (objects a)
    (objects (handleObjectUpdate a
                (mkUpdates None None (Some t) None None None))).
Proof.
  intros Hsel. unfold handleObjectUpdate. rewrite Hsel. simpl.
  apply Forall2_map_self. intros q _.
  destruct (String.eqb (id q) (id o)) eqn:E.
  - apply String.eqb_eq in E. split; [reflexivity | contradiction].
  - apply String.eqb_neq in E. split; [contradiction | reflexivity].
Qed.

(** X9.  The width and height inputs of the properties panel never store a
    size below 10: with one object [o] selected (tool neither eraser nor
    merge), the width input set to [v] gives every object carrying the id of
    [o] the transform of [o] with width max(10, v) (and the height input
    likewise), whatever [v] is, and leaves every other object as it was.
    There is no upper bound: a [v] above 10 is stored as it is. *)
Theorem panel_size_minimum (a : AppState) (o : CanvasObject) (v : R) :
  panelShown a = Some o ->
  Forall2 (fun q q' =>
             (id q = id o ->
              q' = withTransform q
                     (Transform.mk (Transform.x (transform o))
                        (Transform.y (transform o)) (Rmax 10 v)
                        (Transform.height (transform o))
                        (Transform.rotation (transform o)))) /\
             (id q <> id o -> q' = q))
    (objects a) (objects (panelSetWidth a v)) /\
  Forall2 (fun q q' =>
             (id q = id o ->
              q' = withTransform q
                     (Transform.mk (Transform.x (transform o))
                        (Transform.y (transform o))
                        (Transform.width (transform o)) (Rmax 10 v)
                        (Transform.rotation (transform o)))) /\
             (id q <> id o -> q' = q))
    (objects a) (objects (panelSetHeight a v)) /\
  10 <= Rmax 10 v /\ (10 <= v -> Rmax 10 v = v).
Proof.
  intros H. destruct (panelShown_selected a o H) as [Hsel _].
  unfold panelSetWidth, panelSetHeight. rewrite H. cbv zeta.
  split; [apply panel_edit_objects; exact Hsel |].
  split; [apply panel_edit_objects; exact Hsel |].
  split; [apply Rmax_l | intros Hv; apply Rmax_right; exact Hv].
Qed.

Lemma panel_size_minimum_witness :
  exists q,
    objects (panelSetWidth panelScene 3) = [q] /\
    Transform.width (transform q) = Rmax 10 3 /\
    10 <= Transform.width (transform q).
Proof.
  destruct (panel_size_minimum panelScene
              (sampleRect "rectangle-1" 0 0 100 100) 3 eq_refl)
    as [_ [_ [Hm _]]].
  eexists. split; [reflexivity |]. simpl.
  split; [reflexivity | exact Hm].
Defined.

(** ** Style updates on groups *)

Lemma updateObjectStyle_group (obj : CanvasObject)
    (cs : list CanvasObject) (s : Style.t) :
  isType obj ObjType.merged = true -> children obj = Some cs ->
  updateObjectStyle obj s =
    mkObj (id obj) (type obj) (transform obj) (mergeStyle (style obj) s)
      (data obj) (Some (map (fun child => updateObjectStyle child s) cs)).
Proof.
  destruct obj as [i t tr st d c]; simpl. intros Ht ->. rewrite Ht.
  reflexivity.
Qed.

Lemma updateObjectStyle_node (obj : CanvasObject) (s : Style.t) :
  id (updateObjectStyle obj s) = id obj /\
  type (updateObjectStyle obj s) = type obj /\
  transform (updateObjectStyle obj s) = transform obj /\
  data (updateObjectStyle obj s) = data obj /\
  style (updateObjectStyle obj s) = mergeStyle (style obj) s.
Proof.
  destruct obj as [i t tr st d [cs |]]; simpl;
    destruct (isType _ ObjType.merged); simpl; repeat split.
Qed.

Lemma updateObjectStyle_descend (idxs : list nat) (obj leaf : CanvasObject)
    (s : Style.t) :
  groupPath idxs obj -> descend idxs obj = Some leaf ->
  descend idxs (updateObjectStyle obj s) = Some (updateObjectStyle leaf s).
Proof.
  revert obj. induction idxs as [| i rest IH]; intros obj Hg Hd.
  - simpl in *. injection Hd as <-. reflexivity.
  - simpl in Hg, Hd. destruct Hg as [Hgrp Hrest].
    unfold isGroup in Hgrp.
    destruct (isType obj ObjType.merged) eqn:Ht; [| discriminate].
    destruct (children obj) as [cs |] eqn:Hc; [| discriminate].
    destruct (nth_error cs i) as [child |] eqn:Hn; [| discriminate].
    rewrite (updateObjectStyle_group obj cs s Ht Hc). simpl.
    rewrite nth_error_map, Hn. simpl. apply IH; assumption.
Qed.

(** X10.  A style edit on the selected merged object restyles the whole
    group: the object keeps its id, type, transform and data (any other key
    of the update, a transform for instance, is ignored), and every object
    reached from it through groups, at any depth, keeps its id, type,
    transform and data and gets the stroke colour, fill colour and stroke
    width of the update, and its opacity when the update has one. *)
Theorem style_edit_reaches_descendants (a : AppState) (u : Updates)
    (s : Style.t) (sel : string) (i : nat) (o : CanvasObject) :
  selectedIds a = [sel] -> u_style u = Some s ->
  nth_error (objects a) i = Some o -> id o = sel ->
  isType o ObjType.merged = true ->
  exists o',
    nth_error (objects (handleObjectUpdate a u)) i = Some o' /\
    transform o' = transform o /\
    forall idxs leaf,
      groupPath idxs o -> descend idxs o = Some leaf ->
      exists leaf',
        descend idxs o' = Some leaf' /\
        id leaf' = id leaf /\ type leaf' = type leaf /\
        transform leaf' = transform leaf /\ data leaf' = data leaf /\
        Style.strokeColor (style leaf') = Style.strokeColor s /\
        Style.fillColor (style leaf') = Style.fillColor s /\
        Style.strokeWidth (style leaf') = Style.strokeWidth s /\
        Style.opacity (style leaf') =
          match Style.opacity s with
          | Some op => Some op
          | None => Style.opacity (style leaf)
          end.
Proof.
  intros Hsel Hs Hn Hid Ht.
  exists (updateObjectStyle o s). split; [| split].
  - unfold handleObjectUpdate. rewrite Hsel. simpl.
    rewrite nth_error_map, Hn. simpl.
    apply String.eqb_eq in Hid. rewrite Hid, Hs, Ht. reflexivity.
  - apply updateObjectStyle_node.
  - intros idxs leaf Hg Hd.
    exists (updateObjectStyle leaf s).
    split; [apply updateObjectStyle_descend; assumption |].
    destruct (updateObjectStyle_node leaf s) as [E1 [E2 [E3 [E4 E5]]]].
    rewrite E5. repeat split; assumption.
Qed.

Lemma style_edit_reaches_descendants_witness :
  exists o' leaf',
    nth_error
      (objects
         (handleObjectUpdate
            (mkApp select [outerGroup] ["merged-2"%string] 100
               [mkHistory [outerGroup]] 0 20 5 "#000000" normal 1)
            (mkUpdates None None (Some (Transform.mk 1 1 20 20 0))
               (Some (Style.mk "#ff0000" "#00ff00" 4 None)) None None)))
      0 = Some o' /\
    transform o' = transform outerGroup /\
    descend [0%nat; 0%nat] o' = Some leaf' /\
    Style.strokeColor (style leaf') = "#ff0000"%string.
Proof.
  destruct (style_edit_reaches_descendants
              (mkApp select [outerGroup] ["merged-2"%string] 100
                 [mkHistory [outerGroup]] 0 20 5 "#000000" normal 1)
              (mkUpdates None None (Some (Transform.mk 1 1 20 20 0))
                 (Some (Style.mk "#ff0000" "#00ff00" 4 None)) None None)
              (Style.mk "#ff0000" "#00ff00" 4 None) "merged-2" 0 outerGroup
              eq_refl eq_refl eq_refl eq_refl eq_refl)
    as [o' [Hn [Ht Hall]]].
  destruct (Hall [0%nat; 0%nat] innerLeaf) as [leaf' [Hd [_ [_ [_ [_ [Hc _]]]]]]].
  - simpl. repeat split.
  - reflexivity.
  - exists o', leaf'. repeat split; assumption.
Defined.

(** ** Geometry *)

(** X11.  [constrainToCanvas] is idempotent: constraining a constrained
    rect changes nothing.  For a non-negative size its result lies inside
    the canvas and is no larger than the request, and a request that
    already lies inside the canvas is returned as it is. *)
Theorem constrain_idempotent (x y w h : R) :
  let r := constrainToCanvas x y w h in
  constrainToCanvas (Rect.x r) (Rect.y r) (Rect.width r) (Rect.height r) = r
  /\
  (0 <= w -> 0 <= h ->
   0 <= Rect.x r /\ Rect.x r + Rect.width r <= CANVAS_WIDTH /\
   0 <= Rect.y r /\ Rect.y r + Rect.height r <= CANVAS_HEIGHT /\
   0 <= Rect.width r <= w /\ 0 <= Rect.height r <= h) /\
  (0 <= x -> x + w <= CANVAS_WIDTH -> 0 <= y -> y + h <= CANVAS_HEIGHT ->
   0 <= w -> 0 <= h -> r = Rect.mk x y w h).
Proof.
  cbv zeta. split; [| split].
  - unfold constrainToCanvas. simpl. f_equal; rsolve.
  - intros Hw Hh. unfold constrainToCanvas. simpl. repeat split; rsolve.
  - intros. unfold constrainToCanvas. f_equal; rsolve.
Qed.

Lemma rotation_angle (r : R) : - (r * PI) / 180 = - (r * PI / 180).
Proof. unfold Rdiv. ring. Qed.

Lemma sin_cos_one (t : R) : sin t * sin t + cos t * cos t = 1.
Proof. pose proof (sin2_cos2 t) as H. unfold Rsqr in H. exact H. Qed.

(** Over the real numbers the hit test of an object that is not a drawn
    path is the box test in the local frame of the handles. *)
Lemma hit_test_local_box_exact (px py : R) (obj : CanvasObject) :
  isType obj ObjType.drawn = false \/ Data.path (data obj) = None ->
  (isPointInObject px py obj = true <->
   0 <= Point.x (transformPointToObjectSpace px py obj)
     <= Transform.width (transform obj) /\
   0 <= Point.y (transformPointToObjectSpace px py obj)
     <= Transform.height (transform obj)).
Proof.
  intros Hnd.
  assert (E : isPointInObject px py obj =
              if Reqb (Transform.rotation (transform obj)) 0
              then inBox px py (Transform.x (transform obj))
                     (Transform.y (transform obj))
                     (Transform.width (transform obj))
                     (Transform.height (transform obj))
              else
                inBox
                  ((px - (Transform.x (transform obj)
                          + Transform.width (transform obj) / 2))
                   * cos (- (Transform.rotation (transform obj) * PI) / 180)
                   - (py - (Transform.y (transform obj)
                            + Transform.height (transform obj) / 2))
                     * sin (- (Transform.rotation (transform obj) * PI)
                            / 180)
                   + (Transform.x (transform obj)
                      + Transform.width (transform obj) / 2))
                  ((px - (Transform.x (transform obj)
                          + Transform.width (transform obj) / 2))
                   * sin (- (Transform.rotation (transform obj) * PI) / 180)
                   + (py - (Transform.y (transform obj)
                            + Transform.height (transform obj) / 2))
                     * cos (- (Transform.rotation (transform obj) * PI)
                            / 180)
                   + (Transform.y (transform obj)
                      + Transform.height (transform obj) / 2))
                  (Transform.x (transform obj))
                  (Transform.y (transform obj))
                  (Transform.width (transform obj))
                  (Transform.height (transform obj))).
  { unfold isPointInObject.
    destruct Hnd as [-> | ->]; [reflexivity |].
    destruct (isType obj ObjType.drawn); reflexivity. }
  rewrite E. unfold transformPointToObjectSpace. simpl.
  destruct (Reqb (Transform.rotation (transform obj)) 0) eqn:R0.
  - unfold Reqb in R0.
    destruct (Req_dec_T (Transform.rotation (transform obj)) 0) as [Z |];
      [| discriminate].
    rewrite Z, unrotated_angle, cos_0, sin_0, inBox_iff. lra.
  - rewrite inBox_iff.
    set (cs := cos _). set (sn := sin _).
    set (dx := px - _). set (dy := py - _).
    split; intros H; lra.
Qed.

(** X12.  Hit-testing an object that is not a drawn path agrees with the
    local frame used for the handles, rotated or not, up to
    [roundingSlack] at the border.  For a point on the canvas and a rect on
    the canvas turned by at most 360 degrees either way: when
    [transformPointToObjectSpace] puts the point in [0, width] x [0, height]
    at least [roundingSlack] away from the border the object is hit, and
    when the object is hit the point is put in that box or at most
    [roundingSlack] outside of it.  (On the border itself the rounding of
    sine and cosine decides.) *)
Theorem hit_test_is_local_box (px py : R) (obj : CanvasObject) :
  isType obj ObjType.drawn = false \/ Data.path (data obj) = None ->
  onCanvas (Point.mk px py) -> rectOnCanvas (transform obj) ->
  Rabs (Transform.rotation (transform obj)) <= 360 ->
  (roundingSlack <= Point.x (transformPointToObjectSpace px py obj)
     <= Transform.width (transform obj) - roundingSlack /\
   roundingSlack <= Point.y (transformPointToObjectSpace px py obj)
     <= Transform.height (transform obj) - roundingSlack ->
   isPointInObject px py obj = true) /\
  (isPointInObject px py obj = true ->
   - roundingSlack <= Point.x (transformPointToObjectSpace px py obj)
     <= Transform.width (transform obj) + roundingSlack /\
   - roundingSlack <= Point.y (transformPointToObjectSpace px py obj)
     <= Transform.height (transform obj) + roundingSlack).
Proof.
  intros Hnd _ _ _.
  assert (Hs : 0 < roundingSlack) by (unfold roundingSlack; lra).
  pose proof (hit_test_local_box_exact px py obj Hnd) as [H1 H2].
  split.
  - intros Hin. apply H2. lra.
  - intros Hhit. apply H1 in Hhit. lra.
Qed.

Lemma hit_test_is_local_box_witness :
  isPointInObject 30 20 turnedRect = true.
Proof.
  destruct (hit_test_is_local_box 30 20 turnedRect) as [H _].
  - left. reflexivity.
  - unfold onCanvas, CANVAS_WIDTH, CANVAS_HEIGHT. simpl. lra.
  - unfold rectOnCanvas, CANVAS_WIDTH, CANVAS_HEIGHT. simpl. lra.
  - simpl. rsolve.
  - apply H. unfold transformPointToObjectSpace, roundingSlack. simpl.
    replace (- (180 * PI) / 180) with (- PI) by field.
    rewrite cos_neg, sin_neg, cos_PI, sin_PI. lra.
Defined.

Lemma frame_round_trip (obj : CanvasObject) (l p : Point.t) :
  transformPointToObjectSpace (Point.x (objectToCanvas obj l))
    (Point.y (objectToCanvas obj l)) obj = l /\
  objectToCanvas obj (transformPointToObjectSpace (Point.x p) (Point.y p) obj)
  = p.
Proof.
  unfold transformPointToObjectSpace, objectToCanvas. simpl.
  rewrite rotation_angle, cos_neg, sin_neg.
  set (t := Transform.rotation (transform obj) * PI / 180).
  pose proof (sin_cos_one t) as H1.
  destruct l as [lx ly]. destruct p as [qx qy]. simpl.
  set (c := cos t) in *. set (s := sin t) in *.
  assert (K : forall u, u * (s * s + c * c) = u)
    by (intros u; rewrite H1; ring).
  pose proof (K lx) as K1. pose proof (K ly) as K2.
  pose proof (K qx) as K3. pose proof (K qy) as K4.
  pose proof (K (Transform.width (transform obj))) as K5.
  pose proof (K (Transform.height (transform obj))) as K6.
  pose proof (K (Transform.x (transform obj))) as K7.
  pose proof (K (Transform.y (transform obj))) as K8.
  split; f_equal; lra.
Qed.


Lemma nearSegment_on (x1 y1 x2 y2 t : R) :
  0 <= t <= 1 ->
  nearSegment (x1 + t * (x2 - x1)) (y1 + t * (y2 - y1))
    (Point.mk x1 y1) (Point.mk x2 y2) = true.
Proof.
  intros Ht. unfold nearSegment. simpl.
  set (C := x2 - x1). set (D := y2 - y1).
  assert (Z : sqrt (0 * 0 + 0 * 0) = 0)
    by (replace (0 * 0 + 0 * 0) with 0 by ring; apply sqrt_0).
  destruct (Reqb (C * C + D * D) 0) eqn:E.
  - unfold Reqb in E.
    destruct (Req_dec_T (C * C + D * D) 0) as [Z0 |]; [| discriminate].
    assert (C0 : C = 0) by nra. assert (D0 : D = 0) by nra.
    rewrite (Rltb_true (-1) 0) by lra.
    replace (x1 + t * C - x1) with 0 by (rewrite C0; ring).
    replace (y1 + t * D - y1) with 0 by (rewrite D0; ring).
    rewrite Z. apply Rltb_true. lra.
  - unfold Reqb in E.
    destruct (Req_dec_T (C * C + D * D) 0) as [| NZ]; [discriminate |].
    replace (((x1 + t * C - x1) * C + (y1 + t * D - y1) * D)
             / (C * C + D * D)) with t by (field; exact NZ).
    rewrite (Rltb_false t 0) by lra.
    unfold Rgtb. rewrite (Rltb_false 1 t) by lra.
    replace (x1 + t * C - (x1 + t * C)) with 0 by ring.
    replace (y1 + t * D - (y1 + t * D)) with 0 by ring.
    rewrite Z. apply Rltb_true. lra.
Qed.

Lemma nearPath_consecutive (x y : R) (p1 p2 : Point.t)
    (path : list Point.t) :
  consecutive p1 p2 path -> nearSegment x y p1 p2 = true ->
  nearPath x y path = true.
Proof.
  intros [l1 [l2 ->]] Hn. induction l1 as [| q l1 IH].
  - simpl. rewrite Hn. reflexivity.
  - destruct l1 as [| q' l1'].
    + simpl in *. rewrite IH. apply orb_true_r.
    + change ((q :: q' :: l1') ++ p1 :: p2 :: l2)
        with (q :: (q' :: l1') ++ p1 :: p2 :: l2).
      change (nearPath x y (q :: (q' :: l1') ++ p1 :: p2 :: l2))
        with (nearSegment x y q q'
              || nearPath x y ((q' :: l1') ++ p1 :: p2 :: l2)).
      rewrite IH. apply orb_true_r.
Qed.

(** X14.  A drawn stroke can be picked anywhere along its path and
    anywhere in its rect: every point on a segment between two consecutive
    path points is hit, and so is every point of
    [x, x+width] x [y, y+height], whatever the rotation of the object. *)
Theorem drawn_path_is_hit (obj : CanvasObject) (path : list Point.t)
    (q : Point.t) :
  type obj = ObjType.drawn -> Data.path (data obj) = Some path ->
  ((exists p1 p2, consecutive p1 p2 path /\ onSegment q p1 p2) ->
   isPointInObject (Point.x q) (Point.y q) obj = true) /\
  (Transform.x (transform obj) <= Point.x q
     <= Transform.x (transform obj) + Transform.width (transform obj) ->
   Transform.y (transform obj) <= Point.y q
     <= Transform.y (transform obj) + Transform.height (transform obj) ->
   isPointInObject (Point.x q) (Point.y q) obj = true).
Proof.
  intros Ht Hp. unfold isPointInObject, isType. rewrite Ht, Hp. split.
  - intros [p1 [p2 [Hc [t [Ht01 [Hx Hy]]]]]].
    rewrite (nearPath_consecutive _ _ p1 p2 path Hc); [reflexivity |].
    rewrite Hx, Hy. destruct p1 as [x1 y1], p2 as [x2 y2]. simpl.
    apply nearSegment_on. exact Ht01.
  - intros Hx Hy. destruct (nearPath _ _ path); [reflexivity |].
    apply inBox_iff. split; assumption.
Qed.

Lemma drawn_path_is_hit_witness :
  isPointInObject 500 500 longStroke = true.
Proof.
  destruct (drawn_path_is_hit longStroke [Point.mk 0 0; Point.mk 1000 1000]
              (Point.mk 500 500) eq_refl eq_refl) as [H _].
  apply H.
  exists (Point.mk 0 0), (Point.mk 1000 1000). split.
  - exists [], []. reflexivity.
  - exists (1 / 2). simpl. repeat split; lra.
Defined.

(** ** Rotating *)

Lemma atan_nonpos (x : R) : x <= 0 -> atan x <= 0.
Proof.
  intros [H | ->]; [| rewrite atan_0; lra].
  pose proof (atan_increasing x 0 H) as Hi. rewrite atan_0 in Hi. lra.
Qed.

Lemma atan_pos (x : R) : 0 < x -> 0 < atan x.
Proof.
  intros H. pose proof (atan_increasing 0 x H) as Hi.
  rewrite atan_0 in Hi. exact Hi.
Qed.

Lemma atan2_bound (dy dx : R) : - PI < atan2 dy dx <= PI.
Proof.
  pose proof PI_RGT_0 as Hpi. unfold atan2.
  destruct (Rltb 0 dx) eqn:E1.
  - pose proof (atan_bound (dy / dx)). lra.
  - destruct (Rltb dx 0) eqn:E2.
    + apply Rltb_iff in E2.
      pose proof (atan_bound (dy / dx)) as Hb.
      destruct (Rleb 0 dy) eqn:E3.
      * apply Rleb_iff in E3.
        assert (Hq : dy / dx <= 0).
        { unfold Rdiv. assert (/ dx < 0) by (apply Rinv_lt_0_compat; lra).
          nra. }
        pose proof (atan_nonpos _ Hq). lra.
      * assert (Hneg : dy < 0).
        { unfold Rleb in E3. destruct (Rle_dec 0 dy); [discriminate | lra]. }
        assert (Hq : 0 < dy / dx).
        { unfold Rdiv. assert (/ dx < 0) by (apply Rinv_lt_0_compat; lra).
          nra. }
        pose proof (atan_pos _ Hq). lra.
    + destruct (Rltb 0 dy); [lra |]. destruct (Rltb dy 0); lra.
Qed.

Lemma degrees (k : R) : k * PI * (180 / PI) = k * 180.
Proof. pose proof PI_RGT_0. field. lra. Qed.

(** X15.  Dragging the rotation handle sets the rotation of the selected
    object (and of nothing else) to the direction from the centre of its
    rect to the pointer, measured so that straight up is 0: the new rotation
    lies in (-90, 270], it is 0 with the pointer above the centre, 90 to the
    right of it, 180 below and 270 to the left; x, y, width and height are
    untouched. *)
Theorem rotate_follows_pointer (a : AppState) (c : CanvasState)
    (e : MouseEvent) (start : Point.t) (sel : CanvasObject) :
  currentTool a = select -> dragStart c = Some start ->
  marqueeStart c = None -> resizeHandle c = Some "rotate"%string ->
  firstSelected a = Some sel ->
  exists angle,
    handleMouseMove a c e =
      Some (updateObjects a
              (map (fun obj =>
                      if String.eqb (id obj) (id sel)
                      then withTransform obj
                             (transformWithRotation (transform obj) angle)
                      else obj)
                   (objects a)),
            trackPointer c (pos e)) /\
    -90 < angle <= 270 /\
    let cx := Transform.x (transform sel)
              + Transform.width (transform sel) / 2 in
    let cy := Transform.y (transform sel)
              + Transform.height (transform sel) / 2 in
    (Point.x (pos e) = cx -> Point.y (pos e) < cy -> angle = 0) /\
    (Point.y (pos e) = cy -> cx < Point.x (pos e) -> angle = 90) /\
    (Point.x (pos e) = cx -> cy < Point.y (pos e) -> angle = 180) /\
    (Point.y (pos e) = cy -> Point.x (pos e) < cx -> angle = 270).
Proof.
  intros Ht Hd Hm Hr Hsel.
  destruct (firstSelected_in a sel Hsel) as [_ [i [ids Hids]]].
  destruct (trackPointer_keeps c (pos e)) as [_ [Kr _]].
  eexists. split; [| split].
  - unfold handleMouseMove. rewrite Ht, Hd, Hm, Hids, Hsel. simpl.
    unfold dragSelected. rewrite Kr, Hr. simpl. reflexivity.
  - pose proof (atan2_bound
                  (Point.y (pos e)
                   - (Transform.y (transform sel)
                      + Transform.height (transform sel) / 2))
                  (Point.x (pos e)
                   - (Transform.x (transform sel)
                      + Transform.width (transform sel) / 2))) as Hb.
    pose proof PI_RGT_0 as Hpi.
    assert (Hk : 0 < 180 / PI) by (apply Rdiv_lt_0_compat; lra).
    assert (Hk2 : PI * (180 / PI) = 180) by (field; lra).
    set (A := atan2 _ _) in *. set (k := 180 / PI) in *. nra.
  - pose proof PI_RGT_0 as Hpi. cbv zeta. unfold atan2.
    repeat split; intros H1 H2; rewrite H1.
    + rewrite Rminus_diag. rdecide.
      replace (- (PI / 2) * (180 / PI)) with (-90) by (field; lra). lra.
    + rewrite Rminus_diag. rdecide.
      unfold Rdiv at 1. rewrite Rmult_0_l, atan_0. lra.
    + rewrite Rminus_diag. rdecide.
      replace (PI / 2 * (180 / PI)) with 90 by (field; lra). lra.
    + rewrite Rminus_diag. rdecide.
      unfold Rdiv at 1. rewrite Rmult_0_l, atan_0.
      replace ((0 + PI) * (180 / PI)) with 180 by (field; lra). lra.
Qed.

Lemma rotate_follows_pointer_witness :
  exists a' c' o,
    handleMouseMove panelScene
      (setDragStart (setResizeHandle initialCanvas (Some "rotate"%string))
         (Some (Point.mk 50 (-30))))
      (mkEvent (Point.mk 200 50) false false) = Some (a', c') /\
    objects a' = [o] /\
    Transform.rotation (transform o) = 90.
Proof.
  destruct (rotate_follows_pointer panelScene
              (setDragStart
                 (setResizeHandle initialCanvas (Some "rotate"%string))
                 (Some (Point.mk 50 (-30))))
              (mkEvent (Point.mk 200 50) false false) (Point.mk 50 (-30))
              (sampleRect "rectangle-1" 0 0 100 100)
              eq_refl eq_refl eq_refl eq_refl eq_refl)
    as [angle [Hm [_ [_ [Hright _]]]]].
  do 3 eexists. split; [exact Hm |]. split; [reflexivity |].
  simpl. apply Hright; simpl; lra.
Defined.

(** ** Pressing the pointer *)

Lemma press_selected (a : AppState) (c : CanvasState) (e : MouseEvent)
    (sel : CanvasObject) :
  currentTool a = select -> firstSelected a = Some sel -> onCanvas (pos e) ->
  handleMouseDown a c e =
    let p := pos e in
    let localPos :=
      transformPointToObjectSpace (Point.x p) (Point.y p) sel in
    if Rltb (Rabs (Point.x localPos
                   - Transform.width (transform sel) / 2)) 10
       && Rltb (Rabs (Point.y localPos - -30)) 10
    then
      (a, setInitialRotation
            (setDragStart
               (setRotateStart (setResizeHandle c (Some "rotate"%string))
                  (Some p))
               (Some p))
            (Transform.rotation (transform sel)))
    else
      match
        find (fun h =>
                Rltb (Rabs (Point.x localPos - Point.x (fst h))) (8 * 1.5)
                && Rltb (Rabs (Point.y localPos - Point.y (fst h)))
                        (8 * 1.5))
             (resizeHandles (Transform.width (transform sel))
                (Transform.height (transform sel)))
      with
      | Some h => (a, setDragStart (setResizeHandle c (Some (snd h))) (Some p))
      | None =>
          if isPointInObject (Point.x p) (Point.y p) sel then
            (a, setDragOffset (setDragStart c (Some p))
                  (Some (Point.mk
                           (Point.x p - Transform.x (transform sel))
                           (Point.y p - Transform.y (transform sel)))))
          else clickSelect a c e
      end.
Proof.
  intros Ht Hsel [[Hx0 Hx1] [Hy0 Hy1]].
  unfold handleMouseDown. rewrite Ht, Hsel. unfold Rgtb.
  rewrite (Rltb_false (Point.x (pos e)) 0 Hx0),
    (Rltb_false CANVAS_WIDTH (Point.x (pos e)) Hx1),
    (Rltb_false (Point.y (pos e)) 0 Hy0),
    (Rltb_false CANVAS_HEIGHT (Point.y (pos e)) Hy1).
  reflexivity.
Qed.

(** X16.  What is painted is what is grabbed: pressing the pointer anywhere
    in one of the eight handle squares painted around the first selected
    object (at least 32 x 32, any rotation) starts a resize with that very
    handle and records the press position; nothing else changes. *)
Theorem press_grabs_painted_handle (a : AppState) (c : CanvasState)
    (sel : CanvasObject) (l corner : Point.t) (hid : string)
    (ctrl meta : bool) :
  currentTool a = select -> firstSelected a = Some sel ->
  32 <= Transform.width (transform sel) ->
  32 <= Transform.height (transform sel) ->
  In (corner, hid)
     (drawnHandles (Transform.width (transform sel))
        (Transform.height (transform sel))) ->
  inHandleSquare l corner ->
  onCanvas (objectToCanvas sel l) ->
  handleMouseDown a c (mkEvent (objectToCanvas sel l) ctrl meta) =
    (a, setDragStart (setResizeHandle c (Some hid))
          (Some (objectToCanvas sel l))).
Proof.
  intros Ht Hsel Hw Hh Hin Hsq Hon.
  rewrite (press_selected a c (mkEvent (objectToCanvas sel l) ctrl meta) sel
             Ht Hsel Hon). cbv zeta.
  cbn [pos].
  destruct (frame_round_trip sel l l) as [-> _].
  destruct l as [lx ly]. unfold inHandleSquare in Hsq.
  unfold drawnHandles, resizeHandles in *.
  set (w := Transform.width (transform sel)) in *.
  set (h := Transform.height (transform sel)) in *.
  cbn [Point.x Point.y find fst snd] in *.
  simpl In in Hin.
  repeat (destruct Hin as [Hin | Hin];
          [injection Hin as <- <-; cbn [Point.x Point.y] in Hsq;
           rdecide; reflexivity |]).
  contradiction.
Qed.

Lemma unrotated_drawing (obj : CanvasObject) (l : Point.t) :
  Transform.rotation (transform obj) = 0 ->
  objectToCanvas obj l =
    Point.mk (Transform.x (transform obj) + Point.x l)
             (Transform.y (transform obj) + Point.y l).
Proof.
  intros H. unfold objectToCanvas. rewrite H.
  replace (0 * PI / 180) with 0 by (unfold Rdiv; ring).
  rewrite cos_0, sin_0. f_equal; lra.
Qed.

Lemma press_grabs_painted_handle_witness :
  handleMouseDown panelScene initialCanvas
    (mkEvent (objectToCanvas (sampleRect "rectangle-1" 0 0 100 100)
                (Point.mk 98 53)) false false) =
  (panelScene,
   setDragStart (setResizeHandle initialCanvas (Some "e"%string))
     (Some (objectToCanvas (sampleRect "rectangle-1" 0 0 100 100)
              (Point.mk 98 53)))).
Proof.
  apply (press_grabs_painted_handle panelScene initialCanvas
           (sampleRect "rectangle-1" 0 0 100 100) (Point.mk 98 53)
           (Point.mk (100 - 8 / 2) (100 / 2 - 8 / 2)) "e" false false);
    try reflexivity.
  - simpl. lra.
  - simpl. lra.
  - simpl. right. right. right. left. reflexivity.
  - unfold inHandleSquare. simpl. lra.
  - rewrite unrotated_drawing by reflexivity.
    unfold onCanvas, CANVAS_WIDTH, CANVAS_HEIGHT. simpl. lra.
Defined.

(** X17.  Pressing the pointer anywhere on the painted rotation knob (the
    disc of radius 6 centred at local [(width/2, -30)]) of the first
    selected object starts a rotation: the handle becomes "rotate", the
    press position is recorded and the initial rotation is the current
    one. *)
Theorem press_grabs_rotation_knob (a : AppState) (c : CanvasState)
    (sel : CanvasObject) (l : Point.t) (ctrl meta : bool) :
  currentTool a = select -> firstSelected a = Some sel ->
  (Point.x l - Transform.width (transform sel) / 2) ^ 2
    + (Point.y l - -30) ^ 2 <= 6 ^ 2 ->
  onCanvas (objectToCanvas sel l) ->
  handleMouseDown a c (mkEvent (objectToCanvas sel l) ctrl meta) =
    (a, setInitialRotation
          (setDragStart
             (setRotateStart (setResizeHandle c (Some "rotate"%string))
                (Some (objectToCanvas sel l)))
             (Some (objectToCanvas sel l)))
          (Transform.rotation (transform sel))).
Proof.
  intros Ht Hsel Hk Hon.
  rewrite (press_selected a c (mkEvent (objectToCanvas sel l) ctrl meta) sel
             Ht Hsel Hon). cbv zeta. cbn [pos].
  destruct (frame_round_trip sel l l) as [-> _].
  set (u := Point.x l - Transform.width (transform sel) / 2) in *.
  set (v := Point.y l - -30) in *.
  assert (Hu : -6 <= u <= 6) by nra.
  assert (Hv : -6 <= v <= 6) by nra.
  rewrite (Rltb_true (Rabs u) 10) by rsolve.
  rewrite (Rltb_true (Rabs v) 10) by rsolve.
  reflexivity.
Qed.

Lemma press_grabs_rotation_knob_witness :
  handleMouseDown
    (setObjects panelScene [sampleRect "rectangle-1" 100 100 100 100])
    initialCanvas
    (mkEvent (objectToCanvas (sampleRect "rectangle-1" 100 100 100 100)
                (Point.mk 52 (-28))) false false) =
  (setObjects panelScene [sampleRect "rectangle-1" 100 100 100 100],
   setInitialRotation
     (setDragStart
        (setRotateStart (setResizeHandle initialCanvas
                           (Some "rotate"%string))
           (Some (objectToCanvas (sampleRect "rectangle-1" 100 100 100 100)
                    (Point.mk 52 (-28)))))
        (Some (objectToCanvas (sampleRect "rectangle-1" 100 100 100 100)
                 (Point.mk 52 (-28)))))
     0).
Proof.
  apply (press_grabs_rotation_knob
           (setObjects panelScene [sampleRect "rectangle-1" 100 100 100 100])
           initialCanvas (sampleRect "rectangle-1" 100 100 100 100)
           (Point.mk 52 (-28)) false false); try reflexivity.
  - simpl. lra.
  - rewrite unrotated_drawing by reflexivity.
    unfold onCanvas, CANVAS_WIDTH, CANVAS_HEIGHT. simpl. lra.
Defined.

Lemma find_app_skip {A : Type} (f : A -> bool) (l1 l2 : list A) :
  (forall q, In q l1 -> f q = false) -> find f (l1 ++ l2) = find f l2.
Proof.
  induction l1 as [| x l1 IH]; intros H; simpl; [reflexivity |].
  rewrite (H x (or_introl eq_refl)). apply IH.
  intros q Hq. apply H. right. exact Hq.
Qed.

Lemma find_all_false {A : Type} (f : A -> bool) (l : list A) :
  (forall q, In q l -> f q = false) -> find f l = None.
Proof.
  intros H. rewrite <- (app_nil_r l). rewrite find_app_skip by exact H.
  reflexivity.
Qed.

Lemma firstSelected_none (a : AppState) :
  selectedIds a = [] -> firstSelected a = None.
Proof.
  intros H. unfold firstSelected. rewrite H.
  apply find_all_false. reflexivity.
Qed.

Lemma press_unselected (a : AppState) (c : CanvasState) (e : MouseEvent) :
  currentTool a = select -> firstSelected a = None -> onCanvas (pos e) ->
  handleMouseDown a c e = clickSelect a c e.
Proof.
  intros Ht Hsel [[Hx0 Hx1] [Hy0 Hy1]].
  unfold handleMouseDown. rewrite Ht, Hsel. unfold Rgtb.
  rewrite (Rltb_false (Point.x (pos e)) 0 Hx0),
    (Rltb_false CANVAS_WIDTH (Point.x (pos e)) Hx1),
    (Rltb_false (Point.y (pos e)) 0 Hy0),
    (Rltb_false CANVAS_HEIGHT (Point.y (pos e)) Hy1).
  reflexivity.
Qed.

(** X18.  With nothing selected, a plain press with the select tool picks
    the topmost object under the pointer, this is the last one in the
    object list that is hit: it becomes the only selection and a drag of it
    starts, with the grab offset measured from its origin.  When no object
    is hit the selection stays empty and a marquee starts at the pointer.
    The objects are untouched in both cases. *)
Theorem click_selects_topmost (a : AppState) (c : CanvasState)
    (e : MouseEvent) :
  currentTool a = select -> selectedIds a = [] -> onCanvas (pos e) ->
  ctrlKey e = false -> metaKey e = false ->
  (forall l1 o l2,
     objects a = l1 ++ o :: l2 ->
     isPointInObject (Point.x (pos e)) (Point.y (pos e)) o = true ->
     (forall q, In q l2 ->
                isPointInObject (Point.x (pos e)) (Point.y (pos e)) q
                = false) ->
     handleMouseDown a c e =
       (setSelectedIds a [id o],
        setDragOffset (setDragStart c (Some (pos e)))
          (Some (Point.mk (Point.x (pos e) - Transform.x (transform o))
                          (Point.y (pos e) - Transform.y (transform o))))))
  /\
  ((forall q, In q (objects a) ->
              isPointInObject (Point.x (pos e)) (Point.y (pos e)) q = false)
   -> handleMouseDown a c e =
        (setSelectedIds a [],
         setMarqueeCurrent (setMarqueeStart c (Some (pos e)))
           (Some (pos e)))).
Proof.
  intros Ht Hs Hon Hc Hm.
  rewrite (press_unselected a c e Ht (firstSelected_none a Hs) Hon).
  unfold clickSelect. rewrite Hc, Hm. simpl. split.
  - intros l1 o l2 Ho Hhit Habove.
    rewrite Ho, rev_app_distr. simpl. rewrite <- app_assoc.
    rewrite find_app_skip
      by (intros q Hq; apply Habove; apply in_rev; exact Hq).
    simpl. rewrite Hhit. reflexivity.
  - intros Hnone.
    rewrite find_all_false
      by (intros q Hq; apply Hnone; apply in_rev; exact Hq).
    reflexivity.
Qed.

Lemma click_selects_topmost_witness :
  handleMouseDown
    (setSelectedIds
       (setObjects panelScene
          [sampleRect "rectangle-1" 0 0 100 100;
           sampleRect "rectangle-2" 50 50 100 100;
           sampleRect "rectangle-3" 500 500 100 100]) [])
    initialCanvas (mkEvent (Point.mk 60 70) false false) =
  (setSelectedIds
     (setObjects panelScene
        [sampleRect "rectangle-1" 0 0 100 100;
         sampleRect "rectangle-2" 50 50 100 100;
         sampleRect "rectangle-3" 500 500 100 100]) ["rectangle-2"%string],
   setDragOffset (setDragStart initialCanvas (Some (Point.mk 60 70)))
     (Some (Point.mk (60 - 50) (70 - 50)))).
Proof.
  destruct (click_selects_topmost
              (setSelectedIds
                 (setObjects panelScene
                    [sampleRect "rectangle-1" 0 0 100 100;
                     sampleRect "rectangle-2" 50 50 100 100;
                     sampleRect "rectangle-3" 500 500 100 100]) [])
              initialCanvas (mkEvent (Point.mk 60 70) false false)
              eq_refl eq_refl
              ltac:(unfold onCanvas, CANVAS_WIDTH, CANVAS_HEIGHT; simpl; lra)
              eq_refl eq_refl) as [H _].
  apply (H [sampleRect "rectangle-1" 0 0 100 100]
           (sampleRect "rectangle-2" 50 50 100 100)
           [sampleRect "rectangle-3" 500 500 100 100] eq_refl).
  - unfold isPointInObject. simpl. rdecide. apply inBox_iff. lra.
  - intros q [<- | []]. unfold isPointInObject. simpl. rdecide.
    unfold inBox. rdecide. reflexivity.
Defined.

(** ** Releasing the pointer: marquee and shape drafts *)

Lemma inside_marquee_iff (s q : Point.t) (o : CanvasObject) :
  Rgeb (Transform.x (transform o)) (Rmin (Point.x s) (Point.x q))
  && Rgeb (Transform.y (transform o)) (Rmin (Point.y s) (Point.y q))
  && Rleb (Transform.x (transform o) + Transform.width (transform o))
       (Rmax (Point.x s) (Point.x q))
  && Rleb (Transform.y (transform o) + Transform.height (transform o))
       (Rmax (Point.y s) (Point.y q)) = true
  <-> insideMarquee s q o.
Proof.
  unfold insideMarquee, Rgeb. rewrite !andb_true_iff, !Rleb_iff. tauto.
Qed.

Lemma mouseUp_marquee (env : Env) (a : AppState) (c : CanvasState)
    (e : MouseEvent) (s q : Point.t) :
  currentTool a = select \/ currentTool a = merge ->
  marqueeStart c = Some s -> marqueeCurrent c = Some q ->
  handleMouseUp env a c e =
    Some
      (let inside :=
         filter (fun obj =>
                   Rgeb (Transform.x (transform obj))
                     (Rmin (Point.x s) (Point.x q))
                   && Rgeb (Transform.y (transform obj))
                        (Rmin (Point.y s) (Point.y q))
                   && Rleb (Transform.x (transform obj)
                            + Transform.width (transform obj))
                        (Rmax (Point.x s) (Point.x q))
                   && Rleb (Transform.y (transform obj)
                            + Transform.height (transform obj))
                        (Rmax (Point.y s) (Point.y q)))
                (objects a) in
       if ctrlKey e || metaKey e
       then setSelectedIds a
              (selectedIds a
               ++ filter (fun i => negb (includes (selectedIds a) i))
                    (map id inside))
       else setSelectedIds a (map id inside),
       releasePointer (setMarqueeCurrent (setMarqueeStart c None) None)).
Proof.
  intros Ht Hs Hq. unfold handleMouseUp. rewrite Hs, Hq.
  destruct Ht as [-> | ->]; simpl;
    destruct (shapeStart c); destruct (shapeCurrent c);
    destruct (ctrlKey e || metaKey e); reflexivity.
Qed.

(** X19.  Releasing a marquee (select or merge tool) changes the selection
    and nothing in the scene.  Without a modifier the selection becomes the
    ids of the objects whose whole rect lies inside the marquee, one id for
    each such object, in the order of the object list.  With ctrl or meta
    the old selection is kept in front and those of these ids that were not
    selected yet are added behind it, in the same order.  The result does
    not depend on the direction the marquee was dragged in. *)
Theorem marquee_selects_contained (env : Env) (a : AppState)
    (c : CanvasState) (e : MouseEvent) (s q : Point.t) :
  currentTool a = select \/ currentTool a = merge ->
  marqueeStart c = Some s -> marqueeCurrent c = Some q ->
  exists a' c' inside,
    handleMouseUp env a c e = Some (a', c') /\
    objects a' = objects a /\ history a' = history a /\
    historyIndex a' = historyIndex a /\
    marqueeStart c' = None /\ marqueeCurrent c' = None /\
    Keeps (insideMarquee s q) (objects a) inside /\
    (ctrlKey e || metaKey e = false ->
     selectedIds a' = map id inside) /\
    (ctrlKey e || metaKey e = true ->
     exists added,
       selectedIds a' = selectedIds a ++ added /\
       Keeps (fun i => ~ In i (selectedIds a)) (map id inside) added) /\
    (forall c2, marqueeStart c2 = Some q -> marqueeCurrent c2 = Some s ->
                exists c2', handleMouseUp env a c2 e = Some (a', c2')).
Proof.
  intros Ht Hs Hq.
  rewrite (mouseUp_marquee env a c e s q Ht Hs Hq). cbv zeta.
  set (inside := filter _ (objects a)).
  assert (Hin : Keeps (insideMarquee s q) (objects a) inside).
  { unfold inside. apply Keeps_filter. intros o.
    apply inside_marquee_iff. }
  assert (Hsym :
    filter (fun obj =>
              Rgeb (Transform.x (transform obj))
                (Rmin (Point.x q) (Point.x s))
              && Rgeb (Transform.y (transform obj))
                   (Rmin (Point.y q) (Point.y s))
              && Rleb (Transform.x (transform obj)
                       + Transform.width (transform obj))
                   (Rmax (Point.x q) (Point.x s))
              && Rleb (Transform.y (transform obj)
                       + Transform.height (transform obj))
                   (Rmax (Point.y q) (Point.y s)))
           (objects a) = inside).
  { unfold inside. apply filter_ext. intros o.
    rewrite (Rmin_comm (Point.x q)), (Rmin_comm (Point.y q)),
      (Rmax_comm (Point.x q)), (Rmax_comm (Point.y q)). reflexivity. }
  eexists. eexists. exists inside. split; [reflexivity |].
  destruct (ctrlKey e || metaKey e) eqn:Emod; simpl.
  - split; [reflexivity |]. split; [reflexivity |].
    split; [reflexivity |]. split; [reflexivity |].
    split; [reflexivity |]. split; [exact Hin |].
    split; [discriminate |]. split.
    + intros _.
      exists (filter (fun i => negb (includes (selectedIds a) i))
                (map id inside)).
      split; [reflexivity |]. apply Keeps_filter. intros i.
      rewrite negb_true_iff. apply includes_not_In.
    + intros c2 Hs2 Hq2.
      rewrite (mouseUp_marquee env a c2 e q s Ht Hs2 Hq2). cbv zeta.
      rewrite Emod, Hsym. eexists. reflexivity.
  - split; [reflexivity |]. split; [reflexivity |].
    split; [reflexivity |]. split; [reflexivity |].
    split; [reflexivity |]. split; [exact Hin |].
    split; [reflexivity |]. split; [discriminate |].
    intros c2 Hs2 Hq2.
    rewrite (mouseUp_marquee env a c2 e q s Ht Hs2 Hq2). cbv zeta.
    rewrite Emod, Hsym. eexists. reflexivity.
Qed.

Lemma marquee_selects_contained_witness :
  exists a' c',
    handleMouseUp sprayEnv mergeScene
      (setMarqueeCurrent
         (setMarqueeStart initialCanvas (Some (Point.mk 60 60)))
         (Some (Point.mk 0 0)))
      (mkEvent (Point.mk 0 0) false false) = Some (a', c') /\
    objects a' = objects mergeScene /\
    selectedIds a' = ["rectangle-1"%string].
Proof.
  destruct (marquee_selects_contained sprayEnv mergeScene
              (setMarqueeCurrent
                 (setMarqueeStart initialCanvas (Some (Point.mk 60 60)))
                 (Some (Point.mk 0 0)))
              (mkEvent (Point.mk 0 0) false false)
              (Point.mk 60 60) (Point.mk 0 0)
              (or_intror eq_refl) eq_refl eq_refl)
    as [a' [c' [inside [Hup [Hobjs [_ [_ [_ [_ [Hk [Hplain _]]]]]]]]]]].
  exists a', c'. split; [exact Hup |]. split; [exact Hobjs |].
  rewrite (Hplain eq_refl).
  assert (Hone : Keeps (insideMarquee (Point.mk 60 60) (Point.mk 0 0))
                   (objects mergeScene)
                   [sampleRect "rectangle-1" 0 0 50 50]).
  { apply keeps_in; [unfold insideMarquee; simpl; rsolve |].
    apply keeps_out; [unfold insideMarquee; simpl; rsolve | constructor]. }
  rewrite (Keeps_unique _ _ _ _ Hk Hone). reflexivity.
Defined.

Lemma mouseUp_shape (env : Env) (a : AppState) (c : CanvasState)
    (e : MouseEvent) (s q : Point.t) :
  isShapeTool (currentTool a) = true ->
  shapeStart c = Some s -> shapeCurrent c = Some q ->
  handleMouseUp env a c e =
    Some
      ((if Rgtb (Rabs (Point.x q - Point.x s)) 10
           && Rgtb (Rabs (Point.y q - Point.y s)) 10
        then updateObjects a
               (objects a
                ++ [shapeObject env (currentTool a)
                      (constrainToCanvas
                         (Rmin (Point.x s) (Point.x q))
                         (Rmin (Point.y s) (Point.y q))
                         (Rabs (Point.x q - Point.x s))
                         (Rabs (Point.y q - Point.y s)))])
        else a),
       releasePointer (setShapeCurrent (setShapeStart c None) None)).
Proof.
  intros Ht Hs Hq. unfold handleMouseUp. rewrite Hs, Hq, Ht.
  destruct (currentTool a); try discriminate Ht; reflexivity.
Qed.

(** X20.  Releasing a shape draft (rectangle, circle, triangle, polygon,
    star or line tool).  When the dragged box is more than 10 wide and more
    than 10 high, exactly one object is appended and recorded in the
    history: it has the type of the tool, rotation 0, no erase points, the
    width and height of the box (cut to the canvas size), a rect that lies
    inside the canvas, and, when both ends of the drag are on the canvas,
    the box itself as rect.  Otherwise (a click, or a box with a side of
    10 or less) nothing is created and no history entry is made.  The
    selection is kept, the draft is closed, and the direction of the drag
    does not matter. *)
Theorem shape_commit_box (env : Env) (a : AppState) (c : CanvasState)
    (e : MouseEvent) (s q : Point.t) :
  isShapeTool (currentTool a) = true ->
  shapeStart c = Some s -> shapeCurrent c = Some q ->
  exists a' c',
    handleMouseUp env a c e = Some (a', c') /\
    shapeStart c' = None /\ shapeCurrent c' = None /\
    selectedIds a' = selectedIds a /\
    (10 < Rabs (Point.x q - Point.x s) ->
     10 < Rabs (Point.y q - Point.y s) ->
     exists o,
       objects a' = objects a ++ [o] /\
       history a'
         = firstn (historyIndex a + 1) (history a)
           ++ [mkHistory (objects a')] /\
       type o = toolType (currentTool a) /\
       children o = None /\
       Data.erasedAreas (data o) = Some [] /\
       Transform.rotation (transform o) = 0 /\
       Transform.width (transform o)
         = Rmin (Rabs (Point.x q - Point.x s)) CANVAS_WIDTH /\
       Transform.height (transform o)
         = Rmin (Rabs (Point.y q - Point.y s)) CANVAS_HEIGHT /\
       transformOk (transform o) /\
       (onCanvas s -> onCanvas q ->
        transform o =
          Transform.mk (Rmin (Point.x s) (Point.x q))
            (Rmin (Point.y s) (Point.y q))
            (Rabs (Point.x q - Point.x s))
            (Rabs (Point.y q - Point.y s)) 0)) /\
    (Rabs (Point.x q - Point.x s) <= 10
     \/ Rabs (Point.y q - Point.y s) <= 10 -> a' = a) /\
    (forall c2, shapeStart c2 = Some q -> shapeCurrent c2 = Some s ->
                exists c2', handleMouseUp env a c2 e = Some (a', c2')).
Proof.
  intros Ht Hs Hq.
  rewrite (mouseUp_shape env a c e s q Ht Hs Hq).
  do 2 eexists. split; [reflexivity |].
  split; [reflexivity |]. split; [reflexivity |].
  split; [destruct (_ && _); reflexivity |].
  split; [| split].
  - intros Hw Hh. unfold Rgtb.
    rewrite (Rltb_true _ _ Hw), (Rltb_true _ _ Hh). simpl.
    eexists. split; [reflexivity |]. split; [reflexivity |].
    split; [reflexivity |]. split; [reflexivity |].
    split; [reflexivity |]. split; [reflexivity |].
    split; [reflexivity |]. split; [reflexivity |].
    split.
    + apply (constrain_fits (Rmin (Point.x s) (Point.x q))
               (Rmin (Point.y s) (Point.y q))
               (Rabs (Point.x q - Point.x s))
               (Rabs (Point.y q - Point.y s))); lra.
    + intros [Hsx Hsy] [Hqx Hqy]. unfold constrainToCanvas. simpl.
      f_equal; rsolve.
  - intros Hsmall. unfold Rgtb.
    destruct Hsmall as [Hw | Hh].
    + rewrite (Rltb_false _ _ Hw). reflexivity.
    + rewrite (Rltb_false 10 (Rabs (Point.y q - Point.y s)) Hh).
      rewrite andb_false_r. reflexivity.
  - intros c2 Hs2 Hq2.
    rewrite (mouseUp_shape env a c2 e q s Ht Hs2 Hq2).
    rewrite (Rmin_comm (Point.x q)), (Rmin_comm (Point.y q)),
      (Rabs_minus_sym (Point.x s)), (Rabs_minus_sym (Point.y s)).
    eexists. reflexivity.
Qed.

Lemma shape_commit_box_witness :
  exists a' c',
    handleMouseUp sprayEnv
      (mkApp rectangle [] [] 100 [mkHistory []] 0 20 5 "#000000" normal 1)
      (setShapeCurrent
         (setShapeStart initialCanvas (Some (Point.mk 100 100)))
         (Some (Point.mk 40 60)))
      (mkEvent (Point.mk 40 60) false false) = Some (a', c') /\
    selectedIds a' = [].
Proof.
  destruct (shape_commit_box sprayEnv
              (mkApp rectangle [] [] 100 [mkHistory []] 0 20 5 "#000000"
                 normal 1)
              (setShapeCurrent
                 (setShapeStart initialCanvas (Some (Point.mk 100 100)))
                 (Some (Point.mk 40 60)))
              (mkEvent (Point.mk 40 60) false false)
              (Point.mk 100 100) (Point.mk 40 60)
              eq_refl eq_refl eq_refl)
    as [a' [c' [Hup [_ [_ [Hsel _]]]]]].
  exists a', c'. split; [| exact Hsel].
  exact Hup.
Defined.



Lemma mouseUp_released (env : Env) (a a1 : AppState) (c c1 : CanvasState)
    (e : MouseEvent) :
  handleMouseUp env a c e = Some (a1, c1) ->
  isDrawing c1 = false /\ dragStart c1 = None /\ resizeHandle c1 = None /\
  rotateStart c1 = None.
Proof.
  unfold handleMouseUp. intros H. cbv zeta in H.
  destruct (tool_eqb (currentTool a) brush && isDrawing c
            && (1 <? List.length (currentPath c))%nat).
  - destruct (pathBounds (currentPath c)) as [[x0 |] [y0 |] [x1 |] [y1 |]];
      simpl in H; try discriminate H.
    inversion H; subst. repeat split; reflexivity.
  - destruct (isShapeTool (currentTool a)), (shapeStart c), (shapeCurrent c),
      (tool_eqb (currentTool a) select || tool_eqb (currentTool a) merge),
      (marqueeStart c), (marqueeCurrent c);
      inversion H; subst; repeat split; reflexivity.
Qed.

Lemma mouseMove_idle (a : AppState) (c : CanvasState) (e : MouseEvent) :
  isDrawing c = false -> dragStart c = None ->
  handleMouseMove a c e = Some (a, trackPointer c (pos e)).
Proof.
  intros Hd Hs. unfold handleMouseMove. rewrite Hd, Hs.
  rewrite !andb_false_r.
  destruct (tool_eqb (currentTool a) select); reflexivity.
Qed.

(** X22.  Once the pointer is released, whatever the gesture was, moving
    the pointer edits nothing: every later move returns the application
    state as it is (objects, selection and history), and only tracks the
    pointer position, until the next press. *)
Theorem release_ends_gesture (env : Env) (a a1 : AppState)
    (c c1 : CanvasState) (e : MouseEvent) (moves : list MouseEvent) :
  handleMouseUp env a c e = Some (a1, c1) ->
  exists c2,
    moveAll (Some (a1, c1)) moves = Some (a1, c2) /\
    isDrawing c2 = false /\ dragStart c2 = None /\
    currentPath c2 = currentPath c1.
Proof.
  intros Hup.
  destruct (mouseUp_released env a a1 c c1 e Hup) as [Hd [Hs _]].
  clear Hup. revert c1 Hd Hs. unfold moveAll.
  induction moves as [| m moves IH]; intros c1 Hd Hs; simpl.
  - exists c1. repeat split; assumption.
  - rewrite (mouseMove_idle a1 c1 m Hd Hs).
    destruct (IH (trackPointer c1 (pos m))) as [c2 [Hf [Hd2 [Hs2 Hp2]]]].
    + unfold trackPointer. destruct (shapeStart c1); exact Hd.
    + unfold trackPointer. destruct (shapeStart c1); exact Hs.
    + exists c2. split; [exact Hf |]. split; [exact Hd2 |].
      split; [exact Hs2 |]. rewrite Hp2.
      unfold trackPointer. destruct (shapeStart c1); reflexivity.
Qed.

Lemma release_ends_gesture_witness :
  exists c2,
    moveAll
      (Some (brushScene,
             releasePointer
               (setCurrentPath (setIsDrawing initialCanvas true)
                  [Point.mk 2 2])))
      [mkEvent (Point.mk 5 5) false false;
       mkEvent (Point.mk 50 50) false false]
    = Some (brushScene, c2) /\
    isDrawing c2 = false /\ dragStart c2 = None /\
    currentPath c2 = [Point.mk 2 2].
Proof.
  exact (release_ends_gesture sprayEnv brushScene brushScene
           (setCurrentPath (setIsDrawing initialCanvas true) [Point.mk 2 2])
           (releasePointer
              (setCurrentPath (setIsDrawing initialCanvas true)
                 [Point.mk 2 2]))
           (mkEvent (Point.mk 2 2) false false)
           [mkEvent (Point.mk 5 5) false false;
            mkEvent (Point.mk 50 50) false false]
           eq_refl).
Defined.

(** ** Dragging and resizing *)

(** The drag branch of [handleMouseMove]. *)
Lemma mouseMove_drag (a : AppState) (c : CanvasState) (e : MouseEvent)
    (start off : Point.t) (sel : CanvasObject) :
  currentTool a = select -> dragStart c = Some start ->
  marqueeStart c = None -> resizeHandle c = None ->
  dragOffset c = Some off -> firstSelected a = Some sel ->
  handleMouseMove a c e =
    Some (updateObjects a
            (map (fun obj =>
                    if String.eqb (id obj) (id sel)
                    then moveObject obj
                           (constrainToCanvas
                              (Point.x (pos e) - Point.x off)
                              (Point.y (pos e) - Point.y off)
                              (Transform.width (transform sel))
                              (Transform.height (transform sel)))
                           (Rect.x
                              (constrainToCanvas
                                 (Point.x (pos e) - Point.x off)
                                 (Point.y (pos e) - Point.y off)
                                 (Transform.width (transform sel))
                                 (Transform.height (transform sel)))
                            - Transform.x (transform sel))
                           (Rect.y
                              (constrainToCanvas
                                 (Point.x (pos e) - Point.x off)
                                 (Point.y (pos e) - Point.y off)
                                 (Transform.width (transform sel))
                                 (Transform.height (transform sel)))
                            - Transform.y (transform sel))
                    else obj)
                 (objects a)),
          trackPointer c (pos e)).
Proof.
  intros Ht Hd Hm Hr Ho Hsel.
  destruct (firstSelected_in a sel Hsel) as [_ [i [ids Hids]]].
  destruct (trackPointer_keeps c (pos e)) as [_ [Hr' [Ho' _]]].
  unfold handleMouseMove. rewrite Ht, Hd, Hm, Hids, Hsel. simpl.
  unfold dragSelected. rewrite Hr', Ho', Hr, Ho. reflexivity.
Qed.

Lemma moveObject_fields (o : CanvasObject) (r : Rect.t) (dx dy : R) :
  id (moveObject o r dx dy) = id o /\
  type (moveObject o r dx dy) = type o /\
  style (moveObject o r dx dy) = style o /\
  children (moveObject o r dx dy) = children o /\
  Data.erasedAreas (data (moveObject o r dx dy))
    = Data.erasedAreas (data o) /\
  Data.sprayParticles (data (moveObject o r dx dy))
    = Data.sprayParticles (data o) /\
  Data.path (data (moveObject o r dx dy)) =
    (if isGroup o then Data.path (data o)
     else if isType o ObjType.drawn
          then option_map
                 (map (fun q => Point.mk (Point.x q + dx) (Point.y q + dy)))
                 (Data.path (data o))
          else Data.path (data o)).
Proof.
  unfold moveObject, isGroup.
  destruct (isType o ObjType.merged) eqn:Em;
    destruct (children o) eqn:Ec;
    destruct (isType o ObjType.drawn) eqn:Ed;
    destruct (Data.path (data o)) eqn:Ep;
    simpl; rewrite ?Ec, ?Ep; repeat split; reflexivity.
Qed.

(** X23.  A pointer move while an object is dragged (select tool, no
    handle grabbed) moves the objects carrying the id of the first selected
    object and nothing else: every other object is returned as it is, and a
    moved object keeps its id, type, style, children, erase mask, size and
    rotation.  Its new origin is the pointer minus the grab offset, clamped
    so that the rect of the first selected object stays inside the canvas;
    when that target is inside the canvas the origin is exactly the pointer
    minus the grab offset.  The points of a drawn path move by the same
    displacement as the rect of the first selected object; the children of
    a group are not touched, since they are relative to the group.  Every
    such move pushes one snapshot on the history. *)
Theorem drag_moves_selected (a : AppState) (c : CanvasState)
    (e : MouseEvent) (start off : Point.t) (sel : CanvasObject) :
  currentTool a = select -> dragStart c = Some start ->
  marqueeStart c = None -> resizeHandle c = None ->
  dragOffset c = Some off -> firstSelected a = Some sel ->
  exists a' nx ny,
    handleMouseMove a c e = Some (a', trackPointer c (pos e)) /\
    selectedIds a' = selectedIds a /\
    history a'
      = firstn (historyIndex a + 1) (history a) ++ [mkHistory (objects a')]
    /\
    nx = Rmax 0 (Rmin (Point.x (pos e) - Point.x off)
                   (CANVAS_WIDTH - Transform.width (transform sel))) /\
    ny = Rmax 0 (Rmin (Point.y (pos e) - Point.y off)
                   (CANVAS_HEIGHT - Transform.height (transform sel))) /\
    (0 <= Point.x (pos e) - Point.x off
       <= CANVAS_WIDTH - Transform.width (transform sel) ->
     nx = Point.x (pos e) - Point.x off) /\
    (0 <= Point.y (pos e) - Point.y off
       <= CANVAS_HEIGHT - Transform.height (transform sel) ->
     ny = Point.y (pos e) - Point.y off) /\
    Forall2
      (fun o o' =>
         (id o <> id sel -> o' = o) /\
         (id o = id sel ->
          id o' = id o /\ type o' = type o /\ style o' = style o /\
          children o' = children o /\
          Data.erasedAreas (data o') = Data.erasedAreas (data o) /\
          transform o' =
            Transform.mk nx ny (Transform.width (transform o))
              (Transform.height (transform o))
              (Transform.rotation (transform o)) /\
          Data.path (data o') =
            (if isGroup o then Data.path (data o)
             else if isType o ObjType.drawn
                  then option_map
                         (map (fun q =>
                                 Point.mk
                                   (Point.x q
                                    + (nx - Transform.x (transform sel)))
                                   (Point.y q
                                    + (ny - Transform.y (transform sel)))))
                         (Data.path (data o))
                  else Data.path (data o))))
      (objects a) (objects a').
Proof.
  intros Ht Hd Hm Hr Ho Hsel.
  rewrite (mouseMove_drag a c e start off sel Ht Hd Hm Hr Ho Hsel).
  eexists. exists
    (Rmax 0 (Rmin (Point.x (pos e) - Point.x off)
               (CANVAS_WIDTH - Transform.width (transform sel)))),
    (Rmax 0 (Rmin (Point.y (pos e) - Point.y off)
               (CANVAS_HEIGHT - Transform.height (transform sel)))).
  split; [reflexivity |]. split; [reflexivity |]. split; [reflexivity |].
  split; [reflexivity |]. split; [reflexivity |].
  split; [intros H; rsolve |]. split; [intros H; rsolve |].
  simpl. apply Forall2_map_self. intros o _.
  destruct (String.eqb (id o) (id sel)) eqn:E.
  - split.
    + intros Hne. apply String.eqb_eq in E. contradiction.
    + intros _.
      destruct (moveObject_fields o
                  (constrainToCanvas (Point.x (pos e) - Point.x off)
                     (Point.y (pos e) - Point.y off)
                     (Transform.width (transform sel))
                     (Transform.height (transform sel)))
                  (Rect.x
                     (constrainToCanvas (Point.x (pos e) - Point.x off)
                        (Point.y (pos e) - Point.y off)
                        (Transform.width (transform sel))
                        (Transform.height (transform sel)))
                   - Transform.x (transform sel))
                  (Rect.y
                     (constrainToCanvas (Point.x (pos e) - Point.x off)
                        (Point.y (pos e) - Point.y off)
                        (Transform.width (transform sel))
                        (Transform.height (transform sel)))
                   - Transform.y (transform sel)))
        as [Hi [Hty [Hst [Hch [Her [_ Hp]]]]]].
      split; [exact Hi |]. split; [exact Hty |]. split; [exact Hst |].
      split; [exact Hch |]. split; [exact Her |].
      split; [apply moveObject_transform | exact Hp].
  - split; [reflexivity |].
    intros Heq. apply String.eqb_neq in E. contradiction.
Qed.

Lemma drag_moves_selected_witness :
  exists a' nx ny,
    handleMouseMove panelScene
      (setDragOffset
         (setDragStart initialCanvas (Some (Point.mk 50 50)))
         (Some (Point.mk 50 50)))
      (mkEvent (Point.mk 2000 300) false false)
    = Some (a',
            trackPointer
              (setDragOffset
                 (setDragStart initialCanvas (Some (Point.mk 50 50)))
                 (Some (Point.mk 50 50)))
              (Point.mk 2000 300)) /\
    nx = 1100 /\ ny = 250 /\
    Forall2
      (fun o o' =>
         id o = "rectangle-1"%string ->
         transform o' =
           Transform.mk nx ny (Transform.width (transform o))
             (Transform.height (transform o))
             (Transform.rotation (transform o)))
      (objects panelScene) (objects a').
Proof.
  destruct (drag_moves_selected panelScene
              (setDragOffset
                 (setDragStart initialCanvas (Some (Point.mk 50 50)))
                 (Some (Point.mk 50 50)))
              (mkEvent (Point.mk 2000 300) false false)
              (Point.mk 50 50) (Point.mk 50 50)
              (sampleRect "rectangle-1" 0 0 100 100)
              eq_refl eq_refl eq_refl eq_refl eq_refl eq_refl)
    as [a' [nx [ny [Hmv [_ [_ [Hx [Hy [_ [_ Hall]]]]]]]]]].
  exists a', nx, ny. split; [exact Hmv |].
  split; [rewrite Hx; simpl; rsolve |].
  split; [rewrite Hy; simpl; rsolve |].
  eapply Forall2_impl; [| exact Hall].
  intros o o' [_ H] Hid. apply H. exact Hid.
Defined.





(** ** Where erased holes are painted *)











(** ** Merging keeps the picture *)




(** ** Erasing while the pointer moves *)

Lemma applyEraser_fields (obj : CanvasObject) (path : list Point.t)
    (p : Point.t) (d : R) (pt : option ParentTransform.t) :
  id (applyEraserToObject obj path p d pt) = id obj /\
  type (applyEraserToObject obj path p d pt) = type obj /\
  style (applyEraserToObject obj path p d pt) = style obj.
Proof.
  destruct (isGroup obj) eqn:G.
  - unfold isGroup in G.
    destruct (isType obj ObjType.merged) eqn:Ht; [| discriminate].
    destruct (children obj) as [cs |] eqn:Hc; [| discriminate].
    rewrite (applyEraser_group obj cs path p d pt Ht Hc).
    repeat split; reflexivity.
  - rewrite (applyEraser_leaf obj path p d pt G). repeat split; reflexivity.
Qed.

(** X28.  A pointer move with the eraser held down acts on every top-level
    object under the pointer, selected or not and covered by another
    object or not: such an object is replaced by [applyEraserToObject] of
    it, and every other object is left as it is; no object changes its id,
    type, rect or style.  A regular object under the pointer gets exactly
    one more stroke, which holds one sample for every point of the pending
    path and one for the pointer.  A group under the pointer keeps its own
    data and its children in order: a child whose box does not contain the
    pointer taken to the group's frame is left as it is, and a regular
    child whose box contains it gets exactly one more such stroke.  The
    pending path then restarts at the pointer, so consecutive strokes
    share a sample.  One snapshot is pushed on the history on every such
    move, also when nothing is under the pointer and the objects are all
    unchanged. *)
Theorem eraser_move_erases_all_hit (a : AppState) (c : CanvasState)
    (e : MouseEvent) :
  currentTool a = eraser -> isDrawing c = true ->
  exists a',
    handleMouseMove a c e =
      Some (a', setCurrentPath (trackPointer c (pos e)) [pos e]) /\
    selectedIds a' = selectedIds a /\
    history a'
      = firstn (historyIndex a + 1) (history a) ++ [mkHistory (objects a')]
    /\
    Forall2
      (fun o o' =>
         id o' = id o /\ type o' = type o /\ transform o' = transform o /\
         style o' = style o /\
         (isPointInObject (Point.x (pos e)) (Point.y (pos e)) o = false ->
          o' = o) /\
         (isPointInObject (Point.x (pos e)) (Point.y (pos e)) o = true ->
          o' = applyEraserToObject o (currentPath c) (pos e) (eraserSize a)
                 None /\
          (isGroup o = false ->
           exists stroke,
             Data.erasedAreas (data o')
               = Some (orList (Data.erasedAreas (data o)) [] ++ [stroke]) /\
             List.length stroke = S (List.length (currentPath c))) /\
          (forall cs,
             isType o ObjType.merged = true -> children o = Some cs ->
             data o' = data o /\
             exists cs',
               children o' = Some cs' /\
               Forall2
                 (fun ch ch' =>
                    (childHit (groupLocal o (groupAbs o None) (pos e)) ch
                     = false -> ch' = ch) /\
                    (childHit (groupLocal o (groupAbs o None) (pos e)) ch
                     = true -> isGroup ch = false ->
                     exists stroke,
                       Data.erasedAreas (data ch')
                         = Some (orList (Data.erasedAreas (data ch)) []
                                 ++ [stroke]) /\
                       List.length stroke
                         = S (List.length (currentPath c))))
                 cs cs')))
      (objects a) (objects a') /\
    ((forall o, In o (objects a) ->
                isPointInObject (Point.x (pos e)) (Point.y (pos e)) o
                = false) ->
     objects a' = objects a).
Proof.
  intros Ht Hd. unfold handleMouseMove. rewrite Ht, Hd. simpl.
  eexists. split; [reflexivity |]. split; [reflexivity |].
  split; [reflexivity |]. simpl. split.
  - apply Forall2_map_self. intros o _.
    destruct (isPointInObject (Point.x (pos e)) (Point.y (pos e)) o) eqn:E.
    + destruct (applyEraser_fields o (currentPath c) (pos e) (eraserSize a)
                  None) as [Hi [Hty Hst]].
      split; [exact Hi |]. split; [exact Hty |].
      split; [apply applyEraser_transform |]. split; [exact Hst |].
      split; [discriminate |].
      intros _. split; [reflexivity |]. split.
      * intros Hleaf.
        rewrite (applyEraser_leaf o (currentPath c) (pos e) (eraserSize a)
                   None Hleaf).
        eexists. split; [reflexivity |].
        unfold localPath. rewrite length_app, length_map. simpl. lia.
      * intros cs Hm Hcs.
        rewrite (applyEraser_group o cs (currentPath c) (pos e)
                   (eraserSize a) None Hm Hcs).
        split; [reflexivity |]. eexists. split; [reflexivity |].
        apply Forall2_map_self. intros ch _. cbv beta. split.
        -- intros Hh.
           change (childHit (groupLocal o (groupAbs o None) (pos e)) ch
                   = false) in Hh.
           rewrite Hh. reflexivity.
        -- intros Hh Hleaf.
           change (childHit (groupLocal o (groupAbs o None) (pos e)) ch
                   = true) in Hh.
           rewrite Hh.
           rewrite (applyEraser_leaf ch (currentPath c) (pos e)
                      (eraserSize a) _ Hleaf).
           eexists. split; [reflexivity |].
           unfold localPath. rewrite length_app, length_map. simpl. lia.
    + repeat split; try reflexivity; discriminate.
  - intros Hnone. rewrite <- (map_id (objects a)) at 2.
    apply map_ext_in. intros o Ho. rewrite (Hnone o Ho). reflexivity.
Qed.

Lemma eraser_move_erases_all_hit_witness :
  exists a' o' stroke,
    handleMouseMove eraseScene
      (setCurrentPath (setIsDrawing initialCanvas true) [Point.mk 40 50])
      (mkEvent (Point.mk 50 50) false false)
    = Some (a',
            setCurrentPath
              (trackPointer
                 (setCurrentPath (setIsDrawing initialCanvas true)
                    [Point.mk 40 50])
                 (Point.mk 50 50))
              [Point.mk 50 50]) /\
    objects a' = [o'] /\
    Data.erasedAreas (data o') = Some ([] ++ [stroke]) /\
    List.length stroke = 2%nat.
Proof.
  destruct (eraser_move_erases_all_hit eraseScene
              (setCurrentPath (setIsDrawing initialCanvas true)
                 [Point.mk 40 50])
              (mkEvent (Point.mk 50 50) false false) eq_refl eq_refl)
    as [a' [Hmv [_ [_ [Hall _]]]]].
  change (objects eraseScene) with [sampleRect "rectangle-1" 0 0 100 100]
    in Hall.
  destruct (Forall2_singleton _ _ _ Hall) as [o' [Eo Ho]].
  destruct Ho as [_ [_ [_ [_ [_ Hhit]]]]].
  destruct Hhit as [_ [Hleaf _]].
  - unfold isPointInObject. simpl. rdecide. apply inBox_iff. lra.
  - destruct (Hleaf eq_refl) as [stroke [He Hl]].
    exists a', o', stroke. split; [exact Hmv |]. split; [exact Eo |].
    split; [exact He | exact Hl].
Defined.

(** ** Hexagons and stars *)





(** ** Whole gestures: press, moves, release *)

Lemma moveAll_cons (a : AppState) (c : CanvasState) (m : MouseEvent)
    (moves : list MouseEvent) :
  moveAll (Some (a, c)) (m :: moves) = moveAll (handleMouseMove a c m) moves.
Proof. reflexivity. Qed.

Lemma brush_moves (a : AppState) (moves : list MouseEvent) :
  currentTool a = brush ->
  forall c, isDrawing c = true ->
  exists c',
    moveAll (Some (a, c)) moves = Some (a, c') /\
    isDrawing c' = true /\
    currentPath c' = currentPath c ++ map pos moves.
Proof.
  intros Ht. induction moves as [| m moves IH]; intros c Hd.
  - exists c. rewrite app_nil_r. repeat split; assumption.
  - rewrite moveAll_cons. unfold handleMouseMove. rewrite Ht, Hd. simpl.
    destruct (IH (setCurrentPath (trackPointer c (pos m))
                    (currentPath c ++ [pos m])))
      as [c' [Hm [Hd' Hp]]].
    + unfold trackPointer. destruct (shapeStart c); exact Hd.
    + exists c'. split; [exact Hm |]. split; [exact Hd' |].
      rewrite Hp. simpl. rewrite <- app_assoc. reflexivity.
Qed.

Lemma shape_moves (a : AppState) (s : Point.t) (moves : list MouseEvent) :
  isShapeTool (currentTool a) = true ->
  forall c q, shapeStart c = Some s -> shapeCurrent c = Some q ->
  exists c',
    moveAll (Some (a, c)) moves = Some (a, c') /\
    shapeStart c' = Some s /\
    shapeCurrent c' = Some (last (map pos moves) q).
Proof.
  intros Ht. induction moves as [| m moves IH]; intros c q Hs Hq.
  - exists c. repeat split; assumption.
  - rewrite moveAll_cons.
    assert (E : handleMouseMove a c m = Some (a, trackPointer c (pos m))).
    { unfold handleMouseMove.
      destruct (currentTool a); try discriminate Ht; reflexivity. }
    rewrite E.
    destruct (IH (trackPointer c (pos m)) (pos m)) as [c' [Hm [Hs' Hq']]].
    + unfold trackPointer. rewrite Hs. exact Hs.
    + unfold trackPointer. rewrite Hs. reflexivity.
    + exists c'. split; [exact Hm |]. split; [exact Hs' |].
      rewrite Hq'. f_equal. simpl.
      destruct (map pos moves) as [| p ps] eqn:Em; [reflexivity |].
      clear. revert p. induction ps as [| p' ps IHp]; intros p;
        [reflexivity |].
      simpl in *. apply IHp.
Qed.

(** X30.  A whole gesture that starts with a press on the canvas.  With a
    shape tool, the press, any number of pointer moves and the release
    create the same as a release on the box from the press to the last
    move: one shape with that box, when it is more than 10 wide and high,
    and nothing otherwise; the position of the release itself is not
    read.  With the brush, the press, at least one move and the release
    append one drawn object whose path is the press position followed by
    the positions of the moves, in order.  The moves in between change
    neither the objects nor the history. *)
Theorem gesture_commits (env : Env) (a : AppState) (c : CanvasState)
    (e0 e1 : MouseEvent) (moves : list MouseEvent) :
  onCanvas (pos e0) ->
  (isShapeTool (currentTool a) = true ->
   exists c1 c2,
     moveAll (Some (handleMouseDown a c e0)) moves = Some (a, c1) /\
     handleMouseUp env a c1 e1 =
       Some
         ((if Rgtb (Rabs (Point.x (last (map pos moves) (pos e0))
                          - Point.x (pos e0))) 10
              && Rgtb (Rabs (Point.y (last (map pos moves) (pos e0))
                             - Point.y (pos e0))) 10
           then updateObjects a
                  (objects a
                   ++ [shapeObject env (currentTool a)
                         (constrainToCanvas
                            (Rmin (Point.x (pos e0))
                               (Point.x (last (map pos moves) (pos e0))))
                            (Rmin (Point.y (pos e0))
                               (Point.y (last (map pos moves) (pos e0))))
                            (Rabs (Point.x (last (map pos moves) (pos e0))
                                   - Point.x (pos e0)))
                            (Rabs (Point.y (last (map pos moves) (pos e0))
                                   - Point.y (pos e0))))])
           else a), c2)) /\
  (currentTool a = brush -> moves <> [] ->
   exists c1 c2 o,
     moveAll (Some (handleMouseDown a c e0)) moves = Some (a, c1) /\
     handleMouseUp env a c1 e1 = Some (updateObjects a (objects a ++ [o]), c2)
     /\
     type o = ObjType.drawn /\
     Data.path (data o) = Some (pos e0 :: map pos moves)).
Proof.
  intros [[Hx0 Hx1] [Hy0 Hy1]].
  assert (Hon :
    Rltb (Point.x (pos e0)) 0 || Rgtb (Point.x (pos e0)) CANVAS_WIDTH
    || Rltb (Point.y (pos e0)) 0 || Rgtb (Point.y (pos e0)) CANVAS_HEIGHT
    = false).
  { unfold Rgtb.
    rewrite (Rltb_false (Point.x (pos e0)) 0 Hx0),
      (Rltb_false CANVAS_WIDTH (Point.x (pos e0)) Hx1),
      (Rltb_false (Point.y (pos e0)) 0 Hy0),
      (Rltb_false CANVAS_HEIGHT (Point.y (pos e0)) Hy1).
    reflexivity. }
  split.
  - intros Ht.
    assert (E : handleMouseDown a c e0 =
                (a, setShapeCurrent (setShapeStart c (Some (pos e0)))
                      (Some (pos e0)))).
    { unfold handleMouseDown. rewrite Hon.
      destruct (currentTool a); try discriminate Ht; reflexivity. }
    rewrite E.
    destruct (shape_moves a (pos e0) moves Ht
                (setShapeCurrent (setShapeStart c (Some (pos e0)))
                   (Some (pos e0))) (pos e0) eq_refl eq_refl)
      as [c1 [Hm [Hs Hq]]].
    exists c1. eexists. split; [exact Hm |].
    apply (mouseUp_shape env a c1 e1 (pos e0) _ Ht Hs Hq).
  - intros Ht Hne.
    assert (E : handleMouseDown a c e0 =
                (a, setCurrentPath (setIsDrawing c true) [pos e0])).
    { unfold handleMouseDown. rewrite Hon, Ht. reflexivity. }
    rewrite E.
    destruct (brush_moves a moves Ht
                (setCurrentPath (setIsDrawing c true) [pos e0]) eq_refl)
      as [c1 [Hm [Hd Hp]]].
    simpl in Hp.
    assert (Hl : (1 < List.length (currentPath c1))%nat).
    { rewrite Hp. simpl. destruct moves; [contradiction | simpl; lia]. }
    destruct (brush_commit env a c1 e1 Ht Hd Hl)
      as [x0 [y0 [x1 [y1 [_ Hup]]]]].
    exists c1. do 2 eexists. split; [exact Hm |].
    split; [exact Hup |]. split; [reflexivity |].
    simpl. rewrite Hp. reflexivity.
Qed.

Lemma gesture_commits_witness :
  exists c1 c2 o,
    moveAll
      (Some (handleMouseDown brushScene initialCanvas
               (mkEvent (Point.mk 2 2) false false)))
      [mkEvent (Point.mk 30 40) false false] = Some (brushScene, c1) /\
    handleMouseUp sprayEnv brushScene c1
      (mkEvent (Point.mk 30 40) false false)
    = Some (updateObjects brushScene (objects brushScene ++ [o]), c2) /\
    Data.path (data o) = Some [Point.mk 2 2; Point.mk 30 40].
Proof.
  destruct (gesture_commits sprayEnv brushScene initialCanvas
              (mkEvent (Point.mk 2 2) false false)
              (mkEvent (Point.mk 30 40) false false)
              [mkEvent (Point.mk 30 40) false false])
    as [_ H].
  - unfold onCanvas, CANVAS_WIDTH, CANVAS_HEIGHT. simpl. lra.
  - destruct (H eq_refl) as [c1 [c2 [o [Hm [Hup [_ Hp]]]]]];
      [discriminate |].
    exists c1, c2, o. split; [exact Hm |]. split; [exact Hup | exact Hp].
Defined.
